(** * The Mycelial suggestion engine: analyzer, router, executor, state machine

    A shallow embedding of the TypeScript sources (App.tsx, types.ts and the
    two revisions of services/geminiService.ts) and the proofs of the
    properties stated for them.

    The code is [async]: a handler runs until it awaits the provider and
    goes on when the provider settles the call.  Handlers and service
    functions are programs over the effects of the code ([Prog]); a
    program is run one segment at a time ([run_sync], [resume]); the page
    is a machine whose events are what the user and the provider can do
    to it ([step]).

    Conventions.  JavaScript strings are Rocq strings; the operations the
    code uses on them (concatenation, [===], [trim], [substring],
    [toUpperCase] on role names) agree with JavaScript on ASCII text.
    JavaScript numbers that occur as literals are kept as exact decimals.
    [undefined] in an optional position is [None].  Values are read at
    their declared TypeScript types; a suggestion's [type] and an
    analysis' [historyDepth] are strings, as they are at run time. *)

From Stdlib Require Import String Ascii List Bool ZArith Lia DecimalString.
From ExtLib Require Import Structures.Monad Structures.MonadExc.
Import ListNotations.
Import MonadNotation.
Local Open Scope string_scope.
Local Open Scope monad_scope.

Set Implicit Arguments.

(* ===================================================================== *)
(** ** JavaScript odds and ends                                            *)
(* ===================================================================== *)

(** A decimal number [mantissa * 10 ^ exponent]: the value of a numeric
    literal such as [0.7], [1] or [32768]. *)
Record Number := mkNumber { mantissa : Z; exponent : Z }.

Definition num (z : Z) : Number := mkNumber z 0.

(** The line feed, and the double quote that JSON text is made of. *)
Definition LF : string := String (ascii_of_nat 10) EmptyString.
Definition DQ : string := String (ascii_of_nat 34) EmptyString.

(** Truthiness of a string: [!text] holds for the empty string (and for
    [undefined], which is [None] where a string is optional). *)
Definition truthy (s : string) : bool :=
  match s with EmptyString => false | String _ _ => true end.

(** [a || b] on an optional string with a string default. *)
Definition or_else (s : option string) (d : string) : string :=
  match s with
  | Some t => if truthy t then t else d
  | None => d
  end.

(** [Array.prototype.includes] on an array of strings. *)
Definition includes (l : list string) (x : string) : bool :=
  existsb (String.eqb x) l.

(** [Array.prototype.join]. *)
Definition join (sep : string) (l : list string) : string := String.concat sep l.

(** White space as [String.prototype.trim] sees it, on ASCII: tab, line
    feed, vertical tab, form feed, carriage return and space. *)
Definition is_space (c : ascii) : bool :=
  let n := nat_of_ascii c in
  (((9 <=? n) && (n <=? 13)) || (n =? 32))%nat.

Fixpoint trimStart (s : string) : string :=
  match s with
  | EmptyString => EmptyString
  | String c s' => if is_space c then trimStart s' else s
  end.

(** [trimEnd] keeps a character when it is not a space or when something
    remains after it. *)
Fixpoint trimEnd (s : string) : string :=
  match s with
  | EmptyString => EmptyString
  | String c s' =>
      match trimEnd s' with
      | EmptyString => if is_space c then EmptyString else String c EmptyString
      | r => String c r
      end
  end.

Definition trim (s : string) : string := trimEnd (trimStart s).

(** Decimal rendering of an array length inside a template literal. *)
Definition string_of_nat (n : nat) : string :=
  NilZero.string_of_uint (Nat.to_uint n).

(** [Array.prototype.slice(0, -1)]: everything but the last element. *)
Definition slice_0_m1 {A} (l : list A) : list A := removelast l.

(** [a[a.length - 1]]: the last element, [undefined] on the empty array. *)
Definition last_elem {A} (l : list A) : option A :=
  match l with
  | [] => None
  | _ => nth_error l (length l - 1)
  end.

(* ===================================================================== *)
(** ** types.ts                                                            *)
(* ===================================================================== *)

Inductive Role := RoleUser | RoleModel | RoleSystem.

Definition role_str (r : Role) : string :=
  match r with RoleUser => "user" | RoleModel => "model" | RoleSystem => "system" end.

Definition role_toUpperCase (r : Role) : string :=
  match r with RoleUser => "USER" | RoleModel => "MODEL" | RoleSystem => "SYSTEM" end.

Inductive MessageKind := text_kind | tool_result_kind | error_kind.

Record SourceUrl := mkSourceUrl { title : string; uri : string }.

(** [SuggestionType] is a union of six string literals; at run time a
    suggestion's [type] is whatever string the payload carried, so the
    field is a string and the six literals are the recognised values. *)
Definition SuggestionType := string.

Definition categories : list SuggestionType :=
  ["Clarify"; "Expand"; "Create"; "Connect"; "Challenge"; "Crystallize"].

Record Metadata := mkMetadata {
  suggestionType : option SuggestionType;
  executionTime : option Number;
  md_modelUsed : option string;
  md_sourceUrls : option (list SourceUrl)
}.

Record Message := mkMessage {
  m_id : string;
  role : Role;
  content : string;
  timestamp : Z;
  m_type : option MessageKind;
  metadata : option Metadata
}.

(** [id] is declared mandatory but the response schema has no such
    property, so analyzer-made suggestions reach the code without one. *)
Record Suggestion := mkSuggestion {
  s_id : option string;
  s_type : SuggestionType;
  s_title : string;
  description : string;
  reasoning : string;
  confidence : Number
}.

Record AnalysisResult := mkAnalysisResult {
  patternsDetected : list string;
  historyDepth : string;
  contextContinuity : string;
  dialecticalOpportunity : option string;
  suggestions : list Suggestion
}.

Inductive LogKind := log_info | log_success | log_warning | log_pattern.

Record AnalysisLogEntry := mkLogEntry {
  l_id : string;
  l_timestamp : Z;
  message : string;
  l_type : LogKind
}.

Record EngineState := mkEngineState {
  isActive : bool;
  isAnalyzing : bool;
  isExecuting : bool;
  logs : list AnalysisLogEntry;
  currentSuggestions : list Suggestion
}.

(* ===================================================================== *)
(** ** The provider interface (@google/genai) as this code uses it         *)
(* ===================================================================== *)

(** Response and parameter schemas: [Type.STRING] with an optional
    description and enumeration, [Type.NUMBER], [Type.ARRAY] and
    [Type.OBJECT]. *)
#[warnings="-register-all"]
Inductive Schema :=
| T_STRING (sdescription : option string) (enum : option (list string))
| T_NUMBER
| T_ARRAY (items : Schema)
| T_OBJECT (properties : list (string * Schema)) (required : list string).

Record FunctionDeclaration := mkFunctionDeclaration {
  fd_name : string;
  fd_description : string;
  parameters : Schema
}.

(** An entry of [config.tools]: [{ googleSearch: {} }] or
    [{ functionDeclarations: [...] }]. *)
Inductive Tool :=
| googleSearch
| functionDeclarations (fds : list FunctionDeclaration).

Record ThinkingConfig := mkThinkingConfig { thinkingBudget : Z }.

Record Config := mkConfig {
  systemInstruction : option string;
  responseMimeType : option string;
  responseSchema : option Schema;
  temperature : option Number;
  tools : option (list Tool);
  thinkingConfig : option ThinkingConfig
}.

Record Request := mkRequest {
  rq_model : string;
  rq_contents : string;
  rq_config : Config
}.

Record FunctionCall := mkFunctionCall { fc_name : option string }.

Record Part := mkPart { functionCall : option FunctionCall }.

Record Content := mkContent { parts : option (list Part) }.

Record WebChunk := mkWebChunk { web_uri : option string; web_title : option string }.

Record GroundingChunk := mkGroundingChunk { web : option WebChunk }.

Record GroundingMetadata := mkGroundingMetadata {
  groundingChunks : option (list GroundingChunk)
}.

Record Candidate := mkCandidate {
  c_content : option Content;
  groundingMetadata : option GroundingMetadata
}.

Record Response := mkResponse {
  r_text : option string;
  candidates : option (list Candidate)
}.

(** A thrown [Error]. *)
Record JsError := mkError { err_message : string }.

(** How a [generateContent] promise settles. *)
Inductive Outcome :=
| Resolves (r : Response)
| Rejects (e : JsError).

(** What [executeSuggestion] resolves to. *)
Record ExecResult := mkExecResult {
  text : string;
  modelUsed : string;
  sourceUrls : option (list SourceUrl)
}.

(* ===================================================================== *)
(** ** Asynchronous programs                                               *)
(* ===================================================================== *)

(** The effects of the code: the provider call (the only operation an
    [await] really waits for), [console.error], the two sources of fresh
    data, and the three React state setters. *)
Inductive Eff : Type -> Type :=
| GenerateContent (req : Request) : Eff Outcome
| ConsoleError (label : string) (e : JsError) : Eff unit
| RandomUUID : Eff string
| DateNow : Eff Z
| SetMessages (f : list Message -> list Message) : Eff unit
| SetInput (s : string) : Eff unit
| SetEngineState (f : EngineState -> EngineState) : Eff unit.

(** An [async] function body: it returns, throws, or performs an effect
    and goes on with the answer. *)
Inductive Prog (A : Type) : Type :=
| Ret (a : A)
| Throw (e : JsError)
| Vis (X : Type) (e : Eff X) (k : X -> Prog A).

Arguments Ret {A} a.
Arguments Throw {A} e.
Arguments Vis {A X} e k.

Fixpoint pbind {A B} (p : Prog A) (f : A -> Prog B) : Prog B :=
  match p with
  | Ret a => f a
  | Throw e => Throw e
  | Vis e k => Vis e (fun x => pbind (k x) f)
  end.

#[global] Instance Monad_Prog : Monad Prog :=
  {| ret := @Ret; bind := @pbind |}.

(** [try { p } catch (error) { h error }]. *)
Fixpoint try_catch {A} (p : Prog A) (h : JsError -> Prog A) : Prog A :=
  match p with
  | Ret a => Ret a
  | Throw e => h e
  | Vis e k => Vis e (fun x => try_catch (k x) h)
  end.

#[global] Instance MonadExc_Prog : MonadExc JsError Prog :=
  {| raise := @Throw; catch := @try_catch |}.

(** [try { p } finally { fin }]. *)
Fixpoint try_finally {A} (p : Prog A) (fin : Prog unit) : Prog A :=
  match p with
  | Ret a => pbind fin (fun _ => Ret a)
  | Throw e => pbind fin (fun _ => Throw e)
  | Vis e k => Vis e (fun x => try_finally (k x) fin)
  end.

Definition perform {X} (e : Eff X) : Prog X := Vis e Ret.

(** [await ai.models.generateContent(req)]: a rejection is thrown at the
    [await]. *)
Definition generateContent (req : Request) : Prog Response :=
  o <- perform (GenerateContent req) ;;
  match o with
  | Resolves r => ret r
  | Rejects e => raise e
  end.

Definition console_error (label : string) (e : JsError) : Prog unit :=
  perform (ConsoleError label e).

Definition randomUUID : Prog string := perform RandomUUID.
Definition Date_now : Prog Z := perform DateNow.
Definition setMessages (f : list Message -> list Message) : Prog unit :=
  perform (SetMessages f).
Definition setInput (s : string) : Prog unit := perform (SetInput s).
Definition setEngineState (f : EngineState -> EngineState) : Prog unit :=
  perform (SetEngineState f).

(** [l.forEach(x => f x)]. *)
Fixpoint forEach {A} (l : list A) (f : A -> Prog unit) : Prog unit :=
  match l with
  | [] => ret tt
  | x :: l' => f x ;; forEach l' f
  end.

(* ===================================================================== *)
(** ** JSON values, [JSON.stringify] and [JSON.parse]                      *)
(* ===================================================================== *)

Module JSON.

#[warnings="-register-all"]
Inductive json :=
| JNull
| JBool (b : bool)
| JNum (n : Number)
| JStr (s : string)
| JArr (l : list json)
| JObj (fields : list (string * json)).

Definition string_of_Z (z : Z) : string := NilZero.string_of_int (Z.to_int z).

(** Integers print in decimal; a number with a non-zero exponent prints
    in exponent notation, which is valid JSON text.  (No number is ever
    stringified by the modelled code.) *)
Definition number_text (n : Number) : string :=
  if (exponent n =? 0)%Z then string_of_Z (mantissa n)
  else string_of_Z (mantissa n) ++ "e" ++ string_of_Z (exponent n).

Definition hex_digit (n : nat) : string :=
  String (ascii_of_nat (if (n <? 10)%nat then 48 + n else 87 + n)) EmptyString.

Definition escape_char (c : ascii) : string :=
  let n := nat_of_ascii c in
  let bs := String (ascii_of_nat 92) EmptyString in
  if (n =? 34)%nat then bs ++ DQ
  else if (n =? 92)%nat then bs ++ bs
  else if (n =? 8)%nat then bs ++ "b"
  else if (n =? 12)%nat then bs ++ "f"
  else if (n =? 10)%nat then bs ++ "n"
  else if (n =? 13)%nat then bs ++ "r"
  else if (n =? 9)%nat then bs ++ "t"
  else if (n <? 32)%nat then bs ++ "u00" ++ hex_digit (n / 16) ++ hex_digit (n mod 16)
  else String c EmptyString.

Fixpoint escape (s : string) : string :=
  match s with
  | EmptyString => EmptyString
  | String c s' => escape_char c ++ escape s'
  end.

Definition quote (s : string) : string := DQ ++ escape s ++ DQ.

Fixpoint stringify (v : json) : string :=
  match v with
  | JNull => "null"
  | JBool true => "true"
  | JBool false => "false"
  | JNum n => number_text n
  | JStr s => quote s
  | JArr l => "[" ++ join "," (map stringify l) ++ "]"
  | JObj fs =>
      "{" ++ join "," (map (fun kv => let '(k, x) := kv in
                                      quote k ++ ":" ++ stringify x) fs) ++ "}"
  end.

(** *** A reference parser for ASCII JSON text

    It accepts the JSON grammar except [\u] escapes and returns [None]
    where [JSON.parse] throws a [SyntaxError]. *)

Definition is_ws (c : ascii) : bool :=
  let n := nat_of_ascii c in
  ((n =? 32) || (n =? 9) || (n =? 10) || (n =? 13))%nat.

Fixpoint skip_ws (s : string) : string :=
  match s with
  | String c s' => if is_ws c then skip_ws s' else s
  | EmptyString => s
  end.

Definition digit_of (c : ascii) : option Z :=
  let n := nat_of_ascii c in
  if ((48 <=? n) && (n <=? 57))%nat then Some (Z.of_nat (n - 48)) else None.

(** Reads a run of digits: the value accumulated onto [acc], how many
    digits were read, and the rest. *)
Fixpoint digits (acc : Z) (count : nat) (s : string) : Z * nat * string :=
  match s with
  | String c s' =>
      match digit_of c with
      | Some d => digits (acc * 10 + d) (S count) s'
      | None => (acc, count, s)
      end
  | EmptyString => (acc, count, s)
  end.

Definition starts_with (c : nat) (s : string) : option string :=
  match s with
  | String c' s' => if (nat_of_ascii c' =? c)%nat then Some s' else None
  | EmptyString => None
  end.

(** [-? int frac? exp?], with [int] either [0] or without leading zero. *)
Definition parse_number (s : string) : option (Number * string) :=
  let '(neg, s1) := match starts_with 45 s with
                    | Some r => (true, r)
                    | None => (false, s)
                    end in
  let '(ip, ic, s2) := match starts_with 48 s1 with
                       | Some r => (0%Z, 1%nat, r)
                       | None => digits 0 0 s1
                       end in
  match ic with
  | O => None
  | S _ =>
      let frac := match starts_with 46 s2 with
                  | Some r => let '(m, fc, s3) := digits ip 0 r in
                              match fc with
                              | O => None
                              | S _ => Some (m, fc, s3)
                              end
                  | None => Some (ip, O, s2)
                  end in
      match frac with
      | None => None
      | Some (m, fc, s3) =>
          let m' := if neg then (- m)%Z else m in
          let e0 := (- Z.of_nat fc)%Z in
          let after_e := match starts_with 101 s3 with
                         | Some r => Some r
                         | None => starts_with 69 s3
                         end in
          match after_e with
          | None => Some (mkNumber m' e0, s3)
          | Some r =>
              let '(eneg, r1) := match starts_with 45 r with
                                 | Some r' => (true, r')
                                 | None => match starts_with 43 r with
                                           | Some r' => (false, r')
                                           | None => (false, r)
                                           end
                                 end in
              let '(e, ec, r2) := digits 0 0 r1 in
              match ec with
              | O => None
              | S _ => Some (mkNumber m' (e0 + (if eneg then - e else e))%Z, r2)
              end
          end
      end
  end.

Definition unescape (c : ascii) : option ascii :=
  let n := nat_of_ascii c in
  if ((n =? 34) || (n =? 92) || (n =? 47))%nat then Some c
  else if (n =? 98)%nat then Some (ascii_of_nat 8)
  else if (n =? 102)%nat then Some (ascii_of_nat 12)
  else if (n =? 110)%nat then Some (ascii_of_nat 10)
  else if (n =? 114)%nat then Some (ascii_of_nat 13)
  else if (n =? 116)%nat then Some (ascii_of_nat 9)
  else None.

(** The characters of a string literal after its opening quote. *)
Fixpoint parse_chars (s : string) : option (string * string) :=
  match s with
  | EmptyString => None
  | String c s' =>
      let n := nat_of_ascii c in
      if (n =? 34)%nat then Some (EmptyString, s')
      else if (n =? 92)%nat then
        match s' with
        | String e s'' =>
            match unescape e, parse_chars s'' with
            | Some ch, Some (r, rest) => Some (String ch r, rest)
            | _, _ => None
            end
        | EmptyString => None
        end
      else if (n <? 32)%nat then None
      else match parse_chars s' with
           | Some (r, rest) => Some (String c r, rest)
           | None => None
           end
  end.

Definition parse_literal (word : string) (v : json) (s : string)
  : option (json * string) :=
  if String.prefix word s
  then Some (v, substring (String.length word) (String.length s) s)
  else None.

Fixpoint parse_value (fuel : nat) (s : string) : option (json * string) :=
  match fuel with
  | O => None
  | S f =>
      match skip_ws s with
      | EmptyString => None
      | String c rest as s0 =>
          let n := nat_of_ascii c in
          if (n =? 34)%nat then
            match parse_chars rest with
            | Some (str, r) => Some (JStr str, r)
            | None => None
            end
          else if (n =? 91)%nat then
            match starts_with 93 (skip_ws rest) with
            | Some r => Some (JArr [], r)
            | None => match parse_elements f rest with
                      | Some (l, r) => Some (JArr l, r)
                      | None => None
                      end
            end
          else if (n =? 123)%nat then
            match starts_with 125 (skip_ws rest) with
            | Some r => Some (JObj [], r)
            | None => match parse_members f rest with
                      | Some (l, r) => Some (JObj l, r)
                      | None => None
                      end
            end
          else if (n =? 110)%nat then parse_literal "null" JNull s0
          else if (n =? 116)%nat then parse_literal "true" (JBool true) s0
          else if (n =? 102)%nat then parse_literal "false" (JBool false) s0
          else match parse_number s0 with
               | Some (x, r) => Some (JNum x, r)
               | None => None
               end
      end
  end
with parse_elements (fuel : nat) (s : string) : option (list json * string) :=
  match fuel with
  | O => None
  | S f =>
      match parse_value f s with
      | None => None
      | Some (v, r) =>
          let r' := skip_ws r in
          match starts_with 93 r' with
          | Some r'' => Some ([v], r'')
          | None =>
              match starts_with 44 r' with
              | None => None
              | Some r'' =>
                  match parse_elements f r'' with
                  | Some (l, r3) => Some (v :: l, r3)
                  | None => None
                  end
              end
          end
      end
  end
with parse_members (fuel : nat) (s : string)
  : option (list (string * json) * string) :=
  match fuel with
  | O => None
  | S f =>
      match starts_with 34 (skip_ws s) with
      | None => None
      | Some r0 =>
          match parse_chars r0 with
          | None => None
          | Some (k, r1) =>
              match starts_with 58 (skip_ws r1) with
              | None => None
              | Some r2 =>
                  match parse_value f r2 with
                  | None => None
                  | Some (v, r3) =>
                      let r' := skip_ws r3 in
                      match starts_with 125 r' with
                      | Some r'' => Some ([(k, v)], r'')
                      | None =>
                          match starts_with 44 r' with
                          | None => None
                          | Some r'' =>
                              match parse_members f r'' with
                              | Some (l, r4) => Some ((k, v) :: l, r4)
                              | None => None
                              end
                          end
                      end
                  end
              end
          end
      end
  end.

Definition parse (s : string) : option json :=
  match parse_value (S (String.length s)) s with
  | Some (v, r) => match skip_ws r with
                   | EmptyString => Some v
                   | String _ _ => None
                   end
  | None => None
  end.

(** Property access on a parsed object: the last member with the key. *)
Fixpoint get (k : string) (fs : list (string * json)) : option json :=
  match fs with
  | [] => None
  | (k', v) :: fs' =>
      match get k fs' with
      | Some w => Some w
      | None => if String.eqb k k' then Some v else None
      end
  end.

End JSON.

(** Whether a JSON value conforms to a schema: the value has the schema's
    type, a string lies in the enumeration when there is one, every array
    element conforms to [items], every required property is present and
    every declared property that is present conforms. *)
Fixpoint conforms (sch : Schema) (v : JSON.json) : bool :=
  match sch, v with
  | T_STRING _ None, JSON.JStr _ => true
  | T_STRING _ (Some allowed), JSON.JStr s => includes allowed s
  | T_NUMBER, JSON.JNum _ => true
  | T_ARRAY items, JSON.JArr l => forallb (conforms items) l
  | T_OBJECT props req, JSON.JObj fs =>
      forallb (fun k => match JSON.get k fs with Some _ => true | None => false end) req
      && (fix each (ps : list (string * Schema)) : bool :=
            match ps with
            | [] => true
            | (k, sk) :: ps' =>
                match JSON.get k fs with
                | Some x => conforms sk x
                | None => true
                end && each ps'
            end) props
  | _, _ => false
  end.

(** [o?.f]: optional chaining. *)
Definition chain {A B} (o : option A) (f : A -> option B) : option B :=
  match o with Some a => f a | None => None end.

(** [config.thinkingConfig = tc] and [config.tools = ts]. *)
Definition set_thinkingConfig (tc : ThinkingConfig) (c : Config) : Config :=
  {| systemInstruction := systemInstruction c; responseMimeType := responseMimeType c;
     responseSchema := responseSchema c; temperature := temperature c;
     tools := tools c; thinkingConfig := Some tc |}.

Definition set_tools (ts : list Tool) (c : Config) : Config :=
  {| systemInstruction := systemInstruction c; responseMimeType := responseMimeType c;
     responseSchema := responseSchema c; temperature := temperature c;
     tools := Some ts; thinkingConfig := thinkingConfig c |}.

(** The service as the application sees it. *)
Class GeminiService := {
  analyzeContext : list Message -> string -> Prog AnalysisResult;
  executeSuggestion : Suggestion -> list Message -> string -> Prog ExecResult
}.

(** The response schema, the same in both revisions of the service. *)
Definition analysisSchema : Schema :=
  T_OBJECT
    [ ("patternsDetected", T_ARRAY (T_STRING None None));
      ("historyDepth", T_STRING None (Some ["shallow"; "medium"; "deep"]));
      ("contextContinuity", T_STRING None None);
      ("dialecticalOpportunity", T_STRING None None);
      ("suggestions",
        T_ARRAY
          (T_OBJECT
             [ ("type", T_STRING None
                          (Some ["Clarify"; "Expand"; "Create"; "Connect";
                                 "Challenge"; "Crystallize"]));
               ("title", T_STRING None None);
               ("description", T_STRING None None);
               ("reasoning", T_STRING None None);
               ("confidence", T_NUMBER) ]
             ["type"; "title"; "description"; "reasoning"; "confidence"])) ]
    ["patternsDetected"; "suggestions"; "historyDepth"; "contextContinuity"].

(** The system instruction up to its one line that differs between the
    two revisions. *)
Definition system_instruction (connection_line : string) : string :=
  join LF
    [ "";
      "You are the Mycelial Suggestion Engine. Your purpose is not to answer directly, but to analyze the conversation substrate and sprout potential paths forward.";
      "";
      "Principles:";
      "1. Treat every input as a spore that must be compared against the entire conversation history.";
      "2. Identify patterns: Question, Imperative, Continuation, Disagreement.";
      "3. Detect opportunities for:";
      "   - Clarification (Ambiguity?)";
      "   - Expansion (Depth available?)";
      "   - Creation (Artifact needed?)";
      connection_line;
      "   - Challenge (Is there a dialectical opposite?)";
      "   - Crystallization (Can we summarize the core essence?)";
      "";
      "Output MUST be a JSON object with:";
      "- patternsDetected: list of strings";
      "- historyDepth: 'shallow' | 'medium' | 'deep'";
      "- contextContinuity: description of how this links to past";
      "- dialecticalOpportunity: description of a potential counter-point";
      "- suggestions: Array of exactly 5 suggestions covering different types from [Clarify, Expand, Create, Connect, Challenge, Crystallize].";
      "" ].

Definition error_result : ExecResult :=
  {| text := "Error executing suggestion. Please try again.";
     modelUsed := "error";
     sourceUrls := None |}.

Section Analyzer.

(** [JSON.parse(text) as AnalysisResult]: the host parses the text and
    the code reads the value at the declared type without checking it;
    [inl] is the [SyntaxError] of text that is not JSON. *)
Variable JSON_parse : string -> JsError + AnalysisResult.

(** [analyzeContext], the same code in both revisions. *)
Definition analyzeContext_with (SYSTEM_INSTRUCTION_ANALYSIS : string)
    (history : list Message) (lastInput : string) : Prog AnalysisResult :=
  try_catch
    (let model := "gemini-2.5-flash" in
     let historyText :=
       join LF (map (fun m => role_toUpperCase (role m) ++ ": " ++ content m) history) in
     let fullPrompt :=
       "HISTORY:" ++ LF ++ historyText ++ LF ++ LF ++ "NEW INPUT:" ++ LF
       ++ "USER: " ++ lastInput ++ LF ++ LF
       ++ "Analyze this context and generate suggestions." in
     response <- generateContent
       {| rq_model := model;
          rq_contents := fullPrompt;
          rq_config :=
            {| systemInstruction := Some SYSTEM_INSTRUCTION_ANALYSIS;
               responseMimeType := Some "application/json";
               responseSchema := Some analysisSchema;
               temperature := Some (mkNumber 3 (-1));
               tools := None;
               thinkingConfig := None |} |} ;;
     match r_text response with
     | Some text =>
         if truthy text then
           match JSON_parse text with
           | inr a => ret a
           | inl e => raise e
           end
         else raise (mkError "No analysis generated")
     | None => raise (mkError "No analysis generated")
     end)
    (fun error => console_error "Analysis failed:" error ;; raise error).

End Analyzer.

(* ===================================================================== *)
(** ** services/geminiService.ts, the revision with search grounding       *)
(* ===================================================================== *)

Module Grounded.

Definition SYSTEM_INSTRUCTION_ANALYSIS : string :=
  system_instruction
    "   - Connection (Related to previous topic? New context needed?)".

(** Lines 393-410: the model and the configuration for a type. *)
Definition configure (type : SuggestionType) : string * Config :=
  let model := "gemini-2.5-flash" in
  let config :=
    {| systemInstruction := None; responseMimeType := None;
       responseSchema := None; temperature := Some (mkNumber 7 (-1));
       tools := None; thinkingConfig := None |} in
  if includes ["Create"; "Challenge"; "Crystallize"] type then
    ("gemini-3-pro-preview", set_thinkingConfig (mkThinkingConfig 32768) config)
  else if includes ["Expand"; "Connect"] type then
    ("gemini-2.5-flash", set_tools [googleSearch] config)
  else
    ("gemini-2.5-flash", config).

Definition taskPrompt (suggestion : Suggestion) (history : list Message)
    (lastInput : string) : string :=
  join LF
    [ "";
      "        TASK: Execute the following suggestion:";
      "        Type: " ++ s_type suggestion;
      "        Title: " ++ s_title suggestion;
      "        Description: " ++ description suggestion;
      "        Reasoning: " ++ reasoning suggestion;
      "        ";
      "        CONTEXT:";
      "        " ++ join LF (map (fun m => role_str (role m) ++ ": " ++ content m) history);
      "        USER: " ++ lastInput;
      "        ";
      "        INSTRUCTIONS:";
      "        Perform the suggested action comprehensively.";
      "        - If 'Create': Provide the full code, text, or artifact.";
      "        - If 'Challenge': Provide a dialectical antithesis or counter-argument.";
      "        - If 'Crystallize': Distill the conversation into its core essence/insight.";
      "        - If 'Expand'/'Connect': Use search tools if needed to provide accurate, up-to-date context.";
      "        - If 'Clarify': Ask the necessary questions to resolve ambiguity.";
      "      " ].

(** The body of the [forEach] over the grounding chunks: a chunk with
    a truthy [web.uri] is pushed, any other is skipped. *)
Definition push_chunk (sourceUrls : list SourceUrl) (chunk : GroundingChunk)
  : list SourceUrl :=
  match chain (web chunk) web_uri with
  | Some u =>
      if truthy u then
        sourceUrls ++ [ {| title := or_else (chain (web chunk) web_title) "Source";
                           uri := u |} ]
      else sourceUrls
  | None => sourceUrls
  end.

Definition extract_sources (response : Response) : list SourceUrl :=
  let chunks :=
    chain (chain (chain (candidates response) (fun cs => nth_error cs 0))
                 groundingMetadata)
          groundingChunks in
  match chunks with
  | Some cs => fold_left push_chunk cs []
  | None => []
  end.

Definition executeSuggestion (suggestion : Suggestion)
    (history : list Message) (lastInput : string) : Prog ExecResult :=
  try_catch
    (let model := fst (configure (s_type suggestion)) in
     let config := snd (configure (s_type suggestion)) in
     let taskPrompt := taskPrompt suggestion history lastInput in
     response <- generateContent
       {| rq_model := model; rq_contents := taskPrompt; rq_config := config |} ;;
     let sourceUrls := extract_sources response in
     ret {| text := or_else (r_text response) "No response generated.";
            modelUsed := model;
            sourceUrls := if (0 <? length sourceUrls)%nat
                          then Some sourceUrls else None |})
    (fun error => console_error "Execution failed:" error ;; ret error_result).

Definition analyzeContext (JSON_parse : string -> JsError + AnalysisResult)
  : list Message -> string -> Prog AnalysisResult :=
  analyzeContext_with JSON_parse SYSTEM_INSTRUCTION_ANALYSIS.

Definition service (JSON_parse : string -> JsError + AnalysisResult)
  : GeminiService :=
  Build_GeminiService (analyzeContext JSON_parse) executeSuggestion.

End Grounded.

(* ===================================================================== *)
(** ** services/geminiService.ts, the revision with the Drive search tool  *)
(* ===================================================================== *)

Module DriveTool.

Definition SYSTEM_INSTRUCTION_ANALYSIS : string :=
  system_instruction "   - Connection (Related to previous topic?)".

Definition searchDriveTool : FunctionDeclaration :=
  {| fd_name := "searchDrive";
     fd_description := "Search the user's Google Drive for relevant documents.";
     parameters :=
       T_OBJECT
         [ ("query", T_STRING (Some "The search query.") None);
           ("fileType",
             T_STRING (Some "Optional file type filter (docs, sheets, slides).") None) ]
         ["query"] |}.

Definition isComplex (type : SuggestionType) : bool :=
  includes ["Create"; "Challenge"; "Crystallize"] type.

Definition needsSearch (type : SuggestionType) : bool :=
  String.eqb type "Expand" || String.eqb type "Connect".

(** Lines 571-591: the model and the configuration for a type. *)
Definition configure (type : SuggestionType) : string * Config :=
  let model := "gemini-2.5-flash" in
  let config :=
    {| systemInstruction := None; responseMimeType := None;
       responseSchema := None; temperature := Some (mkNumber 7 (-1));
       tools := None; thinkingConfig := None |} in
  if isComplex type then
    ("gemini-3-pro-preview", set_thinkingConfig (mkThinkingConfig 32768) config)
  else if needsSearch type then
    ("gemini-2.5-flash", set_tools [functionDeclarations [searchDriveTool]] config)
  else
    ("gemini-2.5-flash", config).

Definition taskPrompt (suggestion : Suggestion) (history : list Message)
    (lastInput : string) : string :=
  join LF
    [ "";
      "        TASK: Execute the following suggestion:";
      "        Type: " ++ s_type suggestion;
      "        Title: " ++ s_title suggestion;
      "        Description: " ++ description suggestion;
      "        ";
      "        CONTEXT:";
      "        " ++ join LF (map (fun m => role_str (role m) ++ ": " ++ content m) history);
      "        USER: " ++ lastInput;
      "        ";
      "        INSTRUCTIONS:";
      "        Perform the suggested action comprehensively. ";
      "        If the type is 'Create', provide the code or artifact clearly.";
      "        If 'Challenge', be dialectical and offer the antithesis.";
      "        If 'Crystallize', summarize the essence.";
      "      " ].

(** The stand-in search result. *)
Definition mockFiles : JSON.json :=
  JSON.JArr
    [ JSON.JObj [ ("title", JSON.JStr "Project Alpha Specs.pdf");
                  ("snippet", JSON.JStr "Specs for the new engine...") ];
      JSON.JObj [ ("title", JSON.JStr "Meeting Notes 2024.docx");
                  ("snippet", JSON.JStr "Discussed Q4 goals...") ] ].

Definition followUpPrompt (taskPrompt : string) : string :=
  taskPrompt ++ LF ++ LF ++ "TOOL RESULT (searchDrive): Found files: "
  ++ JSON.stringify mockFiles ++ ". Incorporate this into your answer.".

(** [response.candidates?.[0]?.content?.parts?.[0]?.functionCall]. *)
Definition first_functionCall (response : Response) : option FunctionCall :=
  chain (chain (chain (chain (chain (candidates response) (fun cs => nth_error cs 0))
                             c_content)
                      parts)
               (fun ps => nth_error ps 0))
        functionCall.

Definition is_searchDrive (fc : FunctionCall) : bool :=
  match fc_name fc with
  | Some n => String.eqb n "searchDrive"
  | None => false
  end.

Definition executeSuggestion (suggestion : Suggestion)
    (history : list Message) (lastInput : string) : Prog ExecResult :=
  try_catch
    (let model := fst (configure (s_type suggestion)) in
     let config := snd (configure (s_type suggestion)) in
     let taskPrompt := taskPrompt suggestion history lastInput in
     response <- generateContent
       {| rq_model := model; rq_contents := taskPrompt; rq_config := config |} ;;
     let direct :=
       ret {| text := or_else (r_text response) "No response generated.";
              modelUsed := model;
              sourceUrls := None |} in
     match first_functionCall response with
     | Some fc =>
         if is_searchDrive fc then
           followUpResponse <- generateContent
             {| rq_model := model;
                rq_contents := followUpPrompt taskPrompt;
                rq_config :=
                  {| systemInstruction := None; responseMimeType := None;
                     responseSchema := None; temperature := None;
                     tools := None;
                     thinkingConfig :=
                       if isComplex (s_type suggestion)
                       then Some (mkThinkingConfig 16000) else None |} |} ;;
           ret {| text := or_else (r_text followUpResponse)
                                  "Error processing tool result.";
                  modelUsed := model;
                  sourceUrls := None |}
         else direct
     | None => direct
     end)
    (fun error => console_error "Execution failed:" error ;; ret error_result).

Definition analyzeContext (JSON_parse : string -> JsError + AnalysisResult)
  : list Message -> string -> Prog AnalysisResult :=
  analyzeContext_with JSON_parse SYSTEM_INSTRUCTION_ANALYSIS.

Definition service (JSON_parse : string -> JsError + AnalysisResult)
  : GeminiService :=
  Build_GeminiService (analyzeContext JSON_parse) executeSuggestion.

End DriveTool.

(* ===================================================================== *)
(** ** App.tsx                                                             *)
(* ===================================================================== *)

(** The React state of the component.  What a handler reads through its
    closure or through [messagesRef.current] is the state as last
    rendered, which is passed to the handler as its snapshot; what a
    handler writes goes through the setters. *)
Record AppState := mkAppState {
  messages : list Message;
  input : string;
  engineActive : bool;
  engineState : EngineState
}.

Definition initialAppState : AppState :=
  {| messages := [];
     input := "";
     engineActive := true;
     engineState := {| isActive := true; isAnalyzing := false; isExecuting := false;
                       logs := []; currentSuggestions := [] |} |}.

(** [{ ...prev, field: value }] for the fields the code updates. *)
Definition set_isAnalyzing (b : bool) (prev : EngineState) : EngineState :=
  {| isActive := isActive prev; isAnalyzing := b; isExecuting := isExecuting prev;
     logs := logs prev; currentSuggestions := currentSuggestions prev |}.

Definition set_isExecuting (b : bool) (prev : EngineState) : EngineState :=
  {| isActive := isActive prev; isAnalyzing := isAnalyzing prev; isExecuting := b;
     logs := logs prev; currentSuggestions := currentSuggestions prev |}.

Definition set_currentSuggestions (l : list Suggestion) (prev : EngineState)
  : EngineState :=
  {| isActive := isActive prev; isAnalyzing := isAnalyzing prev;
     isExecuting := isExecuting prev; logs := logs prev; currentSuggestions := l |}.

Definition set_logs (l : list AnalysisLogEntry) (prev : EngineState) : EngineState :=
  {| isActive := isActive prev; isAnalyzing := isAnalyzing prev;
     isExecuting := isExecuting prev; logs := l;
     currentSuggestions := currentSuggestions prev |}.

(** The suggestion the engine-off path makes up. *)
Definition standardReply : Suggestion :=
  {| s_type := "Expand"; s_title := "Reply"; description := "Standard reply";
     reasoning := "Engine off"; confidence := num 1; s_id := Some "std" |}.

Section App.

Context {svc : GeminiService}.

(** The identifier and the time stamp are made when the updater runs;
    updaters run in the order they were queued. *)
Definition addLog (message : string) (type : LogKind) : Prog unit :=
  id <- randomUUID ;;
  now <- Date_now ;;
  setEngineState (fun prev =>
    set_logs (logs prev ++ [ {| l_id := id; l_timestamp := now;
                                message := message; l_type := type |} ])%list prev).

Definition processWithEngine (snapshot : AppState) (lastUserMessage : Message)
  : Prog unit :=
  setEngineState (fun prev => set_currentSuggestions [] (set_isAnalyzing true prev)) ;;
  addLog "Spore detected. Initiating substrate analysis..." log_info ;;
  try_catch
    (analysis <- analyzeContext (messages snapshot) (content lastUserMessage) ;;
     forEach (patternsDetected analysis)
             (fun p => addLog ("Pattern: " ++ p) log_pattern) ;;
     addLog ("History Depth: " ++ historyDepth analysis) log_info ;;
     addLog ("Continuity: " ++ substring 0 50 (contextContinuity analysis) ++ "...")
            log_info ;;
     setEngineState (fun prev =>
       set_currentSuggestions (suggestions analysis) (set_isAnalyzing false prev)) ;;
     addLog ("Generated " ++ string_of_nat (length (suggestions analysis))
             ++ " potential growth paths.") log_success)
    (fun error =>
       addLog ("Analysis failed: " ++ err_message error) log_warning ;;
       setEngineState (fun prev => set_isAnalyzing false prev)).

Definition handleSendMessage (snapshot : AppState) : Prog unit :=
  if negb (truthy (trim (input snapshot))) || isExecuting (engineState snapshot)
  then ret tt
  else
    id <- randomUUID ;;
    now <- Date_now ;;
    let userMsg :=
      {| m_id := id; role := RoleUser; content := input snapshot; timestamp := now;
         m_type := None; metadata := None |} in
    setMessages (fun prev => (prev ++ [userMsg])%list) ;;
    setInput "" ;;
    if engineActive snapshot then processWithEngine snapshot userMsg
    else
      setEngineState (fun prev => set_isExecuting true prev) ;;
      try_finally
        (response <- executeSuggestion standardReply (messages snapshot)
                                       (content userMsg) ;;
         id' <- randomUUID ;;
         now' <- Date_now ;;
         setMessages (fun prev => (prev ++ [
           {| m_id := id'; role := RoleModel; content := text response;
              timestamp := now'; m_type := None;
              metadata := Some {| suggestionType := None; executionTime := None;
                                  md_modelUsed := Some (modelUsed response);
                                  md_sourceUrls := sourceUrls response |} |} ])%list))
        (setEngineState (fun prev => set_isExecuting false prev)).

Definition handleSuggestionClick (snapshot : AppState) (suggestion : Suggestion)
  : Prog unit :=
  setEngineState (fun prev => set_currentSuggestions [] (set_isExecuting true prev)) ;;
  addLog ("Selected path: " ++ s_type suggestion ++ " - " ++ s_title suggestion)
         log_success ;;
  addLog "Weaving response..." log_info ;;
  try_finally
    (try_catch
       (let lastMsg := last_elem (messages snapshot) in
        let history := slice_0_m1 (messages snapshot) in
        lastInput <- match lastMsg with
                     | Some m => ret (content m)
                     | None => raise (mkError
                         "Cannot read properties of undefined (reading 'content')")
                     end ;;
        result <- executeSuggestion suggestion history lastInput ;;
        id <- randomUUID ;;
        now <- Date_now ;;
        setMessages (fun prev => (prev ++ [
          {| m_id := id; role := RoleModel; content := text result;
             timestamp := now; m_type := None;
             metadata := Some {| suggestionType := Some (s_type suggestion);
                                 executionTime := None;
                                 md_modelUsed := Some (modelUsed result);
                                 md_sourceUrls := sourceUrls result |} |} ])%list) ;;
        addLog "Execution complete." log_success)
       (fun error => addLog "Execution failed." log_warning))
    (setEngineState (fun prev => set_isExecuting false prev)).

(** The status footer. *)
Definition STATUS (es : EngineState) : string :=
  if isExecuting es then "EXECUTING"
  else if isAnalyzing es then "ANALYZING" else "IDLE".

(** *** Running the handlers

    The host supplies the fresh identifiers and the clock; they are read
    in order through a counter. *)
Variable uuid_of : nat -> string.
Variable clock : nat -> Z.

Record World := mkWorld {
  app : AppState;
  ticks : nat;
  console : list (string * JsError);
  wire : list Request
}.

Definition with_app (f : AppState -> AppState) (w : World) : World :=
  {| app := f (app w); ticks := ticks w; console := console w; wire := wire w |}.

(** An effect that does not wait is carried out at once and answers;
    the provider call puts its request on the wire and answers later. *)
Definition handle {X} (e : Eff X) (w : World) : World * option X :=
  match e in Eff X return World * option X with
  | GenerateContent req =>
      ({| app := app w; ticks := ticks w; console := console w;
          wire := (wire w ++ [req])%list |}, None)
  | ConsoleError label err =>
      ({| app := app w; ticks := ticks w; console := (console w ++ [(label, err)])%list;
          wire := wire w |}, Some tt)
  | RandomUUID =>
      ({| app := app w; ticks := S (ticks w); console := console w; wire := wire w |},
       Some (uuid_of (ticks w)))
  | DateNow =>
      ({| app := app w; ticks := S (ticks w); console := console w; wire := wire w |},
       Some (clock (ticks w)))
  | SetMessages f =>
      (with_app (fun a => {| messages := f (messages a); input := input a;
                             engineActive := engineActive a;
                             engineState := engineState a |}) w, Some tt)
  | SetInput s =>
      (with_app (fun a => {| messages := messages a; input := s;
                             engineActive := engineActive a;
                             engineState := engineState a |}) w, Some tt)
  | SetEngineState f =>
      (with_app (fun a => {| messages := messages a; input := input a;
                             engineActive := engineActive a;
                             engineState := f (engineState a) |}) w, Some tt)
  end.

(** Where a program stands when it stops running: it has returned, it
    has thrown, or it waits for the provider ([Blocked p], with [p]
    starting at the pending call). *)
Inductive Status (A : Type) :=
| Done (a : A)
| Failed (e : JsError)
| Blocked (p : Prog A).

Arguments Done {A} a.
Arguments Failed {A} e.
Arguments Blocked {A} p.

Fixpoint run_sync {A} (p : Prog A) (w : World) : World * Status A :=
  match p with
  | Ret a => (w, Done a)
  | Throw e => (w, Failed e)
  | Vis e k =>
      match handle e w with
      | (w', Some x) => run_sync (k x) w'
      | (w', None) => (w', Blocked p)
      end
  end.

(** The provider settles the call a blocked program waits for. *)
Definition resume {A} (p : Prog A) (o : Outcome) : option (Prog A) :=
  match p with
  | Vis e k =>
      match e in Eff X return (X -> Prog A) -> option (Prog A) with
      | GenerateContent _ => fun k => Some (k o)
      | _ => fun _ => None
      end k
  | _ => None
  end.

(** The page: the world and the handlers that wait for the provider. *)
Record Machine := mkMachine {
  world : World;
  pending : list (Prog unit)
}.

Definition initialMachine : Machine :=
  {| world := {| app := initialAppState; ticks := 0; console := []; wire := [] |};
     pending := [] |}.

(** Runs a handler until it ends or waits. *)
Definition launch (p : Prog unit) (w : World) (others : list (Prog unit)) : Machine :=
  match run_sync p w with
  | (w', Blocked p') => {| world := w'; pending := (others ++ [p'])%list |}
  | (w', _) => {| world := w'; pending := others |}
  end.

Fixpoint remove_nth {A} (i : nat) (l : list A) : list A :=
  match i, l with
  | _, [] => []
  | O, _ :: l' => l'
  | S i', x :: l' => x :: remove_nth i' l'
  end.

(** What can happen to the page: the user types, sends (Enter in the
    input box or the send button), toggles the engine, clicks the card of
    the [i]-th suggestion, or the provider settles the [i]-th pending
    call. *)
Inductive Event :=
| Typing (s : string)
| Send
| Toggle
| Select (i : nat)
| Settle (i : nat) (o : Outcome).

(** The input box is disabled while analyzing or executing. *)
Definition input_disabled (a : AppState) : bool :=
  isExecuting (engineState a) || isAnalyzing (engineState a).

(** The card of a suggestion exists when the engine panel is rendered and
    the suggestion is in the list; it is disabled while executing. *)
Definition card (a : AppState) (i : nat) : option Suggestion :=
  if engineActive a && negb (isExecuting (engineState a))
  then nth_error (currentSuggestions (engineState a)) i
  else None.

Definition step (m : Machine) (ev : Event) : option Machine :=
  let w := world m in
  let a := app w in
  match ev with
  | Typing s =>
      if input_disabled a then None
      else Some (launch (setInput s) w (pending m))
  | Send =>
      if input_disabled a then None
      else Some (launch (handleSendMessage a) w (pending m))
  | Toggle =>
      Some {| world := with_app (fun a => {| messages := messages a; input := input a;
                                             engineActive := negb (engineActive a);
                                             engineState := engineState a |}) w;
              pending := pending m |}
  | Select i =>
      match card a i with
      | Some suggestion => Some (launch (handleSuggestionClick a suggestion) w (pending m))
      | None => None
      end
  | Settle i o =>
      match chain (nth_error (pending m) i) (fun p => resume p o) with
      | Some p' => Some (launch p' w (remove_nth i (pending m)))
      | None => None
      end
  end.

Fixpoint steps (m : Machine) (evs : list Event) : option Machine :=
  match evs with
  | [] => Some m
  | ev :: evs' => chain (step m ev) (fun m' => steps m' evs')
  end.

(** Runs one program on its own against the provider's answers, taken
    in order: where it stands when it ends or when the answers run out. *)
Fixpoint run {A} (answers : list Outcome) (p : Prog A) (w : World)
  : World * Status A :=
  match run_sync p w with
  | (w', Blocked p') =>
      match answers with
      | o :: rest =>
          match resume p' o with
          | Some q => run rest q w'
          | None => (w', Blocked p')
          end
      | [] => (w', Blocked p')
      end
  | r => r
  end.

End App.

Arguments Done {A} a.
Arguments Failed {A} e.
Arguments Blocked {A} p.

Definition emptyWorld : World :=
  {| app := initialAppState; ticks := 0; console := []; wire := [] |}.

(* ===================================================================== *)
(** ** Notions used to state the properties                                *)
(* ===================================================================== *)

(** The request a program sends first, when the first thing it does is
    to call the provider. *)
Definition first_call {A} (p : Prog A) : option Request :=
  match p with
  | Vis e _ =>
      match e with
      | GenerateContent req => Some req
      | _ => None
      end
  | _ => None
  end.

(** [Serves Q T n p]: [p] touches nothing but the provider and the
    console, calls the provider at most [n] times whatever it answers,
    returns only values in [Q] and throws only errors in [T]. *)
Inductive Serves {A} (Q : A -> Prop) (T : JsError -> Prop) : nat -> Prog A -> Prop :=
| Serves_ret n a : Q a -> Serves Q T n (Ret a)
| Serves_throw n e : T e -> Serves Q T n (Throw e)
| Serves_call n req k :
    (forall o, Serves Q T n (k o)) -> Serves Q T (S n) (Vis (GenerateContent req) k)
| Serves_console n label e k :
    Serves Q T n (k tt) -> Serves Q T n (Vis (ConsoleError label e) k).

(** What the application relies on in a service: [executeSuggestion]
    starts with a provider call, makes at most [hops] of them and never
    throws; [analyzeContext] makes at most one. *)
Record WellBehaved (svc : GeminiService) (hops : nat) : Prop := {
  execute_serves : forall s h i,
    Serves (fun _ => True) (fun _ => False) hops (executeSuggestion s h i);
  execute_calls : forall s h i,
    exists req, first_call (executeSuggestion s h i) = Some req;
  analyze_serves : forall h i,
    Serves (fun _ => True) (fun _ => True) 1 (analyzeContext h i)
}.

(** A context in which a service call is placed ([try], [catch],
    [finally] and what follows the [await]) lets the effects of the call
    through. *)
Definition Transparent {A B} (C : Prog A -> Prog B) : Prop :=
  forall X (e : Eff X) (k : X -> Prog A), C (Vis e k) = Vis e (fun x => C (k x)).

Section Tasks.

Variable uuid_of : nat -> string.
Variable clock : nat -> Z.

(** [Task Step Final n q]: from any world, [q] runs without an uncaught
    error; when it ends the state has changed by [Final]; when it waits
    for the provider the state has changed by [Step], [n] is not
    exhausted, and what it becomes on any answer is a task again. *)
Fixpoint Task (Step Final : AppState -> AppState -> Prop) (n : nat) (q : Prog unit)
  : Prop :=
  forall w,
    match run_sync uuid_of clock q w with
    | (w', Done _) => Final (app w) (app w')
    | (w', Failed _) => False
    | (w', Blocked p) =>
        Step (app w) (app w') /\
        match n with
        | O => False
        | S n' => forall o, exists q', resume p o = Some q' /\ Task Step Final n' q'
        end
    end.

(** A program waiting for the provider that goes on as a task. *)
Definition Waiting (Step Final : AppState -> AppState -> Prop) (n : nat)
    (p : Prog unit) : Prop :=
  forall o, exists q, resume p o = Some q /\ Task Step Final n q.

End Tasks.

(** The flags and the suggestion list are kept, the conversation is not
    emptied. *)
Definition keeps (a a' : AppState) : Prop :=
  isAnalyzing (engineState a') = isAnalyzing (engineState a) /\
  isExecuting (engineState a') = isExecuting (engineState a) /\
  currentSuggestions (engineState a') = currentSuggestions (engineState a) /\
  (messages a <> [] -> messages a' <> []).

(** How an analysis ends. *)
Definition analysis_ends (a a' : AppState) : Prop :=
  isAnalyzing (engineState a') = false /\
  isExecuting (engineState a') = isExecuting (engineState a) /\
  (messages a <> [] -> messages a' <> []).

(** How an execution ends. *)
Definition execution_ends (a a' : AppState) : Prop :=
  isExecuting (engineState a') = false /\
  isAnalyzing (engineState a') = isAnalyzing (engineState a) /\
  currentSuggestions (engineState a') = currentSuggestions (engineState a) /\
  (messages a <> [] -> messages a' <> []).

(** The invariant of the page: nothing is pending and the engine is
    idle, or one analysis is pending, or one execution is. *)
Definition Inv (uuid_of : nat -> string) (clock : nat -> Z) (hops : nat)
    (m : Machine) : Prop :=
  let a := app (world m) in
  let es := engineState a in
  (currentSuggestions es <> [] -> messages a <> []) /\
  ((pending m = [] /\ isAnalyzing es = false /\ isExecuting es = false)
   \/ (exists p, pending m = [p] /\ isAnalyzing es = true /\ isExecuting es = false
                 /\ currentSuggestions es = [] /\ messages a <> []
                 /\ Waiting uuid_of clock keeps analysis_ends 0 p)
   \/ (exists p n, pending m = [p] /\ isAnalyzing es = false /\ isExecuting es = true
                   /\ n <= hops
                   /\ Waiting uuid_of clock keeps execution_ends n p)).

(** Whether the engine stays executing along a run: it is executing
    before each of the events. *)
Fixpoint executing_throughout {svc : GeminiService} (uuid_of : nat -> string)
    (clock : nat -> Z) (m : Machine) (evs : list Event) : bool :=
  match evs with
  | [] => true
  | ev :: evs' =>
      isExecuting (engineState (app (world m)))
      && match step uuid_of clock m ev with
         | Some m' => executing_throughout uuid_of clock m' evs'
         | None => true
         end
  end.

(** *** The routing table of the specification *)

Inductive ModelTier := fast | deepReasoning.

(** A row of the table: the tier, whether retrieval tools are enabled,
    whether there is a reasoning budget. *)
Record RouteRow := mkRouteRow {
  modelTier : option ModelTier;
  tools_enabled : bool;
  has_reasoningBudget : bool
}.

(** The table as the specification words it. *)
Definition route_table (type : SuggestionType) : RouteRow :=
  if includes ["Create"; "Challenge"; "Crystallize"] type
  then {| modelTier := Some deepReasoning; tools_enabled := false;
          has_reasoningBudget := true |}
  else if includes ["Expand"; "Connect"] type
  then {| modelTier := Some fast; tools_enabled := true;
          has_reasoningBudget := false |}
  else {| modelTier := Some fast; tools_enabled := false;
          has_reasoningBudget := false |}.

Definition tier_of (model : string) : option ModelTier :=
  if String.eqb model "gemini-2.5-flash" then Some fast
  else if String.eqb model "gemini-3-pro-preview" then Some deepReasoning
  else None.

(** The row a request stands for. *)
Definition row_of (req : Request) : RouteRow :=
  {| modelTier := tier_of (rq_model req);
     tools_enabled := match tools (rq_config req) with
                      | Some (_ :: _) => true
                      | _ => false
                      end;
     has_reasoningBudget := match thinkingConfig (rq_config req) with
                            | Some _ => true
                            | None => false
                            end |}.

(** *** Citations as the specification words them *)

(** The grounding chunks of a response, none when any link of
    [candidates?.[0]?.groundingMetadata?.groundingChunks] is missing. *)
Definition chunks_of (response : Response) : list GroundingChunk :=
  match chain (chain (chain (candidates response) (fun cs => nth_error cs 0))
                     groundingMetadata)
              groundingChunks with
  | Some cs => cs
  | None => []
  end.

(** A chunk has a uri when [web.uri] is a non-empty string; its title is
    missing when [web.title] is absent or empty. *)
Definition citation_of (chunk : GroundingChunk) : option SourceUrl :=
  match web chunk with
  | Some {| web_uri := Some u; web_title := t |} =>
      if truthy u then
        Some {| title := match t with
                         | Some x => if truthy x then x else "Source"
                         | None => "Source"
                         end;
                uri := u |}
      else None
  | _ => None
  end.

Fixpoint filter_map {A B} (f : A -> option B) (l : list A) : list B :=
  match l with
  | [] => []
  | x :: l' =>
      match f x with
      | Some y => y :: filter_map f l'
      | None => filter_map f l'
      end
  end.

Definition citations_spec (response : Response) : option (list SourceUrl) :=
  match filter_map citation_of (chunks_of response) with
  | [] => None
  | l => Some l
  end.

(* ===================================================================== *)
(** ** A reference host, for running the code on concrete inputs           *)
(* ===================================================================== *)

Module Reference.

Import JSON.

Definition as_string (v : json) : option string :=
  match v with JStr s => Some s | _ => None end.

Definition as_number (v : json) : option Number :=
  match v with JNum n => Some n | _ => None end.

Definition as_array (v : json) : option (list json) :=
  match v with JArr l => Some l | _ => None end.

Fixpoint traverse {A B} (f : A -> option B) (l : list A) : option (list B) :=
  match l with
  | [] => Some []
  | x :: l' =>
      match f x, traverse f l' with
      | Some y, Some ys => Some (y :: ys)
      | _, _ => None
      end
  end.

(** Reading a parsed value at the type [Suggestion]. *)
Definition read_suggestion (v : json) : option Suggestion :=
  match v with
  | JObj fs =>
      match chain (get "type" fs) as_string, chain (get "title" fs) as_string,
            chain (get "description" fs) as_string,
            chain (get "reasoning" fs) as_string,
            chain (get "confidence" fs) as_number with
      | Some ty, Some ti, Some d, Some r, Some c =>
          Some {| s_id := chain (get "id" fs) as_string; s_type := ty; s_title := ti;
                  description := d; reasoning := r; confidence := c |}
      | _, _, _, _, _ => None
      end
  | _ => None
  end.

(** Reading a parsed value at the type [AnalysisResult]. *)
Definition read_analysis (v : json) : option AnalysisResult :=
  match v with
  | JObj fs =>
      match chain (chain (get "patternsDetected" fs) as_array) (traverse as_string),
            chain (get "historyDepth" fs) as_string,
            chain (get "contextContinuity" fs) as_string,
            chain (chain (get "suggestions" fs) as_array) (traverse read_suggestion) with
      | Some ps, Some hd, Some cc, Some ss =>
          Some {| patternsDetected := ps; historyDepth := hd; contextContinuity := cc;
                  dialecticalOpportunity :=
                    chain (get "dialecticalOpportunity" fs) as_string;
                  suggestions := ss |}
      | _, _, _, _ => None
      end
  | _ => None
  end.

(** [JSON.parse(text) as AnalysisResult] on the reference parser.  Text
    that is not JSON is a [SyntaxError]; a value that cannot be read at
    the declared type lies outside the typed model and is refused too. *)
Definition JSON_parse (text : string) : JsError + AnalysisResult :=
  match chain (parse text) read_analysis with
  | Some a => inr a
  | None => inl (mkError "Unexpected token in JSON")
  end.

Definition uuid_of (n : nat) : string := "uuid-" ++ string_of_nat n.
Definition clock (n : nat) : Z := 1700000000000 + Z.of_nat n.

(** Payloads a provider may answer an analysis with. *)
Definition suggestion_json (type title : string) : json :=
  JObj [ ("type", JStr type); ("title", JStr title);
         ("description", JStr "d"); ("reasoning", JStr "r");
         ("confidence", JNum (mkNumber 9 (-1))) ].

Definition payload (depth : string) (ss : list json) : json :=
  JObj [ ("patternsDetected", JArr [JStr "Question"]);
         ("historyDepth", JStr depth);
         ("contextContinuity", JStr "Opens the conversation");
         ("suggestions", JArr ss) ].

(** Two suggestions of one type: the payload conforms to the schema. *)
Definition payload_twins : json :=
  payload "shallow" [suggestion_json "Expand" "A"; suggestion_json "Expand" "B"].

(** A depth outside the enumeration: the payload is JSON, has the
    declared shape and does not conform to the schema. *)
Definition payload_off_schema : json :=
  payload "abyssal" [suggestion_json "Expand" "A"].

Definition payload_five : json :=
  payload "shallow"
    [ suggestion_json "Clarify" "A"; suggestion_json "Expand" "B";
      suggestion_json "Create" "C"; suggestion_json "Connect" "D";
      suggestion_json "Challenge" "E" ].

Definition answer_text (t : string) : Outcome :=
  Resolves {| r_text := Some t; candidates := None |}.

Definition answer_json (v : json) : Outcome := answer_text (stringify v).

Definition answer_nothing : Outcome :=
  Resolves {| r_text := None; candidates := None |}.

(** A response whose first part is a call of the named function. *)
Definition answer_call (name : string) : Outcome :=
  Resolves
    {| r_text := None;
       candidates :=
         Some [ {| c_content :=
                     Some {| parts := Some [ {| functionCall :=
                                                  Some {| fc_name := Some name |} |} ] |};
                   groundingMetadata := None |} ] |}.

(** A response with grounding chunks. *)
Definition answer_grounded (t : string) (cs : list GroundingChunk) : Outcome :=
  Resolves
    {| r_text := Some t;
       candidates :=
         Some [ {| c_content := None;
                   groundingMetadata :=
                     Some {| groundingChunks := Some cs |} |} ] |}.

Definition failure : Outcome := Rejects (mkError "fetch failed").

Definition a_message (r : Role) (c : string) : Message :=
  {| m_id := "m"; role := r; content := c; timestamp := 0;
     m_type := None; metadata := None |}.

Definition a_suggestion (type : string) : Suggestion :=
  {| s_id := None; s_type := type; s_title := "T"; description := "D";
     reasoning := "R"; confidence := mkNumber 9 (-1) |}.

End Reference.

(** What a successful analysis promises according to the specification:
    five suggestions, of pairwise distinct types, each of the six. *)
Definition five_distinct (a : AnalysisResult) : Prop :=
  length (suggestions a) = 5 /\
  NoDup (map s_type (suggestions a)) /\
  Forall (fun s => In (s_type s) categories) (suggestions a).

(** The JSON value of a typed analysis result. *)
Definition suggestion_to_json (s : Suggestion) : JSON.json :=
  JSON.JObj
    (match s_id s with Some i => [("id", JSON.JStr i)] | None => [] end ++
     [ ("type", JSON.JStr (s_type s)); ("title", JSON.JStr (s_title s));
       ("description", JSON.JStr (description s));
       ("reasoning", JSON.JStr (reasoning s));
       ("confidence", JSON.JNum (confidence s)) ])%list.

Definition analysis_to_json (a : AnalysisResult) : JSON.json :=
  JSON.JObj
    ([ ("patternsDetected", JSON.JArr (map JSON.JStr (patternsDetected a)));
       ("historyDepth", JSON.JStr (historyDepth a));
       ("contextContinuity", JSON.JStr (contextContinuity a)) ] ++
     match dialecticalOpportunity a with
     | Some d => [("dialecticalOpportunity", JSON.JStr d)]
     | None => []
     end ++
     [ ("suggestions", JSON.JArr (map suggestion_to_json (suggestions a))) ])%list.

(** What [executeSuggestion] resolves to for each way the provider
    settles its calls, in the two revisions. *)
Definition Grounded_settles (suggestion : Suggestion) (o : Outcome) : ExecResult :=
  match o with
  | Rejects _ => error_result
  | Resolves response =>
      {| text := or_else (r_text response) "No response generated.";
         modelUsed := fst (Grounded.configure (s_type suggestion));
         sourceUrls := citations_spec response |}
  end.

Definition DriveTool_settles (suggestion : Suggestion) (o1 o2 : Outcome) : ExecResult :=
  let direct (response : Response) :=
    {| text := or_else (r_text response) "No response generated.";
       modelUsed := fst (DriveTool.configure (s_type suggestion));
       sourceUrls := None |} in
  match o1 with
  | Rejects _ => error_result
  | Resolves response =>
      match DriveTool.first_functionCall response with
      | Some fc =>
          if DriveTool.is_searchDrive fc then
            match o2 with
            | Rejects _ => error_result
            | Resolves followUp =>
                {| text := or_else (r_text followUp) "Error processing tool result.";
                   modelUsed := fst (DriveTool.configure (s_type suggestion));
                   sourceUrls := None |}
            end
          else direct response
      | None => direct response
      end
  end.

(** The follow-up request of the Drive revision. *)
Definition followUpRequest (suggestion : Suggestion) (history : list Message)
    (lastInput : string) : Request :=
  {| rq_model := fst (DriveTool.configure (s_type suggestion));
     rq_contents :=
       DriveTool.followUpPrompt (DriveTool.taskPrompt suggestion history lastInput);
     rq_config :=
       {| systemInstruction := None; responseMimeType := None;
          responseSchema := None; temperature := None; tools := None;
          thinkingConfig :=
            if DriveTool.isComplex (s_type suggestion)
            then Some (mkThinkingConfig 16000) else None |} |}.

(** Whether a response asks for the Drive search. *)
Definition asks_searchDrive (response : Response) : bool :=
  match DriveTool.first_functionCall response with
  | Some fc => DriveTool.is_searchDrive fc
  | None => false
  end.

(** The tool-hop property as the specification states it: whenever the
    first response carries a function call, exactly one more request is
    sent and its text is what is returned. *)
Definition tool_hop_as_stated (uuid_of : nat -> string) (clock : nat -> Z) : Prop :=
  forall suggestion history lastInput r1 o2 rest w,
    DriveTool.first_functionCall r1 <> None ->
    exists w' result followUp,
      run uuid_of clock (Resolves r1 :: o2 :: rest)
          (DriveTool.executeSuggestion suggestion history lastInput) w
      = (w', Done result)
      /\ length (wire w') = 2 + length (wire w)
      /\ o2 = Resolves followUp
      /\ r_text followUp = Some (text result).

(** The error an analysis ends with, if any: the provider's rejection,
    the missing text, or the parser's refusal. *)
Definition analysis_error (JSON_parse : string -> JsError + AnalysisResult)
    (o : Outcome) : option JsError :=
  match o with
  | Rejects e => Some e
  | Resolves response =>
      match r_text response with
      | Some t =>
          if truthy t then
            match JSON_parse t with
            | inl e => Some e
            | inr _ => None
            end
          else Some (mkError "No analysis generated")
      | None => Some (mkError "No analysis generated")
      end
  end.

(** The three failures of an analysis according to the specification:
    the provider is unreachable, the response is empty, or the payload
    does not conform to the schema. *)
Definition analysis_failure_as_stated (o : Outcome) : Prop :=
  match o with
  | Rejects _ => True
  | Resolves response =>
      match r_text response with
      | Some t =>
          truthy t = false \/
          match JSON.parse t with
          | Some v => conforms analysisSchema v = false
          | None => True
          end
      | None => True
      end
  end.

Definition is_warning (l : AnalysisLogEntry) : bool :=
  match l_type l with log_warning => true | _ => false end.

(** Two states that differ at most in the log. *)
Definition same_but_logs (a a' : AppState) : Prop :=
  messages a' = messages a /\ input a' = input a /\
  engineActive a' = engineActive a /\
  isActive (engineState a') = isActive (engineState a) /\
  isAnalyzing (engineState a') = isAnalyzing (engineState a) /\
  isExecuting (engineState a') = isExecuting (engineState a) /\
  currentSuggestions (engineState a') = currentSuggestions (engineState a).

(** The two revisions of the service. *)
Inductive Revision := grounded | driveTool.

Definition service_of (rev : Revision)
    (JSON_parse : string -> JsError + AnalysisResult) : GeminiService :=
  match rev with
  | grounded => Grounded.service JSON_parse
  | driveTool => DriveTool.service JSON_parse
  end.

(** How many provider calls an execution makes at most. *)
Definition hops_of (rev : Revision) : nat :=
  match rev with grounded => 1 | driveTool => 2 end.

(** The page of the reference host after some events. *)
Definition reference_page (rev : Revision) (evs : list Event) : Machine :=
  match steps (svc := service_of rev Reference.JSON_parse)
              Reference.uuid_of Reference.clock initialMachine evs with
  | Some m => m
  | None => initialMachine
  end.

(* ===================================================================== *)
(** ** The requests of the two revisions                                   *)
(* ===================================================================== *)

(** The request [analyzeContext] sends for a history and an input. *)
Definition analysisRequest (rev : Revision) (history : list Message)
    (lastInput : string) : Request :=
  {| rq_model := "gemini-2.5-flash";
     rq_contents :=
       "HISTORY:" ++ LF
       ++ join LF (map (fun m => role_toUpperCase (role m) ++ ": " ++ content m) history)
       ++ LF ++ LF ++ "NEW INPUT:" ++ LF ++ "USER: " ++ lastInput ++ LF ++ LF
       ++ "Analyze this context and generate suggestions.";
     rq_config :=
       {| systemInstruction :=
            Some match rev with
                 | grounded => Grounded.SYSTEM_INSTRUCTION_ANALYSIS
                 | driveTool => DriveTool.SYSTEM_INSTRUCTION_ANALYSIS
                 end;
          responseMimeType := Some "application/json";
          responseSchema := Some analysisSchema;
          temperature := Some (mkNumber 3 (-1));
          tools := None;
          thinkingConfig := None |} |}.

(** The first request [executeSuggestion] sends for a suggestion, a
    history and an input. *)
Definition executionRequest (rev : Revision) (suggestion : Suggestion)
    (history : list Message) (lastInput : string) : Request :=
  match rev with
  | grounded =>
      {| rq_model := fst (Grounded.configure (s_type suggestion));
         rq_contents := Grounded.taskPrompt suggestion history lastInput;
         rq_config := snd (Grounded.configure (s_type suggestion)) |}
  | driveTool =>
      {| rq_model := fst (DriveTool.configure (s_type suggestion));
         rq_contents := DriveTool.taskPrompt suggestion history lastInput;
         rq_config := snd (DriveTool.configure (s_type suggestion)) |}
  end.

(** What a log entry shows: its message and its kind. *)
Definition shown (l : AnalysisLogEntry) : string * LogKind := (message l, l_type l).

(* ===================================================================== *)
(** ** How the page changes over time                                      *)
(* ===================================================================== *)

(** The conversation and the log have grown at their ends: by messages
    whose role is not [system], and by entries other than the warning
    "Execution failed."; the [isActive] field of the engine state is as
    it was. *)
Definition grows (a a' : AppState) : Prop :=
  (exists ms, messages a' = (messages a ++ ms)%list
              /\ Forall (fun m => role m <> RoleSystem) ms)
  /\ (exists ls, logs (engineState a') = (logs (engineState a) ++ ls)%list
                 /\ Forall (fun l => message l <> "Execution failed.") ls)
  /\ isActive (engineState a') = isActive (engineState a).

(** The conversation, when there is one, starts with the user. *)
Definition opens_with_user (ms : list Message) : Prop :=
  match ms with
  | [] => True
  | m :: _ => role m = RoleUser
  end.

(** What holds of the handlers that wait on a page: each of them goes on
    growing the page and ends within [hops] answers; while one waits the
    conversation is not empty. *)
Definition Sound (uuid_of : nat -> string) (clock : nat -> Z) (hops : nat)
    (m : Machine) : Prop :=
  Forall (fun p => exists n, n < hops /\ Waiting uuid_of clock grows grows n p)
         (pending m)
  /\ (pending m <> [] -> messages (app (world m)) <> [])
  /\ opens_with_user (messages (app (world m))).

(* ===================================================================== *)
(** ** components/SuggestionCard.tsx and components/ChatArea.tsx           *)
(* ===================================================================== *)

(** The icons of @heroicons/react that the card uses. *)
Inductive Icon :=
| MagnifyingGlassIcon | BookOpenIcon | WrenchScrewdriverIcon
| LinkIcon | BoltIcon | SparklesIcon.

(** [getIcon]: a [switch] on the type without a default; a type that is
    none of the cases gives [undefined]. *)
Definition getIcon (type : SuggestionType) : option Icon :=
  if String.eqb type "Clarify" then Some MagnifyingGlassIcon
  else if String.eqb type "Expand" then Some BookOpenIcon
  else if String.eqb type "Create" then Some WrenchScrewdriverIcon
  else if String.eqb type "Connect" then Some LinkIcon
  else if String.eqb type "Challenge" then Some BoltIcon
  else if String.eqb type "Crystallize" then Some SparklesIcon
  else None.

(** [getColor], likewise. *)
Definition getColor (type : SuggestionType) : option string :=
  if String.eqb type "Clarify"
  then Some "text-blue-400 border-blue-900/50 hover:bg-blue-900/20"
  else if String.eqb type "Expand"
  then Some "text-green-400 border-green-900/50 hover:bg-green-900/20"
  else if String.eqb type "Create"
  then Some "text-amber-400 border-amber-900/50 hover:bg-amber-900/20"
  else if String.eqb type "Connect"
  then Some "text-purple-400 border-purple-900/50 hover:bg-purple-900/20"
  else if String.eqb type "Challenge"
  then Some "text-red-400 border-red-900/50 hover:bg-red-900/20"
  else if String.eqb type "Crystallize"
  then Some "text-cyan-400 border-cyan-900/50 hover:bg-cyan-900/20"
  else None.

(** What the chat area puts under the content of a message: nothing, or
    the line "Executed: <type>", with "Model: <model>" beside it when the
    metadata names a model.  The line is rendered when
    [msg.metadata?.suggestionType] is truthy. *)
Record Badge := mkBadge { executed : SuggestionType; model : option string }.

Definition badge (msg : Message) : option Badge :=
  match metadata msg with
  | Some md =>
      match suggestionType md with
      | Some type =>
          if truthy type then
            Some {| executed := type;
                    model := match md_modelUsed md with
                             | Some used => if truthy used then Some used else None
                             | None => None
                             end |}
          else None
      | None => None
      end
  | None => None
  end.

(* ===================================================================== *)
(** ** Facts about running programs                                        *)
(* ===================================================================== *)

Unset Implicit Arguments.

Lemma truthy_or_else o d : truthy d = true -> truthy (or_else o d) = true.
Proof.
  intros Hd. unfold or_else. destruct o as [t|]; [|exact Hd].
  destruct (truthy t) eqn:Ht; [exact Ht | exact Hd].
Qed.

Lemma truthy_nonempty s : truthy s = true -> s <> "".
Proof. destruct s; simpl; congruence. Qed.

Lemma or_else_nonempty o d : truthy d = true -> or_else o d <> "".
Proof. intros H. apply truthy_nonempty, truthy_or_else, H. Qed.

Section RunFacts.

Variable uuid_of : nat -> string.
Variable clock : nat -> Z.

Lemma run_eq A (answers : list Outcome) (p : Prog A) w :
  run uuid_of clock answers p w =
  match run_sync uuid_of clock p w with
  | (w', Blocked p') =>
      match answers with
      | o :: rest =>
          match resume p' o with
          | Some q => run uuid_of clock rest q w'
          | None => (w', Blocked p')
          end
      | [] => (w', Blocked p')
      end
  | r => r
  end.
Proof. destruct answers; reflexivity. Qed.

(** A program that serves without throwing never ends in an error. *)
Lemma serves_never_fails A (Q : A -> Prop) n (p : Prog A) :
  Serves Q (fun _ => False) n p ->
  forall answers w w' e, run uuid_of clock answers p w <> (w', Failed e).
Proof.
  induction 1 as [n a Ha | n e He | n req k Hk IH | n label e k Hk IH];
    intros answers w w' e'; rewrite run_eq; cbn.
  - discriminate.
  - contradiction.
  - destruct answers as [|o rest]; [discriminate | apply IH].
  - rewrite <- run_eq. apply IH.
Qed.

End RunFacts.

(** Evaluates the control flow of a program and leaves the texts alone. *)
Ltac crunch :=
  cbn -[Grounded.taskPrompt Grounded.configure DriveTool.taskPrompt
        DriveTool.configure DriveTool.followUpPrompt Grounded.extract_sources
        DriveTool.first_functionCall DriveTool.is_searchDrive DriveTool.isComplex
        or_else String.append join substring string_of_nat trim Nat.ltb].

(* ===================================================================== *)
(** ** The service                                                         *)
(* ===================================================================== *)

Lemma Grounded_execute_serves s h i :
  Serves (fun r => text r <> "") (fun _ => False) 1 (Grounded.executeSuggestion s h i).
Proof.
  unfold Grounded.executeSuggestion. crunch.
  apply Serves_call. intros [r | e]; crunch.
  - apply Serves_ret. crunch. now apply or_else_nonempty.
  - apply Serves_console, Serves_ret. discriminate.
Qed.

Lemma DriveTool_execute_serves s h i :
  Serves (fun r => text r <> "") (fun _ => False) 2 (DriveTool.executeSuggestion s h i).
Proof.
  unfold DriveTool.executeSuggestion. crunch.
  apply Serves_call. intros [r | e]; crunch.
  - destruct (DriveTool.first_functionCall r) as [fc|]; crunch.
    + destruct (DriveTool.is_searchDrive fc); crunch.
      * apply Serves_call. intros [r2 | e2]; crunch.
        -- apply Serves_ret. crunch. now apply or_else_nonempty.
        -- apply Serves_console, Serves_ret. discriminate.
      * apply Serves_ret. crunch. now apply or_else_nonempty.
    + apply Serves_ret. crunch. now apply or_else_nonempty.
  - apply Serves_console, Serves_ret. discriminate.
Qed.

Lemma analyzeContext_serves JSON_parse sys h i :
  Serves (fun _ => True) (fun _ => True) 1 (analyzeContext_with JSON_parse sys h i).
Proof.
  unfold analyzeContext_with. crunch.
  apply Serves_call. intros [r | e]; crunch.
  - destruct (r_text r) as [t|]; crunch.
    + destruct (truthy t); crunch.
      * destruct (JSON_parse t); crunch.
        -- apply Serves_console, Serves_throw. exact I.
        -- apply Serves_ret. exact I.
      * apply Serves_console, Serves_throw. exact I.
    + apply Serves_console, Serves_throw. exact I.
  - apply Serves_console, Serves_throw. exact I.
Qed.

(** The requests of the two revisions. *)
Lemma Grounded_first_call s h i :
  first_call (Grounded.executeSuggestion s h i) =
  Some {| rq_model := fst (Grounded.configure (s_type s));
          rq_contents := Grounded.taskPrompt s h i;
          rq_config := snd (Grounded.configure (s_type s)) |}.
Proof. reflexivity. Qed.

Lemma DriveTool_first_call s h i :
  first_call (DriveTool.executeSuggestion s h i) =
  Some {| rq_model := fst (DriveTool.configure (s_type s));
          rq_contents := DriveTool.taskPrompt s h i;
          rq_config := snd (DriveTool.configure (s_type s)) |}.
Proof. reflexivity. Qed.

Lemma needsSearch_includes type :
  DriveTool.needsSearch type = includes ["Expand"; "Connect"] type.
Proof.
  unfold DriveTool.needsSearch, includes. simpl. now rewrite orb_false_r.
Qed.

(** C2.  Routing is a function of the type alone and covers every string:
    in both revisions the first request of [executeSuggestion] carries the
    model and the configuration of [configure], and that is the row of the
    table: for Create, Challenge and Crystallize the deep-reasoning model
    with a thinking budget and no tools; for Expand and Connect the fast
    model with the retrieval tool and no budget; for Clarify and any other
    string the fast model with neither. *)
Theorem routing_total (suggestion : Suggestion) (history : list Message)
    (lastInput : string) :
  let type := s_type suggestion in
  let complex := includes ["Create"; "Challenge"; "Crystallize"] type in
  let search := includes ["Expand"; "Connect"] type in
  (exists req,
      first_call (Grounded.executeSuggestion suggestion history lastInput) = Some req
      /\ row_of req = route_table type
      /\ rq_model req = (if complex then "gemini-3-pro-preview" else "gemini-2.5-flash")
      /\ thinkingConfig (rq_config req)
         = (if complex then Some (mkThinkingConfig 32768) else None)
      /\ tools (rq_config req)
         = (if complex then None else if search then Some [googleSearch] else None))
  /\
  (exists req,
      first_call (DriveTool.executeSuggestion suggestion history lastInput) = Some req
      /\ row_of req = route_table type
      /\ rq_model req = (if complex then "gemini-3-pro-preview" else "gemini-2.5-flash")
      /\ thinkingConfig (rq_config req)
         = (if complex then Some (mkThinkingConfig 32768) else None)
      /\ tools (rq_config req)
         = (if complex then None
            else if search
                 then Some [functionDeclarations [DriveTool.searchDriveTool]]
                 else None))
  /\
  (route_table "Create" = mkRouteRow (Some deepReasoning) false true
   /\ route_table "Challenge" = mkRouteRow (Some deepReasoning) false true
   /\ route_table "Crystallize" = mkRouteRow (Some deepReasoning) false true
   /\ route_table "Expand" = mkRouteRow (Some fast) true false
   /\ route_table "Connect" = mkRouteRow (Some fast) true false
   /\ route_table "Clarify" = mkRouteRow (Some fast) false false
   /\ (if includes categories type then True
       else route_table type = mkRouteRow (Some fast) false false)).
Proof.
  intros type complex search. split; [|split].
  - eexists. split; [apply Grounded_first_call|].
    unfold row_of, route_table, Grounded.configure. fold type. fold complex. fold search.
    destruct complex; [|destruct search]; cbn; repeat split; reflexivity.
  - eexists. split; [apply DriveTool_first_call|].
    unfold row_of, route_table, DriveTool.configure, DriveTool.isComplex.
    rewrite needsSearch_includes. fold type. fold complex. fold search.
    destruct complex; [|destruct search]; cbn; repeat split; reflexivity.
  - repeat split; try reflexivity.
    unfold route_table, includes, categories. simpl.
    destruct (String.eqb type "Clarify"), (String.eqb type "Expand"),
      (String.eqb type "Create"), (String.eqb type "Connect"),
      (String.eqb type "Challenge"), (String.eqb type "Crystallize");
      simpl; exact I || reflexivity.
Qed.

(** The loop over the chunks collects the citations of the chunks, in
    order. *)
Lemma push_chunk_citation acc chunk :
  Grounded.push_chunk acc chunk =
  (acc ++ match citation_of chunk with Some c => [c] | None => [] end)%list.
Proof.
  unfold Grounded.push_chunk, citation_of.
  destruct (web chunk) as [[u t]|]; simpl; [|now rewrite app_nil_r].
  destruct u as [u|]; simpl; [|now rewrite app_nil_r].
  destruct (truthy u); [|now rewrite app_nil_r].
  unfold or_else. destruct t as [x|]; reflexivity.
Qed.

Lemma fold_push_chunk cs : forall acc,
  fold_left Grounded.push_chunk cs acc = (acc ++ filter_map citation_of cs)%list.
Proof.
  induction cs as [|chunk cs IH]; intros acc; simpl.
  - now rewrite app_nil_r.
  - rewrite IH, push_chunk_citation, <- app_assoc.
    destruct (citation_of chunk); reflexivity.
Qed.

Lemma extract_sources_spec response :
  Grounded.extract_sources response = filter_map citation_of (chunks_of response).
Proof.
  unfold Grounded.extract_sources, chunks_of.
  destruct (chain _ groundingChunks) as [cs|]; [|reflexivity].
  apply (fold_push_chunk cs []).
Qed.

Lemma sourceUrls_spec response :
  (if (0 <? length (Grounded.extract_sources response))%nat
   then Some (Grounded.extract_sources response) else None)
  = citations_spec response.
Proof.
  unfold citations_spec. rewrite extract_sources_spec.
  destruct (filter_map citation_of (chunks_of response)); reflexivity.
Qed.

Lemma filter_map_In {A B} (f : A -> option B) l y :
  In y (filter_map f l) <-> exists x, In x l /\ f x = Some y.
Proof.
  induction l as [|x l IH]; simpl.
  - split; [contradiction | intros (x & [] & _)].
  - destruct (f x) as [z|] eqn:Hx; simpl; rewrite IH; split.
    + intros [<- | (x' & Hin & Hf)]; eauto.
    + intros (x' & [<- | Hin] & Hf); [left; congruence | right; eauto].
    + intros (x' & Hin & Hf); eauto.
    + intros (x' & [<- | Hin] & Hf); [congruence | eauto].
Qed.

Lemma Grounded_run uuid_of clock s h i o rest w :
  exists w',
    run uuid_of clock (o :: rest) (Grounded.executeSuggestion s h i) w
    = (w', Done (Grounded_settles s o))
    /\ app w' = app w /\ ticks w' = ticks w
    /\ wire w' = (wire w ++ [ {| rq_model := fst (Grounded.configure (s_type s));
                                 rq_contents := Grounded.taskPrompt s h i;
                                 rq_config := snd (Grounded.configure (s_type s)) |} ])%list.
Proof.
  destruct o as [r | e]; eexists; (split; [|split; [|split]]);
    try (repeat (rewrite run_eq; crunch); rewrite ?sourceUrls_spec; reflexivity);
    reflexivity.
Qed.

(** C4.  Citations: when the provider answers, the [sourceUrls] of the
    result are the citations of the response's grounding chunks: a chunk
    with a (non-empty) uri gives the record of its title, or of the
    placeholder when the title is missing (absent or empty), and of its
    uri; a chunk without uri gives nothing; and an empty list of citations
    is reported as no citations, never as an empty list. *)
Theorem citation_extraction (uuid_of : nat -> string) (clock : nat -> Z)
    (suggestion : Suggestion) (history : list Message) (lastInput : string)
    (response : Response) (rest : list Outcome) (w : World) :
  exists w' result,
    run uuid_of clock (Resolves response :: rest)
        (Grounded.executeSuggestion suggestion history lastInput) w
    = (w', Done result)
    /\ sourceUrls result = citations_spec response
    /\ sourceUrls result <> Some []
    /\ (forall c, In c (match sourceUrls result with Some l => l | None => [] end)
                  <-> exists chunk, In chunk (chunks_of response)
                                    /\ citation_of chunk = Some c).
Proof.
  destruct (Grounded_run uuid_of clock suggestion history lastInput
              (Resolves response) rest w) as (w' & Hrun & _).
  exists w', (Grounded_settles suggestion (Resolves response)).
  split; [exact Hrun|]. simpl. split; [reflexivity|].
  unfold citations_spec.
  destruct (filter_map citation_of (chunks_of response)) as [|c0 l] eqn:Hl.
  - split; [discriminate|]. intros c. rewrite <- filter_map_In, Hl. reflexivity.
  - split; [discriminate|]. intros c. rewrite <- filter_map_In, Hl. reflexivity.
Qed.

Lemma DriveTool_run uuid_of clock s h i o1 o2 rest w :
  exists w',
    run uuid_of clock (o1 :: o2 :: rest) (DriveTool.executeSuggestion s h i) w
    = (w', Done (DriveTool_settles s o1 o2))
    /\ app w' = app w /\ ticks w' = ticks w
    /\ wire w' =
       (wire w ++
        {| rq_model := fst (DriveTool.configure (s_type s));
           rq_contents := DriveTool.taskPrompt s h i;
           rq_config := snd (DriveTool.configure (s_type s)) |}
        :: match o1 with
           | Resolves r1 => if asks_searchDrive r1 then [followUpRequest s h i] else []
           | Rejects _ => []
           end)%list.
Proof.
  unfold asks_searchDrive, DriveTool_settles.
  destruct o1 as [r1 | e1].
  - destruct (DriveTool.first_functionCall r1) as [fc|] eqn:Hfc.
    + destruct (DriveTool.is_searchDrive fc) eqn:Hsd.
      * destruct o2 as [r2 | e2]; eexists;
          (split; [repeat (rewrite run_eq; crunch; rewrite ?Hfc, ?Hsd; crunch);
                   reflexivity|]);
          crunch; rewrite <- ?app_assoc; repeat split.
      * eexists;
          (split; [repeat (rewrite run_eq; crunch; rewrite ?Hfc, ?Hsd; crunch);
                   reflexivity|]); crunch; repeat split.
    + eexists;
        (split; [repeat (rewrite run_eq; crunch; rewrite ?Hfc; crunch);
                 reflexivity|]); crunch; repeat split.
  - eexists; (split; [repeat (rewrite run_eq; crunch); reflexivity|]);
      crunch; repeat split.
Qed.

Lemma Grounded_settles_text s o : text (Grounded_settles s o) <> "".
Proof.
  destruct o; simpl; [now apply or_else_nonempty | discriminate].
Qed.

Lemma DriveTool_settles_text s o1 o2 : text (DriveTool_settles s o1 o2) <> "".
Proof.
  unfold DriveTool_settles. destruct o1 as [r1|]; [|discriminate].
  destruct (DriveTool.first_functionCall r1) as [fc|];
    [destruct (DriveTool.is_searchDrive fc); [destruct o2|]|];
    simpl; try discriminate; now apply or_else_nonempty.
Qed.

(** C3.  [executeSuggestion] never raises: in both revisions, however
    many answers the provider gives, the run never ends in an error; once
    the provider has settled the calls the run has returned a result,
    whose text is not empty and whose [modelUsed] is the routed model or
    ["error"]; a rejected call gives the fixed error text with
    [modelUsed = "error"]; an answer text that is absent or empty is
    replaced by a fixed fallback text ([or_else], the last part). *)
Theorem executeSuggestion_never_raises (uuid_of : nat -> string) (clock : nat -> Z)
    (suggestion : Suggestion) (history : list Message) (lastInput : string) :
  (forall answers w w' e,
      run uuid_of clock answers
          (Grounded.executeSuggestion suggestion history lastInput) w
      <> (w', Failed e))
  /\ (forall answers w w' e,
      run uuid_of clock answers
          (DriveTool.executeSuggestion suggestion history lastInput) w
      <> (w', Failed e))
  /\ (forall o rest w, exists w' result,
      run uuid_of clock (o :: rest)
          (Grounded.executeSuggestion suggestion history lastInput) w
      = (w', Done result)
      /\ text result <> ""
      /\ result =
         match o with
         | Rejects _ =>
             {| text := "Error executing suggestion. Please try again.";
                modelUsed := "error"; sourceUrls := None |}
         | Resolves response =>
             {| text := or_else (r_text response) "No response generated.";
                modelUsed := fst (Grounded.configure (s_type suggestion));
                sourceUrls := citations_spec response |}
         end)
  /\ (forall o1 o2 rest w, exists w' result,
      run uuid_of clock (o1 :: o2 :: rest)
          (DriveTool.executeSuggestion suggestion history lastInput) w
      = (w', Done result)
      /\ text result <> ""
      /\ result =
         match o1 with
         | Rejects _ =>
             {| text := "Error executing suggestion. Please try again.";
                modelUsed := "error"; sourceUrls := None |}
         | Resolves response =>
             if asks_searchDrive response then
               match o2 with
               | Rejects _ =>
                   {| text := "Error executing suggestion. Please try again.";
                      modelUsed := "error"; sourceUrls := None |}
               | Resolves followUp =>
                   {| text := or_else (r_text followUp)
                                      "Error processing tool result.";
                      modelUsed := fst (DriveTool.configure (s_type suggestion));
                      sourceUrls := None |}
               end
             else
               {| text := or_else (r_text response) "No response generated.";
                  modelUsed := fst (DriveTool.configure (s_type suggestion));
                  sourceUrls := None |}
         end)
  /\ (forall fallback,
        or_else None fallback = fallback
        /\ or_else (Some "") fallback = fallback
        /\ (forall c t, or_else (Some (String c t)) fallback = String c t)).
Proof.
  split; [|split; [|split; [|split]]]; [| | | |repeat split].
  - intros. eapply serves_never_fails, Grounded_execute_serves.
  - intros. eapply serves_never_fails, DriveTool_execute_serves.
  - intros o rest w.
    destruct (Grounded_run uuid_of clock suggestion history lastInput o rest w)
      as (w' & Hrun & _).
    exists w', (Grounded_settles suggestion o).
    split; [exact Hrun|]. split; [apply Grounded_settles_text|].
    destruct o; reflexivity.
  - intros o1 o2 rest w.
    destruct (DriveTool_run uuid_of clock suggestion history lastInput o1 o2 rest w)
      as (w' & Hrun & _).
    exists w', (DriveTool_settles suggestion o1 o2).
    split; [exact Hrun|]. split; [apply DriveTool_settles_text|].
    unfold DriveTool_settles, asks_searchDrive.
    destruct o1 as [r1|]; [|reflexivity].
    destruct (DriveTool.first_functionCall r1) as [fc|];
      [destruct (DriveTool.is_searchDrive fc); [destruct o2|]|];
      reflexivity.
Qed.

(** C5, as stated, fails.  A function call of another name gets no
    follow-up request; and when the follow-up of a Drive search has no
    text the caller gets a fixed fallback text, not the follow-up's. *)
Lemma tool_hop_counterexample :
  (exists w',
      run Reference.uuid_of Reference.clock
          [Reference.answer_call "lookupCalendar"; Reference.answer_text "late"]
          (DriveTool.executeSuggestion (Reference.a_suggestion "Expand") [] "hi")
          emptyWorld
      = (w', Done {| text := "No response generated.";
                     modelUsed := "gemini-2.5-flash"; sourceUrls := None |})
      /\ length (wire w') = 1)
  /\ (exists w',
      run Reference.uuid_of Reference.clock
          [Reference.answer_call "searchDrive"; Reference.answer_nothing]
          (DriveTool.executeSuggestion (Reference.a_suggestion "Expand") [] "hi")
          emptyWorld
      = (w', Done {| text := "Error processing tool result.";
                     modelUsed := "gemini-2.5-flash"; sourceUrls := None |})
      /\ length (wire w') = 2)
  /\ ~ tool_hop_as_stated Reference.uuid_of Reference.clock.
Proof.
  split; [|split].
  - eexists. split; [vm_compute; reflexivity | reflexivity].
  - eexists. split; [vm_compute; reflexivity | reflexivity].
  - intros H.
    destruct (H (Reference.a_suggestion "Expand") [] "hi"
                {| r_text := None;
                   candidates :=
                     Some [ {| c_content :=
                                 Some {| parts :=
                                   Some [ {| functionCall :=
                                     Some {| fc_name := Some "lookupCalendar" |} |} ] |};
                               groundingMetadata := None |} ] |}
                (Reference.answer_text "late") [] emptyWorld)
      as (w' & result & followUp & Hrun & Hlen & _).
    + discriminate.
    + vm_compute in Hrun. inversion Hrun; subst w'. discriminate Hlen.
Qed.

(** C5, amended.  When the first response carries a function call, a
    follow-up is made exactly when the call names [searchDrive]: then the
    requests sent are the first one and one follow-up, whose prompt is the
    task prompt with the stand-in search result appended and whose
    configuration has no tools; the result is the follow-up's text when it
    has one, a fixed fallback text when it has none, and the error result
    when the follow-up is rejected, whether or not the follow-up asks for
    a tool again.  A call of any other name is not followed up. *)
Theorem one_tool_hop (uuid_of : nat -> string) (clock : nat -> Z)
    (suggestion : Suggestion) (history : list Message) (lastInput : string)
    (r1 : Response) (fc : FunctionCall) (o2 : Outcome) (rest : list Outcome)
    (w : World) :
  DriveTool.first_functionCall r1 = Some fc ->
  let model := fst (DriveTool.configure (s_type suggestion)) in
  let first :=
    {| rq_model := model;
       rq_contents := DriveTool.taskPrompt suggestion history lastInput;
       rq_config := snd (DriveTool.configure (s_type suggestion)) |} in
  let followUp := followUpRequest suggestion history lastInput in
  exists w',
    run uuid_of clock (Resolves r1 :: o2 :: rest)
        (DriveTool.executeSuggestion suggestion history lastInput) w
    = (w', Done
             (if DriveTool.is_searchDrive fc then
                match o2 with
                | Resolves r2 =>
                    {| text := or_else (r_text r2) "Error processing tool result.";
                       modelUsed := model; sourceUrls := None |}
                | Rejects _ => error_result
                end
              else
                {| text := or_else (r_text r1) "No response generated.";
                   modelUsed := model; sourceUrls := None |}))
    /\ wire w' = (wire w ++ first :: (if DriveTool.is_searchDrive fc
                                      then [followUp] else []))%list
    /\ tools (rq_config followUp) = None
    /\ rq_model followUp = model
    /\ rq_contents followUp
       = DriveTool.taskPrompt suggestion history lastInput ++ LF ++ LF
         ++ "TOOL RESULT (searchDrive): Found files: "
         ++ JSON.stringify DriveTool.mockFiles
         ++ ". Incorporate this into your answer.".
Proof.
  intros Hfc model first followUp.
  destruct (DriveTool_run uuid_of clock suggestion history lastInput
              (Resolves r1) o2 rest w) as (w' & Hrun & _ & _ & Hwire).
  exists w'. unfold DriveTool_settles, asks_searchDrive in *.
  rewrite Hfc in *. split; [|split; [exact Hwire | repeat split]].
  rewrite Hrun. destruct (DriveTool.is_searchDrive fc); [destruct o2|]; reflexivity.
Qed.

(** An instance: the follow-up asks for the Drive search again and is
    not followed up. *)
Lemma one_tool_hop_witness :
  exists w',
    run Reference.uuid_of Reference.clock
        [Reference.answer_call "searchDrive"; Reference.answer_call "searchDrive"]
        (DriveTool.executeSuggestion (Reference.a_suggestion "Connect") [] "hi")
        emptyWorld
    = (w', Done {| text := "Error processing tool result.";
                   modelUsed := "gemini-2.5-flash"; sourceUrls := None |})
    /\ length (wire w') = 2.
Proof.
  destruct (one_tool_hop Reference.uuid_of Reference.clock
              (Reference.a_suggestion "Connect") [] "hi"
              {| r_text := None;
                 candidates :=
                   Some [ {| c_content :=
                               Some {| parts :=
                                 Some [ {| functionCall :=
                                   Some {| fc_name := Some "searchDrive" |} |} ] |};
                             groundingMetadata := None |} ] |}
              {| fc_name := Some "searchDrive" |}
              (Reference.answer_call "searchDrive") [] emptyWorld eq_refl)
    as (w' & Hrun & Hwire & _).
  exists w'. split; [exact Hrun | rewrite Hwire; reflexivity].
Defined.

(* ===================================================================== *)
(** ** The analyzer                                                        *)
(* ===================================================================== *)

Lemma includes_In l x : includes l x = true -> In x l.
Proof.
  unfold includes. rewrite existsb_exists.
  intros (y & Hin & Heq). apply String.eqb_eq in Heq. now subst.
Qed.

(** A typed result whose JSON value conforms to the schema has only
    suggestions of the six types. *)
Lemma conforms_types a :
  conforms analysisSchema (analysis_to_json a) = true ->
  Forall (fun s => In (s_type s) categories) (suggestions a).
Proof.
  unfold analysis_to_json, analysisSchema.
  assert (Hitem : forall s sch,
    sch = T_OBJECT
            [ ("type", T_STRING None (Some categories));
              ("title", T_STRING None None);
              ("description", T_STRING None None);
              ("reasoning", T_STRING None None);
              ("confidence", T_NUMBER) ]
            ["type"; "title"; "description"; "reasoning"; "confidence"] ->
    conforms sch (suggestion_to_json s) = true -> In (s_type s) categories).
  { intros s sch -> H. apply includes_In.
    unfold suggestion_to_json in H.
    destruct (s_id s); cbn in H; rewrite andb_true_r in H; exact H. }
  intros H.
  assert (Hall : forallb
            (conforms (T_OBJECT
               [ ("type", T_STRING None (Some categories));
                 ("title", T_STRING None None);
                 ("description", T_STRING None None);
                 ("reasoning", T_STRING None None);
                 ("confidence", T_NUMBER) ]
               ["type"; "title"; "description"; "reasoning"; "confidence"]))
            (map suggestion_to_json (suggestions a)) = true).
  { destruct (dialecticalOpportunity a); cbn -[forallb] in H;
      rewrite ?andb_true_r in H;
      repeat (apply andb_true_iff in H; destruct H as [_ H] || destruct H as [? H]);
      exact H. }
  rewrite forallb_forall in Hall. apply Forall_forall. intros s Hs.
  eapply Hitem; [reflexivity|]. apply Hall, in_map, Hs.
Qed.

Lemma analyzeContext_run JSON_parse sys uuid_of clock h i o rest w :
  exists w',
    run uuid_of clock (o :: rest) (analyzeContext_with JSON_parse sys h i) w
    = (w', match analysis_error JSON_parse o with
           | Some e => Failed e
           | None =>
               match o with
               | Resolves {| r_text := Some t |} =>
                   match JSON_parse t with
                   | inr a => Done a
                   | inl e => Failed e
                   end
               | _ => Failed (mkError "")
               end
           end)
    /\ app w' = app w /\ ticks w' = ticks w /\ length (wire w') = S (length (wire w)).
Proof.
  unfold analysis_error.
  destruct o as [[[t|] cs] | e]; [destruct (truthy t) eqn:Ht;
                                    [destruct (JSON_parse t) eqn:Hp|]| |];
    eexists; (split; [repeat (rewrite run_eq; crunch; rewrite ?Ht, ?Hp; crunch);
                      reflexivity|]);
    crunch; rewrite ?length_app; simpl; repeat split; lia.
Qed.

(** C1, as stated, fails.  The provider answers with a payload of two
    suggestions of one type; the payload conforms to the response schema,
    the analysis succeeds, and its result has neither five suggestions nor
    distinct types. *)
Lemma analysis_twins_counterexample :
  exists w' a,
    run Reference.uuid_of Reference.clock
        [Reference.answer_json Reference.payload_twins]
        (Grounded.analyzeContext Reference.JSON_parse [] "Explain quicksort")
        emptyWorld
    = (w', Done a)
    /\ conforms analysisSchema Reference.payload_twins = true
    /\ map s_type (suggestions a) = ["Expand"; "Expand"]
    /\ ~ five_distinct a.
Proof.
  eexists. eexists. split; [vm_compute; reflexivity|].
  split; [reflexivity|]. split; [reflexivity|].
  intros [Hlen _]. discriminate Hlen.
Qed.

(** C1, amended.  A successful analysis returns the provider's payload as
    it is: the response had a non-empty text, the result is what the
    parser made of it, and nothing is checked.  When the payload conforms
    to the response schema every suggestion has one of the six types; how
    many there are and whether their types differ is up to the provider.
    ([analyzeContext] of either revision is [analyzeContext_with] at its
    system instruction.) *)
Theorem analysis_returns_payload
    (JSON_parse : string -> JsError + AnalysisResult)
    (SYSTEM_INSTRUCTION_ANALYSIS : string)
    (uuid_of : nat -> string) (clock : nat -> Z)
    (history : list Message) (lastInput : string)
    (o : Outcome) (rest : list Outcome) (w w' : World) (a : AnalysisResult) :
  run uuid_of clock (o :: rest)
      (analyzeContext_with JSON_parse SYSTEM_INSTRUCTION_ANALYSIS history lastInput) w
  = (w', Done a) ->
  exists response t,
    o = Resolves response
    /\ r_text response = Some t
    /\ t <> ""
    /\ JSON_parse t = inr a
    /\ (conforms analysisSchema (analysis_to_json a) = true ->
        Forall (fun s => In (s_type s) categories) (suggestions a)).
Proof.
  intros Hrun.
  destruct (analyzeContext_run JSON_parse SYSTEM_INSTRUCTION_ANALYSIS
              uuid_of clock history lastInput o rest w) as (w1 & Hrun1 & _).
  rewrite Hrun in Hrun1. unfold analysis_error in Hrun1.
  destruct o as [[[t|] cs] | e]; simpl in Hrun1; try discriminate.
  destruct (truthy t) eqn:Ht; try discriminate.
  destruct (JSON_parse t) as [e | a'] eqn:Hp; try discriminate.
  inversion Hrun1; subst.
  eexists. exists t. split; [reflexivity|]. split; [reflexivity|].
  split; [now apply truthy_nonempty|]. split; [exact Hp|].
  apply conforms_types.
Qed.

(** An instance: a payload of five suggestions of distinct types. *)
Lemma analysis_returns_payload_witness :
  exists a response t,
    Reference.answer_json Reference.payload_five = Resolves response
    /\ r_text response = Some t
    /\ Reference.JSON_parse t = inr a
    /\ map s_type (suggestions a)
       = ["Clarify"; "Expand"; "Create"; "Connect"; "Challenge"].
Proof.
  eexists.
  edestruct (analysis_returns_payload Reference.JSON_parse
               Grounded.SYSTEM_INSTRUCTION_ANALYSIS
               Reference.uuid_of Reference.clock [] "Explain quicksort"
               (Reference.answer_json Reference.payload_five) [] emptyWorld)
    as (response & t & Ho & Ht & _ & Hp & _).
  - vm_compute. reflexivity.
  - exists response, t. split; [exact Ho|]. split; [exact Ht|]. split; [exact Hp|].
    reflexivity.
Defined.

(* ===================================================================== *)
(** ** Tasks: handlers that wait for the provider                          *)
(* ===================================================================== *)

Lemma Serves_weaken {A} (Q Q' : A -> Prop) (T T' : JsError -> Prop) n (p : Prog A) :
  (forall a, Q a -> Q' a) -> (forall e, T e -> T' e) ->
  Serves Q T n p -> Serves Q' T' n p.
Proof.
  intros HQ HT. induction 1.
  - apply Serves_ret; auto.
  - apply Serves_throw; auto.
  - apply Serves_call; auto.
  - apply Serves_console; auto.
Qed.

Lemma Grounded_WellBehaved JSON_parse : WellBehaved (Grounded.service JSON_parse) 1.
Proof.
  split; simpl.
  - intros s h i. eapply Serves_weaken; [| |apply Grounded_execute_serves]; auto.
  - intros s h i. eexists. apply Grounded_first_call.
  - intros h i. apply analyzeContext_serves.
Qed.

Lemma DriveTool_WellBehaved JSON_parse : WellBehaved (DriveTool.service JSON_parse) 2.
Proof.
  split; simpl.
  - intros s h i. eapply Serves_weaken; [| |apply DriveTool_execute_serves]; auto.
  - intros s h i. eexists. apply DriveTool_first_call.
  - intros h i. apply analyzeContext_serves.
Qed.

Section TaskFacts.

Variable uuid_of : nat -> string.
Variable clock : nat -> Z.
Variables Step Final : AppState -> AppState -> Prop.
Hypothesis Step_refl : forall a, Step a a.

Lemma Task_eq n q :
  Task uuid_of clock Step Final n q =
  forall w,
    match run_sync uuid_of clock q w with
    | (w', Done _) => Final (app w) (app w')
    | (w', Failed _) => False
    | (w', Blocked p) =>
        Step (app w) (app w') /\
        match n with
        | O => False
        | S n' => Waiting uuid_of clock Step Final n' p
        end
    end.
Proof. destruct n; reflexivity. Qed.

Lemma Task_S n : forall q,
  Task uuid_of clock Step Final n q -> Task uuid_of clock Step Final (S n) q.
Proof.
  induction n as [|n IH]; intros q H w; specialize (H w);
    destruct (run_sync uuid_of clock q w) as [w' [u | e | p]]; auto.
  - destruct H as [_ []].
  - destruct H as [Hs Hk]. split; [exact Hs|].
    intros o. destruct (Hk o) as (q' & Hr & Ht). exists q'. split; auto.
Qed.

Lemma Task_le n m q :
  n <= m -> Task uuid_of clock Step Final n q -> Task uuid_of clock Step Final m q.
Proof. induction 1; auto using Task_S. Qed.

(** A service call placed in a transparent context is a task as soon as
    what the context does with each result and each error is one. *)
Lemma Task_in_context {A} (C : Prog A -> Prog unit) (Q : A -> Prop)
    (T : JsError -> Prop) n (p : Prog A) :
  Transparent C ->
  Serves Q T n p ->
  (forall a, Q a -> Task uuid_of clock Step Final 0 (C (Ret a))) ->
  (forall e, T e -> Task uuid_of clock Step Final 0 (C (Throw e))) ->
  Task uuid_of clock Step Final n (C p).
Proof.
  intros HC Hp Hret Hthrow.
  induction Hp as [n a Ha | n e He | n req k Hk IH | n label e k Hk IH].
  - eapply Task_le; [|apply Hret, Ha]. lia.
  - eapply Task_le; [|apply Hthrow, He]. lia.
  - rewrite HC. intros w. cbn. split; [apply Step_refl|].
    intros o. eexists. split; [reflexivity | apply IH].
  - rewrite HC, Task_eq. intros w. cbn. rewrite Task_eq in IH.
    exact (IH {| app := app w; ticks := ticks w;
                 console := (console w ++ [(label, e)])%list; wire := wire w |}).
Qed.

End TaskFacts.

(* ===================================================================== *)
(** ** The handlers, one segment at a time                                 *)
(* ===================================================================== *)

Lemma first_call_Vis {A} (p : Prog A) req :
  first_call p = Some req -> exists k, p = Vis (GenerateContent req) k.
Proof.
  destruct p as [a | e | X e k]; simpl; try discriminate.
  destruct e; try discriminate. intros H. inversion H; subst. now exists k.
Qed.

(** Runs the effects at the head of a program. *)
Tactic Notation "step_through" :=
  cbn -[String.append substring string_of_nat last_elem slice_0_m1 trim].
Tactic Notation "step_through" "in" hyp(H) :=
  cbn -[String.append substring string_of_nat last_elem slice_0_m1 trim] in H.

Section Handlers.

Context {svc : GeminiService}.
Variable uuid_of : nat -> string.
Variable clock : nat -> Z.
Variable hops : nat.
Hypothesis svc_ok : WellBehaved svc hops.

Lemma keeps_refl a : keeps a a.
Proof. repeat split; auto. Qed.

(** Logging the patterns changes nothing but the log. *)
Lemma run_sync_patterns (msg : string -> string) (kind : LogKind)
    (g : unit -> Prog unit) (h : JsError -> Prog unit) ps : forall w,
  exists w1,
    run_sync uuid_of clock
      (try_catch (pbind (forEach ps (fun p => addLog (msg p) kind)) g) h) w
    = run_sync uuid_of clock (try_catch (g tt) h) w1
    /\ same_but_logs (app w) (app w1) /\ wire w1 = wire w.
Proof.
  induction ps as [|p ps IH]; intros w.
  - exists w. repeat split.
  - step_through.
    match goal with
    | |- exists w1, run_sync _ _ _ ?w2 = _ /\ _ =>
        destruct (IH w2) as (w1 & Heq & Hsame & Hwire)
    end.
    exists w1. split; [exact Heq|]. split; [|exact Hwire].
    unfold same_but_logs in *. cbn in Hsame. intuition congruence.
Qed.

(** What [processWithEngine] does until it ends or waits. *)
Lemma processWithEngine_segment a m w :
  match run_sync uuid_of clock (processWithEngine a m) w with
  | (w', Done _) =>
      isAnalyzing (engineState (app w')) = false
      /\ isExecuting (engineState (app w')) = isExecuting (engineState (app w))
      /\ (messages (app w) <> [] -> messages (app w') <> [])
  | (w', Failed _) => False
  | (w', Blocked p) =>
      isAnalyzing (engineState (app w')) = true
      /\ isExecuting (engineState (app w')) = isExecuting (engineState (app w))
      /\ currentSuggestions (engineState (app w')) = []
      /\ (messages (app w) <> [] -> messages (app w') <> [])
      /\ Waiting uuid_of clock keeps analysis_ends 0 p
  end.
Proof.
  unfold processWithEngine. step_through.
  match goal with
  | |- context [run_sync _ _ (try_catch (pbind ?p ?post) ?h) ?w1] =>
      assert (HT : Task uuid_of clock keeps analysis_ends 1
                     ((fun q => try_catch (pbind q post) h) p));
        [ apply (Task_in_context uuid_of clock keeps analysis_ends keeps_refl
                   (fun q => try_catch (pbind q post) h)
                   (fun _ => True) (fun _ => True) 1 p)
        | rewrite Task_eq in HT; specialize (HT w1); cbv beta in HT;
          destruct (run_sync uuid_of clock (try_catch (pbind p post) h) w1)
            as [w' [u | e | q]] ]
  end.
  - intros X e k. reflexivity.
  - apply (analyze_serves svc_ok).
  - intros analysis _. rewrite Task_eq. intros w0. cbv beta.
    change (pbind (Ret analysis) ?f) with (f analysis). cbv beta.
    destruct (run_sync_patterns (fun p => "Pattern: " ++ p) log_pattern
                (fun _ => addLog ("History Depth: " ++ historyDepth analysis) log_info ;;
                          addLog ("Continuity: "
                                  ++ substring 0 50 (contextContinuity analysis)
                                  ++ "...") log_info ;;
                          setEngineState (fun prev =>
                            set_currentSuggestions (suggestions analysis)
                              (set_isAnalyzing false prev)) ;;
                          addLog ("Generated "
                                  ++ string_of_nat (length (suggestions analysis))
                                  ++ " potential growth paths.") log_success)%monad
                (fun error =>
                   addLog ("Analysis failed: " ++ err_message error) log_warning ;;
                   setEngineState (fun prev => set_isAnalyzing false prev))%monad
                (patternsDetected analysis) w0)
      as (w1 & Heq & Hsame & _).
    step_through in Heq. step_through. rewrite Heq. 
    unfold same_but_logs, analysis_ends in *. step_through.
    intuition congruence.
  - intros e _. rewrite Task_eq. intros w0. step_through.
    unfold analysis_ends. step_through. repeat split; auto.
  - destruct HT as (Ha & Hex & Hm). step_through in Hex. step_through in Hm.
    repeat split; auto.
  - exact HT.
  - destruct HT as [(Ha & He & Hs & Hm) HW].
    step_through in Ha. step_through in He. step_through in Hs. step_through in Hm.
    repeat split; auto.
Qed.

Lemma last_elem_None {A} (l : list A) : last_elem l = None -> l = [].
Proof.
  destruct l as [|x l]; [reflexivity|]. unfold last_elem. intros H.
  apply nth_error_None in H. simpl in H. lia.
Qed.

(** What [handleSuggestionClick] does until it ends or waits: it waits
    for the provider, executing and with an empty suggestion list, unless
    there is no message to answer. *)
Lemma handleSuggestionClick_segment a s w :
  match run_sync uuid_of clock (handleSuggestionClick a s) w with
  | (w', Done _) =>
      messages a = []
      /\ isExecuting (engineState (app w')) = false
      /\ isAnalyzing (engineState (app w')) = isAnalyzing (engineState (app w))
      /\ currentSuggestions (engineState (app w')) = []
      /\ messages (app w') = messages (app w)
  | (w', Failed _) => False
  | (w', Blocked p) =>
      isExecuting (engineState (app w')) = true
      /\ isAnalyzing (engineState (app w')) = isAnalyzing (engineState (app w))
      /\ currentSuggestions (engineState (app w')) = []
      /\ messages (app w') = messages (app w)
      /\ length (wire w') = S (length (wire w))
      /\ exists n, n <= hops /\ Waiting uuid_of clock keeps execution_ends n p
  end.
Proof.
  unfold handleSuggestionClick. step_through.
  destruct (last_elem (messages a)) as [m0|] eqn:Hlast.
  - change (pbind (Ret ?x) ?f) with (f x). cbv beta.
    match goal with
    | |- context [run_sync _ _ (try_finally (try_catch (pbind ?p ?post) ?h) ?fin) ?w1] =>
        assert (HT : Task uuid_of clock keeps execution_ends hops
                       ((fun q => try_finally (try_catch (pbind q post) h) fin) p));
          [ apply (Task_in_context uuid_of clock keeps execution_ends keeps_refl
                     (fun q => try_finally (try_catch (pbind q post) h) fin)
                     (fun _ => True) (fun _ => False) hops p)
          | rewrite Task_eq in HT; specialize (HT w1); cbv beta in HT;
            destruct (execute_calls svc_ok s (slice_0_m1 (messages a)) (content m0))
              as [req Hreq];
            apply first_call_Vis in Hreq; destruct Hreq as [k Hk];
            rewrite Hk in HT |- * ]
    end.
    + intros X e k. reflexivity.
    + apply (execute_serves svc_ok).
    + intros r _. rewrite Task_eq. intros w0. step_through.
      unfold execution_ends. step_through. repeat split; auto.
      intros H. now destruct (messages (app w0)).
    + intros e [].
    + step_through in HT. step_through.
      destruct HT as [_ HW]. repeat split; auto.
      * rewrite length_app. simpl. lia.
      * destruct hops as [|n]; [contradiction|]. exists n. split; [lia | exact HW].
  - step_through. repeat split; auto. now apply last_elem_None.
Qed.

Tactic Notation "step_through_send" :=
  cbn -[String.append substring string_of_nat last_elem slice_0_m1 trim
        processWithEngine].

(** What [handleSendMessage] does until it ends or waits. *)
Lemma handleSendMessage_segment a w :
  match run_sync uuid_of clock (handleSendMessage a) w with
  | (w', Done _) =>
      w' = w
      \/ (isAnalyzing (engineState (app w')) = false
          /\ isExecuting (engineState (app w')) = isExecuting (engineState (app w))
          /\ messages (app w') <> [])
  | (w', Failed _) => False
  | (w', Blocked p) =>
      messages (app w') <> []
      /\ ((engineActive a = true
           /\ isAnalyzing (engineState (app w')) = true
           /\ isExecuting (engineState (app w')) = isExecuting (engineState (app w))
           /\ currentSuggestions (engineState (app w')) = []
           /\ Waiting uuid_of clock keeps analysis_ends 0 p)
          \/ (engineActive a = false
              /\ isExecuting (engineState (app w')) = true
              /\ isAnalyzing (engineState (app w'))
                 = isAnalyzing (engineState (app w))
              /\ currentSuggestions (engineState (app w'))
                 = currentSuggestions (engineState (app w))
              /\ exists n, n <= hops
                           /\ Waiting uuid_of clock keeps execution_ends n p))
  end.
Proof.
  unfold handleSendMessage.
  destruct (negb (truthy (trim (input a))) || isExecuting (engineState a)).
  - step_through. now left.
  - destruct (engineActive a) eqn:Hactive; step_through_send.
    + match goal with
      | |- context [run_sync _ _ (processWithEngine a ?m) ?w1] =>
          pose proof (processWithEngine_segment a m w1) as H;
            destruct (run_sync uuid_of clock (processWithEngine a m) w1)
              as [w' [u | e | q]]
      end.
      * destruct H as (Ha & He & Hm). step_through in He. step_through in Hm.
        right. repeat split; auto. apply Hm. now destruct (messages (app w)).
      * exact H.
      * destruct H as (Ha & He & Hs & Hm & HW). step_through in He.
        step_through in Hm.
        split; [apply Hm; now destruct (messages (app w))|].
        left. repeat split; auto.
    + match goal with
      | |- context [run_sync _ _ (try_finally (pbind ?p ?post) ?fin) ?w1] =>
          assert (HT : Task uuid_of clock keeps execution_ends hops
                         ((fun q => try_finally (pbind q post) fin) p));
            [ apply (Task_in_context uuid_of clock keeps execution_ends keeps_refl
                       (fun q => try_finally (pbind q post) fin)
                       (fun _ => True) (fun _ => False) hops p)
            | rewrite Task_eq in HT; specialize (HT w1); cbv beta in HT;
              destruct (execute_calls svc_ok standardReply (messages a) (input a))
                as [req Hreq];
              apply first_call_Vis in Hreq; destruct Hreq as [k Hk];
              rewrite Hk in HT |- * ]
      end.
      * intros X e k. reflexivity.
      * apply (execute_serves svc_ok).
      * intros r _. rewrite Task_eq. intros w0. step_through.
        unfold execution_ends. step_through. repeat split; auto.
        intros H. now destruct (messages (app w0)).
      * intros e [].
      * step_through in HT. step_through.
        destruct HT as [_ HW]. split; [now destruct (messages (app w))|].
        right. repeat split; auto.
        destruct hops as [|n]; [contradiction|]. exists n. split; [lia | exact HW].
Qed.

(** *** The invariant of the page *)

Lemma Inv_initial : Inv uuid_of clock hops initialMachine.
Proof.
  split; [intros H; now elim H|]. left. repeat split.
Qed.

Lemma idle_pending m :
  Inv uuid_of clock hops m ->
  input_disabled (app (world m)) = false ->
  pending m = [].
Proof.
  unfold input_disabled. intros [_ [(Hp & _) | [(p & _ & Ha & _) | (p & n & _ & _ & He & _)]]] H.
  - exact Hp.
  - rewrite Ha, orb_true_r in H. discriminate.
  - rewrite He in H. discriminate.
Qed.

Ltac close_inv :=
  cbn [world app pending] in *; repeat split; auto; try congruence; try lia.

Lemma Inv_step m ev m' :
  Inv uuid_of clock hops m -> step uuid_of clock m ev = Some m' ->
  Inv uuid_of clock hops m'.
Proof.
  intros HI Hstep. destruct m as [w pend]. unfold step in Hstep.
  cbn [world pending] in Hstep.
  destruct ev as [s | | | i | i o].
  - (* typing *)
    destruct (input_disabled (app w)) eqn:Hdis; [discriminate|].
    pose proof (idle_pending _ HI Hdis) as Hp. cbn in Hp. subst pend.
    inversion Hstep; subst m'. clear Hstep.
    apply orb_false_iff in Hdis. destruct Hdis as [He Ha].
    destruct HI as [Hm _]. cbn in *. split; [exact Hm|]. left. close_inv.
  - (* send *)
    destruct (input_disabled (app w)) eqn:Hdis; [discriminate|].
    pose proof (idle_pending _ HI Hdis) as Hp. cbn in Hp. subst pend.
    inversion Hstep; subst m'. clear Hstep.
    apply orb_false_iff in Hdis. destruct Hdis as [He Ha].
    destruct HI as [Hm _]. cbn [world app] in Hm.
    unfold launch. pose proof (handleSendMessage_segment (app w) w) as H.
    destruct (run_sync uuid_of clock (handleSendMessage (app w)) w)
      as [w' [u | e | q]].
    + destruct H as [-> | (Ha' & He' & Hm')].
      * split; [exact Hm|]. left. close_inv.
      * split; [intros _; exact Hm'|]. left. close_inv.
    + contradiction.
    + destruct H as [Hm' [(_ & Ha' & He' & Hs' & HW) | (_ & He' & Ha' & Hs' & n & Hn & HW)]].
      * split; [intros _; exact Hm'|]. right. left. exists q.
        close_inv.
      * split; [intros _; exact Hm'|]. right. right. exists q, n.
        close_inv.
  - (* toggle *)
    inversion Hstep; subst m'. clear Hstep.
    destruct HI as [Hm HI]. split; [exact Hm|]. exact HI.
  - (* select *)
    unfold card in Hstep.
    destruct (engineActive (app w) && negb (isExecuting (engineState (app w))))
      eqn:Hcard; [|discriminate].
    destruct (nth_error (currentSuggestions (engineState (app w))) i)
      as [sg|] eqn:Hnth; [|discriminate].
    inversion Hstep; subst m'. clear Hstep.
    apply andb_true_iff in Hcard. destruct Hcard as [_ He].
    apply negb_true_iff in He.
    assert (Hs : currentSuggestions (engineState (app w)) <> []).
    { intros Hnil. rewrite Hnil in Hnth. destruct i; discriminate. }
    destruct HI as [Hm HI]. cbn [world app pending] in *.
    specialize (Hm Hs).
    assert (Hidle : pend = [] /\ isAnalyzing (engineState (app w)) = false).
    { destruct HI as [(Hp & Ha & _) | [(p & _ & _ & _ & Hnil & _)
                                      | (p & n & _ & _ & He' & _)]];
        [auto | contradiction | congruence]. }
    destruct Hidle as [-> Ha].
    unfold launch. pose proof (handleSuggestionClick_segment (app w) sg w) as H.
    destruct (run_sync uuid_of clock (handleSuggestionClick (app w) sg) w)
      as [w' [u | e | q]].
    + destruct H as [Hnil _]. contradiction.
    + contradiction.
    + destruct H as (He' & Ha' & Hs' & Hm' & _ & n & Hn & HW).
      split; [cbn; rewrite Hs'; intros Hx; now elim Hx|].
      right. right. exists q, n. close_inv.
  - (* the provider settles a call *)
    destruct HI as [Hm HI]. cbn [world app pending] in *.
    destruct HI as [(-> & _) | [(p & -> & Ha & He & Hs & Hne & HW)
                               | (p & n & -> & Ha & He & Hn & HW)]].
    + destruct i; discriminate.
    + destruct i as [|i]; [|destruct i; discriminate].
      cbn in Hstep. destruct (HW o) as (q & Hr & HT). rewrite Hr in Hstep.
      inversion Hstep; subst m'. clear Hstep.
      rewrite Task_eq in HT. specialize (HT w). unfold launch.
      destruct (run_sync uuid_of clock q w) as [w' [u | e | q']].
      * destruct HT as (Ha' & He' & Hm').
        split; [intros _; cbn; auto|]. left. close_inv.
      * contradiction.
      * destruct HT as [_ []].
    + destruct i as [|i]; [|destruct i; discriminate].
      cbn in Hstep. destruct (HW o) as (q & Hr & HT). rewrite Hr in Hstep.
      inversion Hstep; subst m'. clear Hstep.
      rewrite Task_eq in HT. specialize (HT w). unfold launch.
      destruct (run_sync uuid_of clock q w) as [w' [u | e | q']].
      * destruct HT as (He' & Ha' & Hs' & Hm').
        split; [cbn; rewrite Hs'; auto|]. left. close_inv.
      * contradiction.
      * destruct HT as [(Ha' & He' & Hs' & Hm') HW'].
        split; [cbn; rewrite Hs'; auto|].
        destruct n as [|n']; [contradiction|].
        right. right. exists q', n'. close_inv.
Qed.

Lemma Inv_steps evs : forall m m',
  Inv uuid_of clock hops m -> steps uuid_of clock m evs = Some m' ->
  Inv uuid_of clock hops m'.
Proof.
  induction evs as [|ev evs IH]; intros m m' HI Hsteps; simpl in Hsteps.
  - inversion Hsteps. now subst.
  - destruct (step uuid_of clock m ev) as [m1|] eqn:Hstep; [|discriminate].
    simpl in Hsteps. eapply IH; [|exact Hsteps]. eapply Inv_step; eauto.
Qed.

(** The flags are never both set. *)
Lemma Inv_flags m :
  Inv uuid_of clock hops m ->
  isAnalyzing (engineState (app (world m)))
  && isExecuting (engineState (app (world m))) = false.
Proof.
  intros [_ [(_ & Ha & He) | [(p & _ & Ha & He & _) | (p & n & _ & Ha & He & _)]]];
    rewrite Ha, He; reflexivity.
Qed.

(** While an execution is pending no event changes the suggestion list. *)
Lemma executing_step_suggestions m ev m' :
  Inv uuid_of clock hops m ->
  isExecuting (engineState (app (world m))) = true ->
  step uuid_of clock m ev = Some m' ->
  currentSuggestions (engineState (app (world m')))
  = currentSuggestions (engineState (app (world m))).
Proof.
  intros HI He Hstep. destruct m as [w pend]. unfold step in Hstep.
  cbn [world pending app] in *.
  destruct ev as [s | | | i | i o].
  - unfold input_disabled in Hstep. rewrite He in Hstep. discriminate.
  - unfold input_disabled in Hstep. rewrite He in Hstep. discriminate.
  - inversion Hstep. reflexivity.
  - unfold card in Hstep. rewrite He, andb_false_r in Hstep. discriminate.
  - destruct HI as [_ [(_ & _ & He') | [(p & _ & _ & He' & _)
                                       | (p & n & Hp & _ & _ & _ & HW)]]];
      cbn [world pending app] in *; try congruence.
    subst pend. destruct i as [|i]; [|destruct i; discriminate].
    cbn in Hstep. destruct (HW o) as (q & Hr & HT). rewrite Hr in Hstep.
    inversion Hstep; subst m'. clear Hstep.
    rewrite Task_eq in HT. specialize (HT w). unfold launch.
    destruct (run_sync uuid_of clock q w) as [w' [u | e | q']]; cbn [world app].
    + destruct HT as (_ & _ & Hs & _). exact Hs.
    + contradiction.
    + destruct HT as [(_ & _ & Hs & _) _]. exact Hs.
Qed.

(** From a state that is executing with an empty suggestion list, the
    list stays empty for as long as the engine stays executing. *)
Lemma executing_stays_empty evs : forall m m',
  Inv uuid_of clock hops m ->
  currentSuggestions (engineState (app (world m))) = [] ->
  steps uuid_of clock m evs = Some m' ->
  executing_throughout uuid_of clock m evs = true ->
  currentSuggestions (engineState (app (world m'))) = [].
Proof.
  induction evs as [|ev evs IH]; intros m m' HI Hs Hsteps Hex; simpl in *.
  - inversion Hsteps. now subst.
  - apply andb_true_iff in Hex. destruct Hex as [He Hex].
    destruct (step uuid_of clock m ev) as [m1|] eqn:Hstep; [|discriminate].
    simpl in Hsteps. apply (IH m1 m'); auto.
    + eapply Inv_step; eauto.
    + rewrite (executing_step_suggestions m ev m1); auto.
Qed.

(** What a click on a card does to a page that satisfies the invariant. *)
Lemma select_step m i m' :
  Inv uuid_of clock hops m ->
  step uuid_of clock m (Select i) = Some m' ->
  currentSuggestions (engineState (app (world m'))) = []
  /\ isExecuting (engineState (app (world m'))) = true
  /\ length (pending m') = 1
  /\ length (wire (world m')) = S (length (wire (world m))).
Proof.
  intros HI Hstep. destruct m as [w pend]. unfold step in Hstep.
  cbn [world pending app] in *. unfold card in Hstep.
  destruct (engineActive (app w) && negb (isExecuting (engineState (app w))))
    eqn:Hcard; [|discriminate].
  destruct (nth_error (currentSuggestions (engineState (app w))) i)
    as [sg|] eqn:Hnth; [|discriminate].
  inversion Hstep; subst m'. clear Hstep.
  apply andb_true_iff in Hcard. destruct Hcard as [_ He].
  apply negb_true_iff in He.
  assert (Hs : currentSuggestions (engineState (app w)) <> []).
  { intros Hnil. rewrite Hnil in Hnth. destruct i; discriminate. }
  destruct HI as [Hm HI]. cbn [world app pending] in *.
  specialize (Hm Hs).
  assert (Hidle : pend = []).
  { destruct HI as [(Hp & Ha & _) | [(p & _ & _ & _ & Hnil & _)
                                    | (p & n & _ & _ & He' & _)]];
      [auto | contradiction | congruence]. }
  subst pend.
  unfold launch. pose proof (handleSuggestionClick_segment (app w) sg w) as H.
  destruct (run_sync uuid_of clock (handleSuggestionClick (app w) sg) w)
    as [w' [u | e | q]].
  - destruct H as [Hnil _]. contradiction.
  - contradiction.
  - destruct H as (He' & Ha' & Hs' & Hm' & Hw & _). cbn. auto.
Qed.

End Handlers.

(* ===================================================================== *)
(** ** The engine state machine                                            *)
(* ===================================================================== *)

Lemma service_of_WellBehaved rev JSON_parse :
  WellBehaved (service_of rev JSON_parse) (hops_of rev).
Proof.
  destruct rev; [apply Grounded_WellBehaved | apply DriveTool_WellBehaved].
Qed.

(** C8.  In every state the page can reach, with either revision of the
    service, [isAnalyzing] and [isExecuting] are not both set; the status
    shown is IDLE exactly when both are unset, and then no handler is
    waiting for the provider. *)
Theorem flags_exclusive (rev : Revision)
    (JSON_parse : string -> JsError + AnalysisResult)
    (uuid_of : nat -> string) (clock : nat -> Z)
    (evs : list Event) (m : Machine) :
  steps (svc := service_of rev JSON_parse) uuid_of clock initialMachine evs = Some m ->
  let es := engineState (app (world m)) in
  isAnalyzing es && isExecuting es = false
  /\ (STATUS es = "IDLE" <-> isAnalyzing es = false /\ isExecuting es = false)
  /\ (isAnalyzing es = false /\ isExecuting es = false -> pending m = []).
Proof.
  intros Hsteps es. subst es.
  assert (HI : Inv uuid_of clock (hops_of rev) m).
  { eapply (Inv_steps (svc := service_of rev JSON_parse));
      [apply service_of_WellBehaved | apply Inv_initial | exact Hsteps]. }
  split; [exact (Inv_flags uuid_of clock _ m HI)|]. split.
  - unfold STATUS.
    destruct (isExecuting (engineState (app (world m)))),
      (isAnalyzing (engineState (app (world m))));
      split; (discriminate || intuition discriminate || auto).
  - intros [Ha He].
    destruct HI as [_ [(Hp & _) | [(p & _ & Ha' & _) | (p & n & _ & _ & He' & _)]]];
      [exact Hp | | ]; congruence.
Qed.

(** An instance: a message is sent, analyzed, and a suggestion chosen. *)
Lemma flags_exclusive_witness :
  let m := reference_page grounded
             [Typing "Explain quicksort"; Send;
              Settle 0 (Reference.answer_json Reference.payload_five); Select 1] in
  isAnalyzing (engineState (app (world m))) = false
  /\ isExecuting (engineState (app (world m))) = true.
Proof.
  assert (H := flags_exclusive grounded Reference.JSON_parse
                 Reference.uuid_of Reference.clock
                 [Typing "Explain quicksort"; Send;
                  Settle 0 (Reference.answer_json Reference.payload_five); Select 1]
                 (reference_page grounded
                    [Typing "Explain quicksort"; Send;
                     Settle 0 (Reference.answer_json Reference.payload_five);
                     Select 1])
                 ltac:(vm_compute; reflexivity)).
  destruct H as (Hx & _).
  split; [|vm_compute; reflexivity].
  destruct (isAnalyzing _); [|reflexivity].
  vm_compute in Hx. discriminate Hx.
Defined.

(** C6.  Selecting a suggestion: the first thing [handleSuggestionClick]
    does is to empty [currentSuggestions] and to set [isExecuting]; in
    every reachable state, with either revision of the service, after the
    click the list is empty, the engine is executing and the request of
    the executor is on the wire with the handler waiting for it; no card
    can be clicked then; and for as long as the engine stays executing the
    list stays empty and no card can be clicked. *)
Theorem selection_clears_suggestions (rev : Revision)
    (JSON_parse : string -> JsError + AnalysisResult)
    (uuid_of : nat -> string) (clock : nat -> Z)
    (evs : list Event) (m : Machine) (i : nat) (m' : Machine) :
  steps (svc := service_of rev JSON_parse) uuid_of clock initialMachine evs = Some m ->
  step (svc := service_of rev JSON_parse) uuid_of clock m (Select i) = Some m' ->
  (forall a suggestion, exists k,
      handleSuggestionClick (svc := service_of rev JSON_parse) a suggestion
      = Vis (SetEngineState
               (fun prev => set_currentSuggestions [] (set_isExecuting true prev))) k)
  /\ currentSuggestions (engineState (app (world m'))) = []
  /\ isExecuting (engineState (app (world m'))) = true
  /\ length (pending m') = 1
  /\ length (wire (world m')) = S (length (wire (world m)))
  /\ (forall j, step (svc := service_of rev JSON_parse) uuid_of clock m' (Select j)
                = None)
  /\ (forall evs' m'',
        steps (svc := service_of rev JSON_parse) uuid_of clock m' evs' = Some m'' ->
        executing_throughout (svc := service_of rev JSON_parse)
                             uuid_of clock m' evs' = true ->
        currentSuggestions (engineState (app (world m''))) = []
        /\ forall j, step (svc := service_of rev JSON_parse) uuid_of clock m''
                          (Select j) = None).
Proof.
  intros Hsteps Hstep.
  assert (Hok := service_of_WellBehaved rev JSON_parse).
  assert (HI : Inv uuid_of clock (hops_of rev) m).
  { eapply (Inv_steps (svc := service_of rev JSON_parse));
      [exact Hok | apply Inv_initial | exact Hsteps]. }
  assert (HI' : Inv uuid_of clock (hops_of rev) m').
  { eapply (Inv_step (svc := service_of rev JSON_parse)); eauto. }
  destruct (select_step (svc := service_of rev JSON_parse)
              uuid_of clock (hops_of rev) Hok m i m' HI Hstep)
    as (Hs & He & Hp & Hw).
  assert (Hnone : forall m0, currentSuggestions (engineState (app (world m0))) = [] ->
            forall j, step (svc := service_of rev JSON_parse) uuid_of clock m0
                           (Select j) = None).
  { intros m0 H0 j. unfold step, card. rewrite H0.
    destruct (_ && _); [destruct j|]; reflexivity. }
  split; [intros a sg; eexists; reflexivity|].
  repeat split; auto.
  - eapply (executing_stays_empty (svc := service_of rev JSON_parse)); eauto.
  - apply Hnone.
    eapply (executing_stays_empty (svc := service_of rev JSON_parse)); eauto.
Qed.

(** An instance: after the click of the second card the provider has not
    answered yet, and the list is empty. *)
Lemma selection_clears_suggestions_witness :
  let before := reference_page driveTool
                  [Typing "Explain quicksort"; Send;
                   Settle 0 (Reference.answer_json Reference.payload_five)] in
  let after := reference_page driveTool
                  [Typing "Explain quicksort"; Send;
                   Settle 0 (Reference.answer_json Reference.payload_five);
                   Select 1] in
  length (currentSuggestions (engineState (app (world before)))) = 5
  /\ currentSuggestions (engineState (app (world after))) = []
  /\ isExecuting (engineState (app (world after))) = true.
Proof.
  intros before after.
  destruct (selection_clears_suggestions driveTool Reference.JSON_parse
              Reference.uuid_of Reference.clock
              [Typing "Explain quicksort"; Send;
               Settle 0 (Reference.answer_json Reference.payload_five)]
              before 1 after
              ltac:(vm_compute; reflexivity) ltac:(vm_compute; reflexivity))
    as (_ & Hs & He & _).
  split; [vm_compute; reflexivity|]. split; [exact Hs | exact He].
Defined.

(* ===================================================================== *)
(** ** Handlers run to their end                                           *)
(* ===================================================================== *)

Section RunInContext.

Variable uuid_of : nat -> string.
Variable clock : nat -> Z.

(** Running a service call inside a transparent context: the call runs
    as it does on its own, and the context goes on with its result or its
    error. *)
Lemma run_in_context {A B} (C : Prog A -> Prog B) (Q : A -> Prop)
    (T : JsError -> Prop) n (p : Prog A) :
  Transparent C ->
  Serves Q T n p ->
  forall answers w, n <= length answers ->
  exists w1 rest,
    (exists a, Q a /\ run uuid_of clock answers p w = (w1, Done a)
               /\ run uuid_of clock answers (C p) w
                  = run uuid_of clock rest (C (Ret a)) w1)
    \/ (exists e, T e /\ run uuid_of clock answers p w = (w1, Failed e)
                  /\ run uuid_of clock answers (C p) w
                     = run uuid_of clock rest (C (Throw e)) w1).
Proof.
  intros HC Hp.
  induction Hp as [n a Ha | n e He | n req k Hk IH | n label e k Hk IH];
    intros answers w Hlen.
  - exists w, answers. left. exists a. repeat split; auto.
    rewrite run_eq. reflexivity.
  - exists w, answers. right. exists e. repeat split; auto.
    rewrite run_eq. reflexivity.
  - destruct answers as [|o answers]; [simpl in Hlen; lia|].
    rewrite HC. cbn.
    apply IH. simpl in Hlen. lia.
  - rewrite HC. rewrite (run_eq _ _ _ answers (Vis (ConsoleError label e) k)).
    rewrite (run_eq _ _ _ answers (Vis (ConsoleError label e) (fun x => C (k x)))).
    cbn. rewrite <- !run_eq. apply IH. exact Hlen.
Qed.

(** An effect that does not wait is passed at once. *)
Lemma run_step {A X} (e : Eff X) (k : X -> Prog A) answers w w' x :
  handle uuid_of clock e w = (w', Some x) ->
  run uuid_of clock answers (Vis e k) w = run uuid_of clock answers (k x) w'.
Proof.
  intros H. rewrite (run_eq _ _ _ answers (Vis e k)). simpl. rewrite H.
  rewrite <- run_eq. reflexivity.
Qed.

End RunInContext.

(** Passes the effects at the head of a program that is run. *)
Ltac run_effects :=
  cbn -[run String.append substring string_of_nat last_elem slice_0_m1 trim];
  repeat (erewrite run_step; [|reflexivity];
          cbn -[run String.append substring string_of_nat last_elem slice_0_m1 trim]).

(** The executor runs the same in both revisions as far as the caller is
    concerned: it returns, leaves the state alone and sends requests that
    are not analysis requests. *)
Lemma executeSuggestion_run rev JSON_parse uuid_of clock s h i o1 o2 rest w :
  exists w1 result,
    run uuid_of clock (o1 :: o2 :: rest)
        (@executeSuggestion (service_of rev JSON_parse) s h i) w
    = (w1, Done result)
    /\ app w1 = app w /\ ticks w1 = ticks w
    /\ exists sent, wire w1 = (wire w ++ sent)%list
                    /\ Forall (fun req => responseSchema (rq_config req) = None
                                          /\ systemInstruction (rq_config req) = None)
                              sent.
Proof.
  destruct rev; simpl.
  - destruct (Grounded_run uuid_of clock s h i o1 (o2 :: rest) w)
      as (w1 & Hrun & Ha & Ht & Hw).
    exists w1, (Grounded_settles s o1). repeat split; auto.
    eexists. split; [exact Hw|]. repeat constructor.
    + unfold Grounded.configure.
      destruct (includes _ _); [|destruct (includes _ _)]; reflexivity.
    + unfold Grounded.configure.
      destruct (includes _ _); [|destruct (includes _ _)]; reflexivity.
  - destruct (DriveTool_run uuid_of clock s h i o1 o2 rest w)
      as (w1 & Hrun & Ha & Ht & Hw).
    exists w1, (DriveTool_settles s o1 o2). repeat split; auto.
    eexists. split; [exact Hw|].
    assert (Hfirst : forall ty,
              responseSchema (snd (DriveTool.configure ty)) = None
              /\ systemInstruction (snd (DriveTool.configure ty)) = None).
    { intros ty. unfold DriveTool.configure.
      destruct (DriveTool.isComplex ty); [|destruct (DriveTool.needsSearch ty)];
        split; reflexivity. }
    constructor; [apply Hfirst|].
    destruct o1 as [r1|]; [destruct (asks_searchDrive r1)|]; repeat constructor.
Qed.

(** A message sent while the engine is off, run to its end: the handler
    adds the user's message, calls the executor with the standard reply,
    adds the model's message and unsets [isExecuting]. *)
Lemma engine_off_run rev JSON_parse uuid_of clock w o1 o2 rest :
  let a := app w in
  engineActive a = false ->
  truthy (trim (input a)) = true ->
  isExecuting (engineState a) = false ->
  let svc := service_of rev JSON_parse in
  exists w' w0 w1 result,
    run uuid_of clock (o1 :: o2 :: rest) (handleSendMessage (svc := svc) a) w
    = (w', Done tt)
    /\ run uuid_of clock (o1 :: o2 :: rest)
           (@executeSuggestion svc standardReply (messages a) (input a)) w0
       = (w1, Done result)
    /\ wire w0 = wire w
    /\ wire w' = wire w1
    /\ messages (app w')
       = (messages a ++
          [ {| m_id := uuid_of (ticks w); role := RoleUser; content := input a;
               timestamp := clock (S (ticks w)); m_type := None; metadata := None |};
            {| m_id := uuid_of (S (S (ticks w))); role := RoleModel;
               content := text result; timestamp := clock (S (S (S (ticks w))));
               m_type := None;
               metadata := Some {| suggestionType := None; executionTime := None;
                                   md_modelUsed := Some (modelUsed result);
                                   md_sourceUrls := sourceUrls result |} |} ])%list
    /\ isExecuting (engineState (app w')) = false.
Proof.
  intros a Hoff Hinput Hexec svc.
  unfold handleSendMessage. rewrite Hinput, Hexec, Hoff. cbn [negb orb].
  run_effects.
  match goal with
  | |- context [run _ _ _ (try_finally (pbind ?p ?post) ?fin) ?w1] =>
      destruct (run_in_context uuid_of clock
                  (fun q => try_finally (pbind q post) fin)
                  (fun _ => True) (fun _ => False) (hops_of rev) p
                  ltac:(intros X e k; reflexivity)
                  (execute_serves (service_of_WellBehaved rev JSON_parse)
                                  standardReply (messages a) (input a))
                  (o1 :: o2 :: rest) w1
                  ltac:(destruct rev; simpl; lia))
        as (w2 & rest' & [(r & _ & Hp & HC) | (e & [] & _)]);
      destruct (executeSuggestion_run rev JSON_parse uuid_of clock
                  standardReply (messages a) (input a) o1 o2 rest w1)
        as (w2' & result & Hrun & Happ & Hticks & _);
      exists (fst (run uuid_of clock rest' (try_finally (pbind (Ret r) post) fin) w2)),
             w1, w2, r
  end.
  fold svc in Hp. fold svc in Hrun. rewrite Hrun in Hp.
  inversion Hp; subst w2' r. clear Hp.
  cbv beta in HC. fold svc. rewrite HC. run_effects. rewrite run_eq. step_through.
  split; [reflexivity|]. split; [exact Hrun|].
  rewrite Happ, Hticks. step_through.
  repeat split; auto.
  rewrite <- app_assoc. reflexivity.
Qed.

(** C9.  A message sent while the engine is off: the handler calls the
    executor with the fixed standard-reply suggestion, the conversation
    as it was and the message; once the provider has settled, the
    conversation has grown by the user's message and by exactly one model
    message, which carries the executor's text; no request sent is an
    analysis request, and the handler is the same program whatever the
    analyzer of the service is. *)
Theorem engine_off_reply (rev : Revision)
    (JSON_parse : string -> JsError + AnalysisResult)
    (uuid_of : nat -> string) (clock : nat -> Z)
    (w : World) (o1 o2 : Outcome) (rest : list Outcome) :
  let a := app w in
  engineActive a = false ->
  truthy (trim (input a)) = true ->
  isExecuting (engineState a) = false ->
  let svc := service_of rev JSON_parse in
  let userMsg :=
    {| m_id := uuid_of (ticks w); role := RoleUser; content := input a;
       timestamp := clock (S (ticks w)); m_type := None; metadata := None |} in
  exists w' w0 w1 result sent,
    run uuid_of clock (o1 :: o2 :: rest) (handleSendMessage (svc := svc) a) w
    = (w', Done tt)
    /\ run uuid_of clock (o1 :: o2 :: rest)
           (@executeSuggestion svc standardReply (messages a) (input a)) w0
       = (w1, Done result)
    /\ messages (app w')
       = (messages a ++
          [ userMsg;
            {| m_id := uuid_of (S (S (ticks w))); role := RoleModel;
               content := text result; timestamp := clock (S (S (S (ticks w))));
               m_type := None;
               metadata := Some {| suggestionType := None; executionTime := None;
                                   md_modelUsed := Some (modelUsed result);
                                   md_sourceUrls := sourceUrls result |} |} ])%list
    /\ isExecuting (engineState (app w')) = false
    /\ wire w' = (wire w ++ sent)%list
    /\ Forall (fun req => responseSchema (rq_config req) = None
                          /\ systemInstruction (rq_config req) = None) sent
    /\ (forall analyze,
          handleSendMessage
            (svc := Build_GeminiService analyze (@executeSuggestion svc)) a
          = handleSendMessage (svc := svc) a).
Proof.
  intros a Hoff Hinput Hexec svc userMsg.
  assert (Hshape : forall analyze,
            handleSendMessage
              (svc := Build_GeminiService analyze (@executeSuggestion svc)) a
            = handleSendMessage (svc := svc) a).
  { intros analyze. unfold handleSendMessage. rewrite Hoff. reflexivity. }
  destruct (engine_off_run rev JSON_parse uuid_of clock w o1 o2 rest Hoff Hinput Hexec)
    as (w' & w0 & w1 & result & Hrun & Hexe & Hw0 & Hw' & Hmsgs & Hflag).
  destruct (executeSuggestion_run rev JSON_parse uuid_of clock
              standardReply (messages a) (input a) o1 o2 rest w0)
    as (w1' & result' & Hexe' & _ & _ & sent & Hwire & Hsent).
  pose proof (eq_trans (eq_sym Hexe) Hexe') as E. inversion E; subst w1' result'.
  exists w', w0, w1, result, sent.
  repeat split; auto. congruence.
Qed.

(** An instance: the engine is switched off and "hi" is sent. *)
Lemma engine_off_reply_witness :
  let w := world (reference_page grounded [Toggle; Typing "hi"]) in
  exists w',
    run Reference.uuid_of Reference.clock
        [Reference.answer_text "hello"; Reference.failure]
        (handleSendMessage (svc := service_of grounded Reference.JSON_parse) (app w)) w
    = (w', Done tt)
    /\ map (fun m => (role m, content m)) (messages (app w'))
       = [(RoleUser, "hi"); (RoleModel, "hello")].
Proof.
  intros w.
  destruct (engine_off_reply grounded Reference.JSON_parse
              Reference.uuid_of Reference.clock w
              (Reference.answer_text "hello") Reference.failure []
              eq_refl eq_refl eq_refl)
    as (w' & w0 & w1 & result & sent & Hrun & Hexec & Hmsgs & _).
  exists w'. split; [exact Hrun|].
  rewrite Hmsgs. vm_compute in Hexec. inversion Hexec. reflexivity.
Defined.

(** C10.  The standard reply has type Expand: a message sent while the
    engine is off goes to the provider on the fast model, with the
    retrieval tool of the revision and without thinking budget; in the
    revision with the Drive tool, an answer that asks for the Drive
    search makes the handler send the follow-up request. *)
Theorem standard_reply_routing (rev : Revision)
    (JSON_parse : string -> JsError + AnalysisResult)
    (uuid_of : nat -> string) (clock : nat -> Z) (w : World) :
  let a := app w in
  engineActive a = false ->
  truthy (trim (input a)) = true ->
  isExecuting (engineState a) = false ->
  let svc := service_of rev JSON_parse in
  s_type standardReply = "Expand"
  /\ (exists w' p req,
        run_sync uuid_of clock (handleSendMessage (svc := svc) a) w = (w', Blocked p)
        /\ wire w' = (wire w ++ [req])%list
        /\ first_call (@executeSuggestion svc standardReply (messages a) (input a))
           = Some req
        /\ rq_model req = "gemini-2.5-flash"
        /\ thinkingConfig (rq_config req) = None
        /\ tools (rq_config req)
           = Some [match rev with
                   | grounded => googleSearch
                   | driveTool => functionDeclarations [DriveTool.searchDriveTool]
                   end]
        /\ row_of req = route_table "Expand"
        /\ row_of req = mkRouteRow (Some fast) true false)
  /\ (forall r1 o2 rest,
        asks_searchDrive r1 = true ->
        exists w'',
          run uuid_of clock (Resolves r1 :: o2 :: rest)
              (handleSendMessage (svc := service_of driveTool JSON_parse) a) w
          = (w'', Done tt)
          /\ wire w''
             = (wire w ++
                [ {| rq_model := "gemini-2.5-flash";
                     rq_contents :=
                       DriveTool.taskPrompt standardReply (messages a) (input a);
                     rq_config := snd (DriveTool.configure "Expand") |};
                  followUpRequest standardReply (messages a) (input a) ])%list).
Proof.
  intros a Hoff Hinput Hexec svc. split; [reflexivity|]. split.
  - unfold handleSendMessage. rewrite Hinput, Hexec, Hoff. cbn [negb orb].
    destruct rev; step_through; do 3 eexists; repeat split.
  - intros r1 o2 rest Hasks.
    destruct (engine_off_run driveTool JSON_parse uuid_of clock w (Resolves r1) o2 rest
                Hoff Hinput Hexec)
      as (w' & w0 & w1 & result & Hrun & Hexe & Hw0 & Hw' & _).
    destruct (DriveTool_run uuid_of clock standardReply (messages a) (input a)
                (Resolves r1) o2 rest w0)
      as (w1' & Hexe' & _ & _ & Hwire).
    pose proof (eq_trans (eq_sym Hexe) Hexe') as E. inversion E; subst w1'.
    exists w'. split; [exact Hrun|].
    rewrite Hw', Hwire, Hw0, Hasks. reflexivity.
Qed.

(** An instance: the first request of a message sent with the engine off. *)
Lemma standard_reply_routing_witness :
  let w := world (reference_page driveTool [Toggle; Typing "hi"]) in
  exists w' p req,
    run_sync Reference.uuid_of Reference.clock
      (handleSendMessage (svc := service_of driveTool Reference.JSON_parse) (app w)) w
    = (w', Blocked p)
    /\ wire w' = [req]
    /\ tools (rq_config req) = Some [functionDeclarations [DriveTool.searchDriveTool]].
Proof.
  intros w.
  destruct (standard_reply_routing driveTool Reference.JSON_parse
              Reference.uuid_of Reference.clock w eq_refl eq_refl eq_refl)
    as (_ & (w' & p & req & Hrun & Hwire & _ & _ & _ & Htools & _) & _).
  exists w', p, req. split; [exact Hrun|]. split; [exact Hwire | exact Htools].
Defined.

(* ===================================================================== *)
(** ** Failures of the analysis                                            *)
(* ===================================================================== *)

(** C7, as stated, fails.  A payload that is JSON but does not conform to
    the response schema (its depth is outside the enumeration) is one of
    the failures the specification lists; [analyzeContext] returns it
    without raising, no warning is logged and the suggestion set is not
    empty. *)
Lemma analysis_failure_counterexample :
  analysis_failure_as_stated (Reference.answer_json Reference.payload_off_schema)
  /\ conforms analysisSchema Reference.payload_off_schema = false
  /\ (exists w' a,
        run Reference.uuid_of Reference.clock
            [Reference.answer_json Reference.payload_off_schema]
            (Grounded.analyzeContext Reference.JSON_parse [] "hi") emptyWorld
        = (w', Done a))
  /\ (let es := engineState (app (world (reference_page grounded
                  [Typing "hi"; Send;
                   Settle 0 (Reference.answer_json Reference.payload_off_schema)]))) in
      existsb is_warning (logs es) = false
      /\ length (currentSuggestions es) = 1
      /\ isAnalyzing es = false).
Proof.
  split; [right; vm_compute; reflexivity|].
  split; [reflexivity|].
  split; [eexists; eexists; vm_compute; reflexivity|].
  vm_compute. repeat split.
Qed.

(** C7, amended.  The failures of an analysis are: the provider call is
    rejected, the response has no text, or the text is not what the parser
    accepts.  In each of them [analyzeContext] raises and the caller
    recovers locally: [isAnalyzing] is unset again (the engine is idle when
    it was not executing), the log has grown by the entry of the start and
    by exactly one warning, the suggestion set is empty, the conversation
    is as it was, and one request was sent, none after the failure. *)
Theorem analysis_failure_recovery (rev : Revision)
    (JSON_parse : string -> JsError + AnalysisResult)
    (uuid_of : nat -> string) (clock : nat -> Z)
    (w : World) (lastUserMessage : Message)
    (o : Outcome) (rest : list Outcome) (e : JsError) :
  analysis_error JSON_parse o = Some e ->
  let a := app w in
  let svc := service_of rev JSON_parse in
  let appended :=
    [ {| l_id := uuid_of (ticks w); l_timestamp := clock (S (ticks w));
         message := "Spore detected. Initiating substrate analysis...";
         l_type := log_info |};
      {| l_id := uuid_of (S (S (ticks w)));
         l_timestamp := clock (S (S (S (ticks w))));
         message := "Analysis failed: " ++ err_message e;
         l_type := log_warning |} ] in
  (exists w0 w1,
      run uuid_of clock (o :: rest)
          (@analyzeContext svc (messages a) (content lastUserMessage)) w0
      = (w1, Failed e))
  /\ exists w',
      run uuid_of clock (o :: rest) (processWithEngine (svc := svc) a lastUserMessage) w
      = (w', Done tt)
      /\ isAnalyzing (engineState (app w')) = false
      /\ isExecuting (engineState (app w')) = isExecuting (engineState (app w))
      /\ (if isExecuting (engineState (app w)) then True
          else STATUS (engineState (app w')) = "IDLE")
      /\ logs (engineState (app w')) = (logs (engineState (app w)) ++ appended)%list
      /\ length (filter is_warning appended) = 1
      /\ currentSuggestions (engineState (app w')) = []
      /\ messages (app w') = messages (app w)
      /\ length (wire w') = S (length (wire w)).
Proof.
  intros Herr a svc appended.
  assert (Hana : forall w0, exists w1,
            run uuid_of clock (o :: rest)
                (@analyzeContext svc (messages a) (content lastUserMessage)) w0
            = (w1, Failed e)
            /\ app w1 = app w0 /\ ticks w1 = ticks w0
            /\ length (wire w1) = S (length (wire w0))).
  { intros w0. subst svc.
    destruct rev;
      cbn [analyzeContext service_of Grounded.service DriveTool.service];
      unfold Grounded.analyzeContext, DriveTool.analyzeContext;
      match goal with
      | |- context [analyzeContext_with _ ?sys _ _] =>
          destruct (analyzeContext_run JSON_parse sys uuid_of clock (messages a)
                      (content lastUserMessage) o rest w0) as (w1 & Hrun & Hrest)
      end;
      rewrite Herr in Hrun; exists w1; split; auto. }
  split; [destruct (Hana w) as (w1 & Hrun & _); eauto|].
  unfold processWithEngine. run_effects.
  match goal with
  | |- context [run _ _ _ (try_catch (pbind ?p ?post) ?h) ?w1] =>
      destruct (run_in_context uuid_of clock
                  (fun q => try_catch (pbind q post) h)
                  (fun _ => True) (fun _ => True) 1 p
                  ltac:(intros X e0 k; reflexivity)
                  (analyze_serves (service_of_WellBehaved rev JSON_parse)
                                  (messages a) (content lastUserMessage))
                  (o :: rest) w1
                  ltac:(simpl; lia))
        as (w2 & rest' & [(r & _ & Hp & _) | (e' & _ & Hp & HC)]);
      destruct (Hana w1) as (w2' & Hrun & Happ & Hticks & Hwire);
      pose proof (eq_trans (eq_sym Hp) Hrun) as E; inversion E; subst w2' e'
  end.
  cbv beta in HC. fold svc. rewrite HC. run_effects. rewrite run_eq. step_through.
  eexists. split; [reflexivity|].
  rewrite Happ, Hticks. step_through. fold a.
  repeat split; auto.
  - unfold STATUS. step_through.
    destruct (isExecuting (engineState a)); reflexivity.
  - rewrite <- app_assoc. reflexivity.
Qed.

(** An instance: the provider answers without text. *)
Lemma analysis_failure_recovery_witness :
  exists w',
    run Reference.uuid_of Reference.clock [Reference.answer_nothing]
        (processWithEngine (svc := service_of grounded Reference.JSON_parse)
           (app emptyWorld) (Reference.a_message RoleUser "hi"))
        emptyWorld
    = (w', Done tt)
    /\ map message (logs (engineState (app w')))
       = [ "Spore detected. Initiating substrate analysis...";
           "Analysis failed: No analysis generated" ]
    /\ currentSuggestions (engineState (app w')) = [].
Proof.
  destruct (analysis_failure_recovery grounded Reference.JSON_parse
              Reference.uuid_of Reference.clock emptyWorld
              (Reference.a_message RoleUser "hi")
              Reference.answer_nothing [] (mkError "No analysis generated") eq_refl)
    as (_ & w' & Hrun & _ & _ & _ & Hlogs & _ & Hs & _).
  exists w'. split; [exact Hrun|]. split; [rewrite Hlogs; reflexivity | exact Hs].
Defined.

(* ===================================================================== *)
(** ** The scenarios of the specification, run on the reference host       *)
(* ===================================================================== *)

(** Citations: of four chunks, one with title and uri, one with a uri
    only, one with an empty uri and one without web source, the first two
    are cited; without chunks there is no citation list. *)
Example citations_example :
  let run_with o :=
    snd (run Reference.uuid_of Reference.clock [o]
             (Grounded.executeSuggestion (Reference.a_suggestion "Expand") [] "hi")
             emptyWorld) in
  run_with (Reference.answer_grounded "text"
              [ {| web := Some {| web_uri := Some "https://a.example";
                                  web_title := Some "A" |} |};
                {| web := Some {| web_uri := Some "https://b.example";
                                  web_title := None |} |};
                {| web := Some {| web_uri := Some ""; web_title := Some "C" |} |};
                {| web := None |} ])
  = Done {| text := "text"; modelUsed := "gemini-2.5-flash";
            sourceUrls := Some [ {| title := "A"; uri := "https://a.example" |};
                                 {| title := "Source"; uri := "https://b.example" |} ] |}
  /\ run_with (Reference.answer_grounded "text" [])
     = Done {| text := "text"; modelUsed := "gemini-2.5-flash"; sourceUrls := None |}.
Proof. vm_compute. split; reflexivity. Qed.

(** Scenario A: on an empty history "Explain quicksort" is analyzed into
    five suggestions; choosing the Expand one sends a request on the fast
    model with the search tool. *)
Example scenario_A :
  let page := reference_page grounded
                [Typing "Explain quicksort"; Send;
                 Settle 0 (Reference.answer_json Reference.payload_five); Select 1] in
  map (fun req => (rq_model req, tools (rq_config req), thinkingConfig (rq_config req)))
      (skipn 1 (wire (world page)))
  = [("gemini-2.5-flash", Some [googleSearch], None)].
Proof. vm_compute. reflexivity. Qed.

(** Scenario B: choosing the Create one sends a request on the
    deep-reasoning model with a thinking budget. *)
Example scenario_B :
  let page := reference_page grounded
                [Typing "Explain quicksort"; Send;
                 Settle 0 (Reference.answer_json Reference.payload_five); Select 2] in
  map (fun req => (rq_model req, tools (rq_config req), thinkingConfig (rq_config req)))
      (skipn 1 (wire (world page)))
  = [("gemini-3-pro-preview", None, Some (mkThinkingConfig 32768))].
Proof. vm_compute. reflexivity. Qed.

(** Scenario C: the provider answers the analysis without text; the
    suggestions stay empty, a warning is logged and the engine is idle. *)
Example scenario_C :
  let page := reference_page grounded
                [Typing "Explain quicksort"; Send; Settle 0 Reference.answer_nothing] in
  let es := engineState (app (world page)) in
  currentSuggestions es = []
  /\ map (fun l => (message l, l_type l)) (logs es)
     = [ ("Spore detected. Initiating substrate analysis...", log_info);
         ("Analysis failed: No analysis generated", log_warning) ]
  /\ STATUS es = "IDLE"
  /\ map role (messages (app (world page))) = [RoleUser].
Proof. vm_compute. repeat split. Qed.

(** Scenario D: the provider asks for the Drive search, and asks again
    in its follow-up; two requests are sent and the second has no tools. *)
Example scenario_D :
  let page := reference_page driveTool
                [Typing "Explain quicksort"; Send;
                 Settle 0 (Reference.answer_json Reference.payload_five); Select 3;
                 Settle 0 (Reference.answer_call "searchDrive");
                 Settle 0 (Reference.answer_call "searchDrive")] in
  map (fun req => tools (rq_config req)) (skipn 1 (wire (world page)))
  = [Some [functionDeclarations [DriveTool.searchDriveTool]]; None]
  /\ pending page = []
  /\ map (fun m => (role m, content m)) (messages (app (world page)))
     = [ (RoleUser, "Explain quicksort");
         (RoleModel, "Error processing tool result.") ].
Proof. vm_compute. repeat split. Qed.

(** Scenario E: with the engine off "hi" goes to the executor at once and
    one model message is added. *)
Example scenario_E :
  let page := reference_page grounded
                [Toggle; Typing "hi"; Send; Settle 0 (Reference.answer_text "hello")] in
  map (fun m => (role m, content m)) (messages (app (world page)))
  = [(RoleUser, "hi"); (RoleModel, "hello")]
  /\ map (fun req => responseSchema (rq_config req)) (wire (world page)) = [None]
  /\ STATUS (engineState (app (world page))) = "IDLE".
Proof. vm_compute. repeat split. Qed.

(* ===================================================================== *)
(** ** Further properties of the service                                   *)
(* ===================================================================== *)

Lemma citation_of_nonempty chunk c :
  citation_of chunk = Some c -> title c <> "" /\ uri c <> "".
Proof.
  unfold citation_of. destruct (web chunk) as [[[u|] t]|]; try discriminate.
  destruct (truthy u) eqn:Hu; [|discriminate].
  intros H. inversion H; subst c; clear H. simpl. split.
  - destruct t as [x|]; [|discriminate].
    destruct (truthy x) eqn:Hx; [now apply truthy_nonempty | discriminate].
  - now apply truthy_nonempty.
Qed.

Lemma filter_map_length {A B} (f : A -> option B) l :
  length (filter_map f l) <= length l.
Proof.
  induction l as [|x l IH]; simpl; [lia|]. destruct (f x); simpl; lia.
Qed.

(** X1.  Every citation the executor returns has a non-empty title and a
    non-empty uri, a returned citation list is not empty, and there are at
    most as many citations as the first candidate has grounding chunks; a
    rejected call returns no citations. *)
Theorem citations_wellformed (uuid_of : nat -> string) (clock : nat -> Z)
    (suggestion : Suggestion) (history : list Message) (lastInput : string)
    (o : Outcome) (rest : list Outcome) (w : World) :
  exists w' result,
    run uuid_of clock (o :: rest)
        (Grounded.executeSuggestion suggestion history lastInput) w
    = (w', Done result)
    /\ match sourceUrls result with
       | None => True
       | Some cited =>
           cited <> []
           /\ Forall (fun c => title c <> "" /\ uri c <> "") cited
           /\ match o with
              | Resolves response => length cited <= length (chunks_of response)
              | Rejects _ => False
              end
       end.
Proof.
  destruct (Grounded_run uuid_of clock suggestion history lastInput o rest w)
    as (w' & Hrun & _).
  exists w', (Grounded_settles suggestion o). split; [exact Hrun|].
  destruct o as [response | e]; simpl; [|exact I].
  unfold citations_spec.
  destruct (filter_map citation_of (chunks_of response)) as [|c l] eqn:Hl; [exact I|].
  split; [discriminate|]. split.
  - apply Forall_forall. intros x Hx. rewrite <- Hl in Hx.
    apply filter_map_In in Hx. destruct Hx as (chunk & _ & Hc).
    eapply citation_of_nonempty; eauto.
  - rewrite <- Hl. apply filter_map_length.
Qed.

(** The three ways a type is routed, in each revision. *)
Lemma Grounded_configure_cases type :
  Grounded.configure type
  = ("gemini-3-pro-preview",
     {| systemInstruction := None; responseMimeType := None; responseSchema := None;
        temperature := Some (mkNumber 7 (-1)); tools := None;
        thinkingConfig := Some (mkThinkingConfig 32768) |})
  \/ Grounded.configure type
     = ("gemini-2.5-flash",
        {| systemInstruction := None; responseMimeType := None; responseSchema := None;
           temperature := Some (mkNumber 7 (-1)); tools := Some [googleSearch];
           thinkingConfig := None |})
  \/ Grounded.configure type
     = ("gemini-2.5-flash",
        {| systemInstruction := None; responseMimeType := None; responseSchema := None;
           temperature := Some (mkNumber 7 (-1)); tools := None;
           thinkingConfig := None |}).
Proof.
  unfold Grounded.configure.
  destruct (includes _ type); [|destruct (includes _ type)]; auto.
Qed.

Lemma DriveTool_configure_cases type :
  (DriveTool.isComplex type = true
   /\ DriveTool.configure type
      = ("gemini-3-pro-preview",
         {| systemInstruction := None; responseMimeType := None; responseSchema := None;
            temperature := Some (mkNumber 7 (-1)); tools := None;
            thinkingConfig := Some (mkThinkingConfig 32768) |}))
  \/ (DriveTool.isComplex type = false
      /\ DriveTool.configure type
         = ("gemini-2.5-flash",
            {| systemInstruction := None; responseMimeType := None;
               responseSchema := None; temperature := Some (mkNumber 7 (-1));
               tools := Some [functionDeclarations [DriveTool.searchDriveTool]];
               thinkingConfig := None |}))
  \/ (DriveTool.isComplex type = false
      /\ DriveTool.configure type
         = ("gemini-2.5-flash",
            {| systemInstruction := None; responseMimeType := None;
               responseSchema := None; temperature := Some (mkNumber 7 (-1));
               tools := None; thinkingConfig := None |})).
Proof.
  unfold DriveTool.configure.
  destruct (DriveTool.isComplex type); [|destruct (DriveTool.needsSearch type)]; auto.
Qed.

(** X2.  The requests of one execution are coherent: in both revisions
    every request sent goes to one and the same model, which is the fast
    or the deep-reasoning model and is the [modelUsed] of every result but
    the error result; no request carries both tools and a thinking budget,
    and a request that carries tools goes to the fast model. *)
Theorem execution_requests_coherent (rev : Revision)
    (JSON_parse : string -> JsError + AnalysisResult)
    (uuid_of : nat -> string) (clock : nat -> Z)
    (suggestion : Suggestion) (history : list Message) (lastInput : string)
    (o1 o2 : Outcome) (rest : list Outcome) (w : World) :
  exists w' result sent model,
    run uuid_of clock (o1 :: o2 :: rest)
        (@executeSuggestion (service_of rev JSON_parse) suggestion history lastInput) w
    = (w', Done result)
    /\ wire w' = (wire w ++ sent)%list
    /\ 1 <= length sent <= hops_of rev
    /\ (model = "gemini-2.5-flash" \/ model = "gemini-3-pro-preview")
    /\ (result = error_result \/ modelUsed result = model)
    /\ Forall (fun req =>
                 rq_model req = model
                 /\ (tools (rq_config req) = None
                     \/ (thinkingConfig (rq_config req) = None
                         /\ model = "gemini-2.5-flash")))
              sent.
Proof.
  destruct rev; simpl.
  - destruct (Grounded_run uuid_of clock suggestion history lastInput o1 (o2 :: rest) w)
      as (w' & Hrun & _ & _ & Hw).
    exists w', (Grounded_settles suggestion o1). eexists.
    exists (fst (Grounded.configure (s_type suggestion))).
    split; [exact Hrun|]. split; [exact Hw|]. split; [simpl; lia|].
    split; [|split].
    + destruct (Grounded_configure_cases (s_type suggestion)) as [E | [E | E]];
        rewrite E; auto.
    + destruct o1; [right; reflexivity | left; reflexivity].
    + constructor; [|constructor]. cbn [rq_model rq_config].
      destruct (Grounded_configure_cases (s_type suggestion)) as [E | [E | E]];
        rewrite E; cbn; auto.
  - destruct (DriveTool_run uuid_of clock suggestion history lastInput o1 o2 rest w)
      as (w' & Hrun & _ & _ & Hw).
    exists w', (DriveTool_settles suggestion o1 o2). eexists.
    exists (fst (DriveTool.configure (s_type suggestion))).
    split; [exact Hrun|]. split; [exact Hw|]. split; [|split; [|split]].
    + destruct o1 as [r1|]; [destruct (asks_searchDrive r1)|]; simpl; lia.
    + destruct (DriveTool_configure_cases (s_type suggestion))
        as [[_ E] | [[_ E] | [_ E]]]; rewrite E; auto.
    + unfold DriveTool_settles. destruct o1 as [r1|]; [|now left].
      destruct (DriveTool.first_functionCall r1) as [fc|]; [|now right].
      destruct (DriveTool.is_searchDrive fc); [|now right].
      destruct o2; [now right | now left].
    + constructor.
      * cbn [rq_model rq_config].
        destruct (DriveTool_configure_cases (s_type suggestion))
          as [[_ E] | [[_ E] | [_ E]]]; rewrite E; cbn; auto.
      * destruct o1 as [r1|]; [destruct (asks_searchDrive r1)|]; constructor;
          [|constructor]. cbn. auto.
Qed.

(** X3.  The error result is returned exactly when the failure has been
    written to the console: in both revisions an execution writes at most
    one line, labelled "Execution failed:", with the error of the rejected
    call, and then returns the error result; otherwise it writes nothing
    and the result names a model. *)
Theorem execution_failure_is_logged (rev : Revision)
    (JSON_parse : string -> JsError + AnalysisResult)
    (uuid_of : nat -> string) (clock : nat -> Z)
    (suggestion : Suggestion) (history : list Message) (lastInput : string)
    (o1 o2 : Outcome) (rest : list Outcome) (w : World) :
  exists w' result,
    run uuid_of clock (o1 :: o2 :: rest)
        (@executeSuggestion (service_of rev JSON_parse) suggestion history lastInput) w
    = (w', Done result)
    /\ ((exists e,
           result = error_result
           /\ console w' = (console w ++ [("Execution failed:", e)])%list
           /\ (o1 = Rejects e
               \/ (rev = driveTool
                   /\ exists r1, o1 = Resolves r1 /\ asks_searchDrive r1 = true
                                 /\ o2 = Rejects e)))
        \/ (modelUsed result <> "error" /\ console w' = console w
            /\ exists r1, o1 = Resolves r1)).
Proof.
  destruct rev; cbn [executeSuggestion service_of Grounded.service DriveTool.service].
  - destruct o1 as [r1 | e1].
    + eexists. eexists. split; [repeat (rewrite run_eq; crunch); reflexivity|].
      right. crunch. split; [|split; [reflexivity | eauto]].
      destruct (Grounded_configure_cases (s_type suggestion)) as [E | [E | E]];
        rewrite E; discriminate.
    + eexists. eexists. split; [repeat (rewrite run_eq; crunch); reflexivity|].
      left. exists e1. crunch. auto.
  - assert (Hmodel : fst (DriveTool.configure (s_type suggestion)) <> "error").
    { destruct (DriveTool_configure_cases (s_type suggestion))
        as [[_ E] | [[_ E] | [_ E]]]; rewrite E; discriminate. }
    unfold asks_searchDrive.
    destruct o1 as [r1 | e1].
    + destruct (DriveTool.first_functionCall r1) as [fc|] eqn:Hfc.
      * destruct (DriveTool.is_searchDrive fc) eqn:Hsd.
        -- destruct o2 as [r2 | e2]; eexists; eexists;
             (split; [repeat (rewrite run_eq; crunch; rewrite ?Hfc, ?Hsd; crunch);
                      reflexivity|]); crunch.
           ++ right. eauto.
           ++ left. exists e2. split; [reflexivity|]. split; [reflexivity|].
              right. split; [reflexivity|]. exists r1. rewrite Hfc. auto.
        -- eexists; eexists;
             (split; [repeat (rewrite run_eq; crunch; rewrite ?Hfc, ?Hsd; crunch);
                      reflexivity|]); crunch. right. eauto.
      * eexists; eexists;
          (split; [repeat (rewrite run_eq; crunch; rewrite ?Hfc; crunch);
                   reflexivity|]); crunch. right. eauto.
    + eexists; eexists; (split; [repeat (rewrite run_eq; crunch); reflexivity|]).
      left. exists e1. crunch. auto.
Qed.

(** X4.  The analyzer writes to the console exactly when it fails: one
    line, labelled "Analysis failed:", with the very error it then throws;
    a successful analysis writes nothing. *)
Theorem analysis_failure_is_logged
    (JSON_parse : string -> JsError + AnalysisResult) (rev : Revision)
    (uuid_of : nat -> string) (clock : nat -> Z)
    (history : list Message) (lastInput : string)
    (o : Outcome) (rest : list Outcome) (w : World) :
  exists w' status,
    run uuid_of clock (o :: rest)
        (@analyzeContext (service_of rev JSON_parse) history lastInput) w
    = (w', status)
    /\ match analysis_error JSON_parse o with
       | Some e =>
           status = Failed e
           /\ console w' = (console w ++ [("Analysis failed:", e)])%list
       | None => (exists a, status = Done a) /\ console w' = console w
       end.
Proof.
  assert (H : forall sys, exists w' status,
            run uuid_of clock (o :: rest)
                (analyzeContext_with JSON_parse sys history lastInput) w
            = (w', status)
            /\ match analysis_error JSON_parse o with
               | Some e =>
                   status = Failed e
                   /\ console w' = (console w ++ [("Analysis failed:", e)])%list
               | None => (exists a, status = Done a) /\ console w' = console w
               end).
  { intros sys. unfold analysis_error.
    destruct o as [[[t|] cs] | e]; [destruct (truthy t) eqn:Ht;
                                      [destruct (JSON_parse t) eqn:Hp|]| |];
      eexists; eexists;
      (split; [repeat (rewrite run_eq; crunch; rewrite ?Ht, ?Hp; crunch);
               reflexivity|]);
      crunch; rewrite ?Ht, ?Hp; eauto. }
  destruct rev; apply H.
Qed.

(** X5.  In the revision with the Drive tool a function call is read at
    the first part of the first candidate only: when that part carries no
    call, whatever the other parts and candidates carry, one request is
    sent and the result is the text of the response, or the fixed text
    when it has none. *)
Theorem function_call_read_at_first_part (uuid_of : nat -> string) (clock : nat -> Z)
    (suggestion : Suggestion) (history : list Message) (lastInput : string)
    (t : option string) (g : option GroundingMetadata)
    (p : Part) (ps : list Part) (cs : list Candidate)
    (o2 : Outcome) (rest : list Outcome) (w : World) :
  functionCall p = None ->
  let r1 := {| r_text := t;
               candidates :=
                 Some ({| c_content := Some {| parts := Some (p :: ps) |};
                          groundingMetadata := g |} :: cs) |} in
  exists w',
    run uuid_of clock (Resolves r1 :: o2 :: rest)
        (DriveTool.executeSuggestion suggestion history lastInput) w
    = (w', Done {| text := or_else t "No response generated.";
                   modelUsed := fst (DriveTool.configure (s_type suggestion));
                   sourceUrls := None |})
    /\ wire w'
       = (wire w ++ [ {| rq_model := fst (DriveTool.configure (s_type suggestion));
                         rq_contents := DriveTool.taskPrompt suggestion history lastInput;
                         rq_config := snd (DriveTool.configure (s_type suggestion)) |} ])%list.
Proof.
  intros Hp r1.
  destruct (DriveTool_run uuid_of clock suggestion history lastInput
              (Resolves r1) o2 rest w) as (w' & Hrun & _ & _ & Hwire).
  exists w'. unfold DriveTool_settles, asks_searchDrive in *.
  assert (Hfc : DriveTool.first_functionCall r1 = None) by exact Hp.
  rewrite Hfc in *. split; [exact Hrun | exact Hwire].
Qed.

(** An instance: a response whose second part and second candidate ask
    for the Drive search. *)
Lemma function_call_read_at_first_part_witness :
  let call := {| functionCall := Some {| fc_name := Some "searchDrive" |} |} in
  let r1 := {| r_text := Some "plain";
               candidates :=
                 Some [ {| c_content :=
                             Some {| parts := Some [ {| functionCall := None |}; call ] |};
                           groundingMetadata := None |};
                        {| c_content := Some {| parts := Some [call] |};
                           groundingMetadata := None |} ] |} in
  exists w',
    run Reference.uuid_of Reference.clock
        [Resolves r1; Reference.answer_text "late"]
        (DriveTool.executeSuggestion (Reference.a_suggestion "Connect") [] "hi")
        emptyWorld
    = (w', Done {| text := "plain"; modelUsed := "gemini-2.5-flash";
                   sourceUrls := None |})
    /\ length (wire w') = 1.
Proof.
  intros call r1.
  destruct (function_call_read_at_first_part Reference.uuid_of Reference.clock
              (Reference.a_suggestion "Connect") [] "hi" (Some "plain") None
              {| functionCall := None |} [call]
              [ {| c_content := Some {| parts := Some [call] |};
                   groundingMetadata := None |} ]
              (Reference.answer_text "late") [] emptyWorld eq_refl)
    as (w' & Hrun & Hwire).
  exists w'. split; [exact Hrun | rewrite Hwire; reflexivity].
Defined.

(* ===================================================================== *)
(** ** Further properties of the handlers                                  *)
(* ===================================================================== *)




(** X8.  A suggestion selected on an empty conversation: the handler
    sends nothing and does not wait; it logs the selection, the start and
    the warning "Execution failed.", clears the suggestions and leaves
    [isExecuting] unset and the conversation as it was. *)
Theorem selection_without_message {svc : GeminiService}
    (uuid_of : nat -> string) (clock : nat -> Z)
    (a : AppState) (suggestion : Suggestion) (w : World) :
  messages a = [] ->
  exists w',
    run_sync uuid_of clock (handleSuggestionClick a suggestion) w = (w', Done tt)
    /\ wire w' = wire w
    /\ console w' = console w
    /\ messages (app w') = messages (app w)
    /\ logs (engineState (app w'))
       = (logs (engineState (app w)) ++
          [ {| l_id := uuid_of (ticks w); l_timestamp := clock (S (ticks w));
               message := "Selected path: " ++ s_type suggestion ++ " - "
                          ++ s_title suggestion;
               l_type := log_success |};
            {| l_id := uuid_of (2 + ticks w); l_timestamp := clock (3 + ticks w);
               message := "Weaving response..."; l_type := log_info |};
            {| l_id := uuid_of (4 + ticks w); l_timestamp := clock (5 + ticks w);
               message := "Execution failed."; l_type := log_warning |} ])%list
    /\ currentSuggestions (engineState (app w')) = []
    /\ isExecuting (engineState (app w')) = false
    /\ isAnalyzing (engineState (app w')) = isAnalyzing (engineState (app w)).
Proof.
  intros Hnil. unfold handleSuggestionClick. rewrite Hnil. step_through.
  eexists. split; [reflexivity|]. step_through.
  rewrite <- !app_assoc. repeat split.
Qed.

(** An instance: the first page, on which nothing was said. *)
Lemma selection_without_message_witness :
  exists w',
    run_sync Reference.uuid_of Reference.clock
      (handleSuggestionClick (svc := service_of grounded Reference.JSON_parse)
         initialAppState (Reference.a_suggestion "Expand")) emptyWorld
    = (w', Done tt)
    /\ map message (logs (engineState (app w')))
       = [ "Selected path: Expand - T"; "Weaving response...";
           "Execution failed." ].
Proof.
  destruct (selection_without_message
              (svc := service_of grounded Reference.JSON_parse)
              Reference.uuid_of Reference.clock initialAppState
              (Reference.a_suggestion "Expand") emptyWorld eq_refl)
    as (w' & Hrun & _ & _ & _ & Hlogs & _).
  exists w'. split; [exact Hrun|]. rewrite Hlogs. reflexivity.
Defined.

(** *** Handlers run to their end, in full *)

Lemma analysis_first_call rev JSON_parse h i :
  first_call (@analyzeContext (service_of rev JSON_parse) h i)
  = Some (analysisRequest rev h i).
Proof. destruct rev; reflexivity. Qed.

Lemma execution_first_call rev JSON_parse s h i :
  first_call (@executeSuggestion (service_of rev JSON_parse) s h i)
  = Some (executionRequest rev s h i).
Proof. destruct rev; reflexivity. Qed.



(** A selected suggestion, run to its end. *)
Lemma handleSuggestionClick_run rev JSON_parse uuid_of clock w s m0 o1 o2 rest :
  let a := app w in
  last_elem (messages a) = Some m0 ->
  let svc := service_of rev JSON_parse in
  exists w' w0 w1 result,
    run uuid_of clock (o1 :: o2 :: rest) (handleSuggestionClick (svc := svc) a s) w
    = (w', Done tt)
    /\ run uuid_of clock (o1 :: o2 :: rest)
           (@executeSuggestion svc s (slice_0_m1 (messages a)) (content m0)) w0
       = (w1, Done result)
    /\ wire w0 = wire w
    /\ wire w' = wire w1
    /\ messages (app w')
       = (messages a ++
          [ {| m_id := uuid_of (4 + ticks w); role := RoleModel;
               content := text result; timestamp := clock (5 + ticks w);
               m_type := None;
               metadata := Some {| suggestionType := Some (s_type s);
                                   executionTime := None;
                                   md_modelUsed := Some (modelUsed result);
                                   md_sourceUrls := sourceUrls result |} |} ])%list
    /\ logs (engineState (app w'))
       = (logs (engineState a) ++
          [ {| l_id := uuid_of (ticks w); l_timestamp := clock (S (ticks w));
               message := "Selected path: " ++ s_type s ++ " - " ++ s_title s;
               l_type := log_success |};
            {| l_id := uuid_of (2 + ticks w); l_timestamp := clock (3 + ticks w);
               message := "Weaving response..."; l_type := log_info |};
            {| l_id := uuid_of (6 + ticks w); l_timestamp := clock (7 + ticks w);
               message := "Execution complete."; l_type := log_success |} ])%list
    /\ currentSuggestions (engineState (app w')) = []
    /\ isExecuting (engineState (app w')) = false
    /\ isAnalyzing (engineState (app w')) = isAnalyzing (engineState a).
Proof.
  intros a Hlast svc.
  unfold handleSuggestionClick. fold a. rewrite Hlast. run_effects.
  match goal with
  | |- context [run _ _ _ (try_finally (try_catch (pbind ?p ?post) ?h) ?fin) ?w1] =>
      destruct (run_in_context uuid_of clock
                  (fun q => try_finally (try_catch (pbind q post) h) fin)
                  (fun _ => True) (fun _ => False) (hops_of rev) p
                  ltac:(intros X e k; reflexivity)
                  (execute_serves (service_of_WellBehaved rev JSON_parse)
                                  s (slice_0_m1 (messages a)) (content m0))
                  (o1 :: o2 :: rest) w1
                  ltac:(destruct rev; simpl; lia))
        as (w2 & rest' & [(r & _ & Hp & HC) | (e & [] & _)]);
      destruct (executeSuggestion_run rev JSON_parse uuid_of clock
                  s (slice_0_m1 (messages a)) (content m0) o1 o2 rest w1)
        as (w2' & result & Hrun & Happ & Hticks & _);
      exists (fst (run uuid_of clock rest'
                     (try_finally (try_catch (pbind (Ret r) post) h) fin) w2)),
             w1, w2, r
  end.
  fold svc in Hp. fold svc in Hrun. rewrite Hrun in Hp.
  inversion Hp; subst w2' r. clear Hp.
  cbv beta in HC. fold svc. rewrite HC. run_effects. rewrite run_eq. step_through.
  split; [reflexivity|]. split; [exact Hrun|].
  rewrite Happ, Hticks. step_through. fold a.
  rewrite <- !app_assoc. repeat split.
Qed.


Lemma executeSuggestion_rejected rev JSON_parse uuid_of clock s h i e o2 rest w w1 result :
  run uuid_of clock (Rejects e :: o2 :: rest)
      (@executeSuggestion (service_of rev JSON_parse) s h i) w
  = (w1, Done result) ->
  result = error_result.
Proof.
  destruct rev; cbn [executeSuggestion service_of Grounded.service DriveTool.service];
    intros H.
  - destruct (Grounded_run uuid_of clock s h i (Rejects e) (o2 :: rest) w)
      as (w' & Hrun & _).
    rewrite Hrun in H. now inversion H.
  - destruct (DriveTool_run uuid_of clock s h i (Rejects e) o2 rest w)
      as (w' & Hrun & _).
    rewrite Hrun in H. now inversion H.
Qed.

(** X7.  A suggestion selected on a conversation that has a last message,
    run until the provider has settled: the executor is called with the
    conversation but its last message as history and with the content of
    the last message as input; the conversation grows by exactly one model
    message, which carries the executor's text and is tagged with the
    type of the suggestion and the model used; the log grows by the
    selection, "Weaving response..." and "Execution complete."; the
    suggestions are cleared and [isExecuting] is unset again.  This is so
    also when the provider rejects the call: the error text becomes the
    model's message and the log still ends with "Execution complete.". *)
Theorem selection_reply (rev : Revision)
    (JSON_parse : string -> JsError + AnalysisResult)
    (uuid_of : nat -> string) (clock : nat -> Z)
    (w : World) (suggestion : Suggestion) (lastMsg : Message)
    (o1 o2 : Outcome) (rest : list Outcome) :
  let a := app w in
  last_elem (messages a) = Some lastMsg ->
  let svc := service_of rev JSON_parse in
  exists w' w0 w1 result reply appended,
    run uuid_of clock (o1 :: o2 :: rest)
        (handleSuggestionClick (svc := svc) a suggestion) w
    = (w', Done tt)
    /\ run uuid_of clock (o1 :: o2 :: rest)
           (@executeSuggestion svc suggestion (slice_0_m1 (messages a))
                               (content lastMsg)) w0
       = (w1, Done result)
    /\ wire w0 = wire w /\ wire w' = wire w1
    /\ messages (app w') = (messages a ++ [reply])%list
    /\ role reply = RoleModel
    /\ content reply = text result
    /\ metadata reply
       = Some {| suggestionType := Some (s_type suggestion); executionTime := None;
                 md_modelUsed := Some (modelUsed result);
                 md_sourceUrls := sourceUrls result |}
    /\ (forall e, o1 = Rejects e ->
          content reply = "Error executing suggestion. Please try again.")
    /\ logs (engineState (app w')) = (logs (engineState a) ++ appended)%list
    /\ map shown appended
       = [ ("Selected path: " ++ s_type suggestion ++ " - " ++ s_title suggestion,
            log_success);
           ("Weaving response...", log_info);
           ("Execution complete.", log_success) ]
    /\ currentSuggestions (engineState (app w')) = []
    /\ isExecuting (engineState (app w')) = false.
Proof.
  intros a Hlast svc.
  destruct (handleSuggestionClick_run rev JSON_parse uuid_of clock w suggestion
              lastMsg o1 o2 rest Hlast)
    as (w' & w0 & w1 & result & Hrun & Hexec & Hw0 & Hw' & Hmsgs & Hlogs & Hs & He & _).
  exists w', w0, w1, result. eexists. eexists.
  split; [exact Hrun|]. split; [exact Hexec|]. split; [exact Hw0|].
  split; [exact Hw'|]. split; [exact Hmsgs|]. cbn [role content metadata].
  split; [reflexivity|]. split; [reflexivity|]. split; [reflexivity|].
  split.
  { intros e ->.
    now rewrite (executeSuggestion_rejected rev JSON_parse uuid_of clock _ _ _ _ _ _ _ _ _
                   Hexec). }
  split; [exact Hlogs|]. repeat split; auto.
Qed.

(** An instance: the provider rejects the call. *)
Lemma selection_reply_witness :
  let w := {| app := {| messages := [Reference.a_message RoleUser "hi"];
                        input := ""; engineActive := true;
                        engineState := engineState initialAppState |};
              ticks := 0; console := []; wire := [] |} in
  exists w',
    run Reference.uuid_of Reference.clock [Reference.failure; Reference.failure]
        (handleSuggestionClick (svc := service_of grounded Reference.JSON_parse)
           (app w) (Reference.a_suggestion "Expand")) w
    = (w', Done tt)
    /\ map (fun m => (role m, content m)) (messages (app w'))
       = [ (RoleUser, "hi");
           (RoleModel, "Error executing suggestion. Please try again.") ]
    /\ map message (logs (engineState (app w')))
       = [ "Selected path: Expand - T"; "Weaving response..."; "Execution complete." ].
Proof.
  intros w.
  destruct (selection_reply grounded Reference.JSON_parse
              Reference.uuid_of Reference.clock w (Reference.a_suggestion "Expand")
              (Reference.a_message RoleUser "hi")
              Reference.failure Reference.failure [] eq_refl)
    as (w' & w0 & w1 & result & reply & appended & Hrun & _ & _ & _ & Hmsgs & Hrole
        & _ & _ & Hrej & Hlogs & Hshown & _).
  exists w'. split; [exact Hrun|]. split.
  - rewrite Hmsgs. cbn. rewrite Hrole, (Hrej _ eq_refl). reflexivity.
  - rewrite Hlogs. cbn.
    change (map message appended) with (map (fun l => fst (shown l)) appended).
    rewrite <- (map_map shown fst), Hshown. reflexivity.
Defined.



(* ===================================================================== *)
(** ** The page over time                                                  *)
(* ===================================================================== *)

Lemma grows_refl a : grows a a.
Proof.
  split; [|split; [|reflexivity]];
    exists []; (split; [symmetry; apply app_nil_r | constructor]).
Qed.

Lemma grows_trans a1 a2 a3 : grows a1 a2 -> grows a2 a3 -> grows a1 a3.
Proof.
  intros [(ms & Hm & Hr) [(ls & Hl & Hf) Hi]]
         [(ms' & Hm' & Hr') [(ls' & Hl' & Hf') Hi']].
  split; [|split].
  - exists (ms ++ ms')%list. split; [|now apply Forall_app].
    rewrite Hm', Hm, app_assoc. reflexivity.
  - exists (ls ++ ls')%list. split; [|now apply Forall_app].
    rewrite Hl', Hl, app_assoc. reflexivity.
  - congruence.
Qed.

Lemma grows_nonempty a a' : grows a a' -> messages a <> [] -> messages a' <> [].
Proof.
  intros [(ms & Hm & _) _] H. rewrite Hm. now destruct (messages a).
Qed.

Lemma grows_opens a a' :
  grows a a' -> messages a <> [] -> opens_with_user (messages a) ->
  opens_with_user (messages a').
Proof.
  intros [(ms & Hm & _) _] H. rewrite Hm. now destruct (messages a).
Qed.

Lemma Forall_remove_nth {A} (P : A -> Prop) i : forall l,
  Forall P l -> Forall P (remove_nth i l).
Proof.
  induction i as [|i IH]; intros [|x l] H; simpl; auto; inversion H; subst; auto.
Qed.

(** Shows that a state reached by running effects has grown. *)
Ltac grown :=
  split; [|split; [|reflexivity]];
  (eexists; split;
   [ cbn; rewrite <- ?app_assoc; first [reflexivity | symmetry; apply app_nil_r]
   | cbn; repeat constructor; cbn; discriminate ]).

(** Runs the effects at the head of a program up to the engine. *)
Ltac step_to_engine :=
  cbn -[String.append substring string_of_nat last_elem slice_0_m1 trim
        processWithEngine].

Section Growth.

Context {svc : GeminiService}.
Variable uuid_of : nat -> string.
Variable clock : nat -> Z.
Variable hops : nat.
Hypothesis svc_ok : WellBehaved svc hops.

Lemma hops_positive : 0 < hops.
Proof.
  destruct (execute_calls svc_ok standardReply [] "") as [req Hreq].
  apply first_call_Vis in Hreq. destruct Hreq as [k Hk].
  pose proof (execute_serves svc_ok standardReply [] "") as H.
  rewrite Hk in H. inversion H. lia.
Qed.

(** Logging the patterns: one entry for each of them. *)
Lemma run_sync_patterns_exact (msg : string -> string) (kind : LogKind)
    (f : string -> Prog unit) (g : unit -> Prog unit) (h : JsError -> Prog unit) ps :
  (forall p, f p = addLog (msg p) kind) ->
  forall w, exists w1 ls,
    run_sync uuid_of clock (try_catch (pbind (forEach ps f) g) h) w
    = run_sync uuid_of clock (try_catch (g tt) h) w1
    /\ same_but_logs (app w) (app w1)
    /\ wire w1 = wire w
    /\ logs (engineState (app w1)) = (logs (engineState (app w)) ++ ls)%list
    /\ map shown ls = map (fun p => (msg p, kind)) ps.
Proof.
  intros Hf. induction ps as [|p ps IH]; intros w.
  - exists w, []. rewrite app_nil_r. repeat split.
  - cbn [forEach]. rewrite Hf. step_through.
    match goal with
    | |- exists w1 ls, run_sync _ _ _ ?w2 = _ /\ _ =>
        destruct (IH w2) as (w1 & ls & Heq & Hsame & Hwire & Hlogs & Hmap)
    end.
    cbn in Hlogs. rewrite <- app_assoc in Hlogs.
    eexists w1, _. split; [exact Heq|]. split; [|split; [exact Hwire|]].
    + unfold same_but_logs in *. cbn in Hsame. intuition congruence.
    + split; [exact Hlogs|]. cbn. rewrite Hmap. reflexivity.
Qed.

(** [processWithEngine] grows the page, before and after the answer. *)
Lemma processWithEngine_grows a m :
  Task uuid_of clock grows grows 1 (processWithEngine a m).
Proof.
  rewrite Task_eq. intros w. unfold processWithEngine. step_through.
  match goal with
  | |- context [run_sync _ _ (try_catch (pbind ?p ?post) ?h) ?w1] =>
      assert (HT : Task uuid_of clock grows grows 1
                     ((fun q => try_catch (pbind q post) h) p));
        [ apply (Task_in_context uuid_of clock grows grows grows_refl
                   (fun q => try_catch (pbind q post) h)
                   (fun _ => True) (fun _ => True) 1 p)
        | rewrite Task_eq in HT; specialize (HT w1); cbv beta in HT;
          assert (Hpre : grows (app w) (app w1)) by grown;
          destruct (run_sync uuid_of clock (try_catch (pbind p post) h) w1)
            as [w' [u | e | q]] ]
  end.
  - intros X e k. reflexivity.
  - apply (analyze_serves svc_ok).
  - intros analysis _. rewrite Task_eq. intros w0. cbv beta.
    change (pbind (Ret analysis) ?f) with (f analysis). cbv beta.
    match goal with
    | |- context [run_sync _ _ (try_catch (pbind (forEach ?ps ?f) ?g) ?h) ?w3] =>
        destruct (run_sync_patterns_exact (fun p => "Pattern: " ++ p) log_pattern
                    f g h ps (fun p => eq_refl) w3)
          as (w4 & ls & Heq & (Hm4 & _ & _ & Hi4 & _) & _ & Hlogs4 & Hmap)
    end.
    rewrite Heq. step_through. split; [|split; [|exact Hi4]].
    + exists []. rewrite Hm4, app_nil_r. split; [reflexivity | constructor].
    + eexists. split; [rewrite Hlogs4, <- !app_assoc; reflexivity|].
      apply Forall_app. split.
      * assert (H : Forall (fun x => fst x <> "Execution failed.") (map shown ls)).
        { rewrite Hmap. apply Forall_map, Forall_forall. intros p _. cbn. discriminate. }
        rewrite Forall_map in H. exact H.
      * cbn. repeat constructor; cbn; discriminate.
  - intros e _. rewrite Task_eq. intros w0. step_through. grown.
  - eapply grows_trans; eauto.
  - exact HT.
  - destruct HT as [Hg HW]. split; [eapply grows_trans; eauto | exact HW].
Qed.

(** [handleSuggestionClick] grows the page when there is a message to
    answer. *)
Lemma handleSuggestionClick_grows a s :
  messages a <> [] ->
  Task uuid_of clock grows grows hops (handleSuggestionClick a s).
Proof.
  intros Hne. rewrite Task_eq. intros w. unfold handleSuggestionClick. step_through.
  destruct (last_elem (messages a)) as [m0|] eqn:Hlast;
    [|now apply last_elem_None in Hlast].
  change (pbind (Ret ?x) ?f) with (f x). cbv beta.
  match goal with
  | |- context [run_sync _ _ (try_finally (try_catch (pbind ?p ?post) ?h) ?fin) ?w1] =>
      assert (HT : Task uuid_of clock grows grows hops
                     ((fun q => try_finally (try_catch (pbind q post) h) fin) p));
        [ apply (Task_in_context uuid_of clock grows grows grows_refl
                   (fun q => try_finally (try_catch (pbind q post) h) fin)
                   (fun _ => True) (fun _ => False) hops p)
        | rewrite Task_eq in HT; specialize (HT w1); cbv beta in HT;
          assert (Hpre : grows (app w) (app w1)) by grown;
          destruct (run_sync uuid_of clock
                      (try_finally (try_catch (pbind p post) h) fin) w1)
            as [w' [u | e | q]] ]
  end.
  - intros X e k. reflexivity.
  - apply (execute_serves svc_ok).
  - intros r _. rewrite Task_eq. intros w0. step_through. grown.
  - intros e [].
  - eapply grows_trans; eauto.
  - exact HT.
  - destruct HT as [Hg HW]. split; [eapply grows_trans; eauto | exact HW].
Qed.

(** [handleSendMessage] does nothing, or adds the user's message and goes
    on growing the page. *)
Lemma handleSendMessage_grows a w :
  match run_sync uuid_of clock (handleSendMessage a) w with
  | (w', Done _) =>
      grows (app w) (app w')
      /\ (messages (app w') = messages (app w)
          \/ exists u ms, messages (app w') = (messages (app w) ++ u :: ms)%list
                          /\ role u = RoleUser)
  | (w', Failed _) => False
  | (w', Blocked p) =>
      grows (app w) (app w')
      /\ (exists u ms, messages (app w') = (messages (app w) ++ u :: ms)%list
                       /\ role u = RoleUser)
      /\ exists n, n < hops /\ Waiting uuid_of clock grows grows n p
  end.
Proof.
  unfold handleSendMessage.
  destruct (negb (truthy (trim (input a))) || isExecuting (engineState a)).
  - step_through. split; [apply grows_refl | now left].
  - assert (Hsent : forall w1 w',
              messages (app w1)
              = (messages (app w) ++
                 [ {| m_id := uuid_of (ticks w); role := RoleUser; content := input a;
                      timestamp := clock (S (ticks w)); m_type := None;
                      metadata := None |} ])%list ->
              grows (app w1) (app w') ->
              exists u ms, messages (app w') = (messages (app w) ++ u :: ms)%list
                           /\ role u = RoleUser).
    { intros w1 w' H1 [(ms & Hm & _) _]. eexists. exists ms.
      rewrite Hm, H1, <- app_assoc. split; reflexivity. }
    destruct (engineActive a) eqn:Hactive; step_to_engine.
    + match goal with
      | |- context [run_sync _ _ (processWithEngine a ?m) ?w1] =>
          pose proof (processWithEngine_grows a m) as HT;
            rewrite Task_eq in HT; specialize (HT w1);
            assert (Hpre : grows (app w) (app w1)) by grown;
            pose proof (Hsent w1) as Hsent1;
            destruct (run_sync uuid_of clock (processWithEngine a m) w1)
              as [w' [u | e | q]]
      end.
      * split; [eapply grows_trans; eauto|]. right. apply Hsent1; [reflexivity|exact HT].
      * exact HT.
      * destruct HT as [Hg HW]. split; [eapply grows_trans; eauto|].
        split; [apply Hsent1; [reflexivity | exact Hg]|].
        exists 0. split; [apply hops_positive | exact HW].
    + match goal with
      | |- context [run_sync _ _ (try_finally (pbind ?p ?post) ?fin) ?w1] =>
          assert (HT : Task uuid_of clock grows grows hops
                         ((fun q => try_finally (pbind q post) fin) p));
            [ apply (Task_in_context uuid_of clock grows grows grows_refl
                       (fun q => try_finally (pbind q post) fin)
                       (fun _ => True) (fun _ => False) hops p)
            | rewrite Task_eq in HT; specialize (HT w1); cbv beta in HT;
              assert (Hpre : grows (app w) (app w1)) by grown;
              pose proof (Hsent w1) as Hsent1;
              destruct (run_sync uuid_of clock (try_finally (pbind p post) fin) w1)
                as [w' [u | e | q]] ]
      end.
      * intros X e k. reflexivity.
      * apply (execute_serves svc_ok).
      * intros r _. rewrite Task_eq. intros w0. step_through. grown.
      * intros e [].
      * split; [eapply grows_trans; eauto|]. right. apply Hsent1; [reflexivity|exact HT].
      * exact HT.
      * destruct HT as [Hg HW]. split; [eapply grows_trans; eauto|].
        split; [apply Hsent1; [reflexivity | exact Hg]|].
        destruct hops as [|n]; [contradiction|]. exists n. split; [lia | exact HW].
Qed.

(** *** The invariant of the page over time *)

Lemma Sound_initial : Sound uuid_of clock hops initialMachine.
Proof. split; [constructor | split; [intros H; now elim H | exact I]]. Qed.

Lemma Sound_step m ev m' :
  Inv uuid_of clock hops m -> Sound uuid_of clock hops m ->
  step uuid_of clock m ev = Some m' ->
  Sound uuid_of clock hops m' /\ grows (app (world m)) (app (world m')).
Proof.
  intros HI (HW & Hne & Hopen) Hstep. destruct m as [w pend]. unfold step in Hstep.
  cbn [world pending app] in *.
  destruct ev as [s | | | i | i o].
  - (* typing *)
    destruct (input_disabled (app w)); [discriminate|].
    inversion Hstep; subst m'. clear Hstep. cbn.
    split; [split; [exact HW | split; [exact Hne | exact Hopen]] | grown].
  - (* send *)
    destruct (input_disabled (app w)); [discriminate|].
    inversion Hstep; subst m'. clear Hstep. unfold launch.
    pose proof (handleSendMessage_grows (app w) w) as H.
    destruct (run_sync uuid_of clock (handleSendMessage (app w)) w)
      as [w' [u | e | q]]; unfold Sound; cbn [world pending app].
    + destruct H as [Hg Hsent]. split; [|exact Hg].
      split; [exact HW|]. split.
      * intros Hp. eapply grows_nonempty; eauto.
      * destruct Hsent as [-> | (u0 & ms & -> & Hu)]; [exact Hopen|].
        destruct (messages (app w)); [exact Hu | exact Hopen].
    + contradiction.
    + destruct H as (Hg & (u0 & ms & Hm & Hu) & n & Hn & HWq). split; [|exact Hg].
      split; [|split].
      * apply Forall_app. split; [exact HW|]. constructor; [|constructor]. eauto.
      * intros _. rewrite Hm. now destruct (messages (app w)).
      * rewrite Hm. destruct (messages (app w)); [exact Hu | exact Hopen].
  - (* toggle *)
    inversion Hstep; subst m'. clear Hstep. cbn.
    split; [split; [exact HW | split; [exact Hne | exact Hopen]] | grown].
  - (* select *)
    unfold card in Hstep.
    destruct (engineActive (app w) && negb (isExecuting (engineState (app w))));
      [|discriminate].
    destruct (nth_error (currentSuggestions (engineState (app w))) i)
      as [sg|] eqn:Hnth; [|discriminate].
    inversion Hstep; subst m'. clear Hstep.
    assert (Hms : messages (app w) <> []).
    { destruct HI as [Hm _]. apply Hm. cbn. intros Hnil. rewrite Hnil in Hnth.
      destruct i; discriminate. }
    pose proof (handleSuggestionClick_grows (app w) sg Hms) as HT.
    rewrite Task_eq in HT. specialize (HT w). unfold launch.
    destruct (run_sync uuid_of clock (handleSuggestionClick (app w) sg) w)
      as [w' [u | e | q]]; unfold Sound; cbn [world pending app].
    + split; [|exact HT]. split; [exact HW|]. split.
      * intros _. eapply grows_nonempty; eauto.
      * eapply grows_opens; eauto.
    + contradiction.
    + destruct HT as [Hg HWq]. split; [|exact Hg]. split; [|split].
      * apply Forall_app. split; [exact HW|]. constructor; [|constructor].
        destruct hops as [|n]; [contradiction|]. exists n. split; [lia | exact HWq].
      * intros _. eapply grows_nonempty; eauto.
      * eapply grows_opens; eauto.
  - (* the provider settles a call *)
    destruct (nth_error pend i) as [p|] eqn:Hnth; [|discriminate].
    assert (Hpend : pend <> []).
    { intros Hnil. rewrite Hnil in Hnth. destruct i; discriminate. }
    specialize (Hne Hpend).
    assert (Hp : exists n, n < hops /\ Waiting uuid_of clock grows grows n p).
    { rewrite Forall_forall in HW. apply HW. eapply nth_error_In; eauto. }
    destruct Hp as (n & Hn & HWp). cbn in Hstep.
    destruct (HWp o) as (q & Hr & HT). rewrite Hr in Hstep.
    inversion Hstep; subst m'. clear Hstep.
    rewrite Task_eq in HT. specialize (HT w). unfold launch.
    destruct (run_sync uuid_of clock q w) as [w' [u | e | q']];
      unfold Sound; cbn [world pending app].
    + split; [|exact HT]. split; [now apply Forall_remove_nth|]. split.
      * intros _. eapply grows_nonempty; eauto.
      * eapply grows_opens; eauto.
    + contradiction.
    + destruct HT as [Hg HWq]. split; [|exact Hg]. split; [|split].
      * apply Forall_app. split; [now apply Forall_remove_nth|].
        constructor; [|constructor].
        destruct n as [|n']; [contradiction|]. exists n'. split; [lia | exact HWq].
      * intros _. eapply grows_nonempty; eauto.
      * eapply grows_opens; eauto.
Qed.

Lemma Sound_steps evs : forall m m',
  Inv uuid_of clock hops m -> Sound uuid_of clock hops m ->
  steps uuid_of clock m evs = Some m' ->
  Inv uuid_of clock hops m' /\ Sound uuid_of clock hops m'
  /\ grows (app (world m)) (app (world m')).
Proof.
  induction evs as [|ev evs IH]; intros m m' HI HS Hsteps; simpl in Hsteps.
  - inversion Hsteps; subst m'. split; [exact HI|]. split; [exact HS|].
    apply grows_refl.
  - destruct (step uuid_of clock m ev) as [m1|] eqn:Hstep; [|discriminate].
    simpl in Hsteps.
    destruct (Sound_step m ev m1 HI HS Hstep) as [HS1 Hg1].
    assert (HI1 : Inv uuid_of clock hops m1) by (eapply Inv_step; eauto).
    destruct (IH m1 m' HI1 HS1 Hsteps) as (HI' & HS' & Hg').
    split; [exact HI'|]. split; [exact HS'|]. eapply grows_trans; eauto.
Qed.

Lemma reachable_Sound evs m :
  steps uuid_of clock initialMachine evs = Some m ->
  Inv uuid_of clock hops m /\ Sound uuid_of clock hops m
  /\ grows initialAppState (app (world m)).
Proof.
  intros H.
  exact (Sound_steps evs initialMachine m (Inv_initial uuid_of clock hops)
           Sound_initial H).
Qed.

(** A waiting handler is through after as many answers as it may still
    wait for, and one more. *)
Lemma drain n : forall p w answers,
  Waiting uuid_of clock grows grows n p ->
  n < length answers ->
  exists k m',
    1 <= k <= S n
    /\ steps uuid_of clock {| world := w; pending := [p] |}
             (map (Settle 0) (firstn k answers)) = Some m'
    /\ pending m' = [].
Proof.
  induction n as [|n IH]; intros p w answers HW Hlen;
    (destruct answers as [|o rest]; [simpl in Hlen; lia|]);
    destruct (HW o) as (q & Hr & HT); rewrite Task_eq in HT; specialize (HT w).
  - exists 1. cbn [firstn map steps step world pending nth_error chain].
    rewrite Hr. cbn [chain remove_nth]. unfold launch.
    destruct (run_sync uuid_of clock q w) as [w' [u | e | q']].
    + eexists. split; [lia|]. split; reflexivity.
    + contradiction.
    + destruct HT as [_ []].
  - unfold launch.
    destruct (run_sync uuid_of clock q w) as [w' [u | e | q']] eqn:Hq.
    + exists 1. cbn [firstn map steps step world pending nth_error chain].
      rewrite Hr. cbn [chain remove_nth]. unfold launch. rewrite Hq.
      eexists. split; [lia|]. split; reflexivity.
    + contradiction.
    + destruct HT as [_ HW'].
      destruct (IH q' w' rest HW' ltac:(simpl in Hlen; lia))
        as (k & m' & Hk & Hsteps & Hp).
      exists (S k), m'. split; [lia|]. split; [|exact Hp].
      cbn [firstn map steps step world pending nth_error chain].
      rewrite Hr. cbn [chain remove_nth]. unfold launch. rewrite Hq.
      cbn [app]. exact Hsteps.
Qed.

End Growth.

Lemma reachable rev JSON_parse uuid_of clock evs m :
  steps (svc := service_of rev JSON_parse) uuid_of clock initialMachine evs = Some m ->
  Inv uuid_of clock (hops_of rev) m /\ Sound uuid_of clock (hops_of rev) m
  /\ grows initialAppState (app (world m)).
Proof.
  apply (reachable_Sound (svc := service_of rev JSON_parse) uuid_of clock (hops_of rev)
           (service_of_WellBehaved rev JSON_parse)).
Qed.

(** X11.  The conversation and the engine log are append-only: whatever
    the user and the provider do to a page that can be reached, with
    either revision of the service, the messages and the log entries it
    had stay as they are and in place, and new ones come after them. *)
Theorem page_append_only (rev : Revision)
    (JSON_parse : string -> JsError + AnalysisResult)
    (uuid_of : nat -> string) (clock : nat -> Z)
    (evs : list Event) (m : Machine) (evs' : list Event) (m' : Machine) :
  steps (svc := service_of rev JSON_parse) uuid_of clock initialMachine evs = Some m ->
  steps (svc := service_of rev JSON_parse) uuid_of clock m evs' = Some m' ->
  (exists ms, messages (app (world m')) = (messages (app (world m)) ++ ms)%list)
  /\ (exists ls, logs (engineState (app (world m')))
                 = (logs (engineState (app (world m))) ++ ls)%list).
Proof.
  intros Hsteps Hsteps'.
  destruct (reachable rev JSON_parse uuid_of clock evs m Hsteps) as (HI & HS & _).
  destruct (Sound_steps (svc := service_of rev JSON_parse) uuid_of clock (hops_of rev)
              (service_of_WellBehaved rev JSON_parse) evs' m m' HI HS Hsteps')
    as (_ & _ & [(ms & Hm & _) [(ls & Hl & _) _]]).
  split; eauto.
Qed.

(** An instance: after a first analysis a suggestion is selected and
    answered. *)
Lemma page_append_only_witness :
  exists ms,
    messages (app (world (reference_page grounded
                            [Typing "hi"; Send;
                             Settle 0 (Reference.answer_json Reference.payload_five);
                             Select 0; Settle 0 (Reference.answer_text "hello")])))
    = (messages (app (world (reference_page grounded
                               [Typing "hi"; Send;
                                Settle 0 (Reference.answer_json
                                            Reference.payload_five)])))
       ++ ms)%list.
Proof.
  destruct (page_append_only grounded Reference.JSON_parse
              Reference.uuid_of Reference.clock
              [Typing "hi"; Send;
               Settle 0 (Reference.answer_json Reference.payload_five)]
              (reference_page grounded
                 [Typing "hi"; Send;
                  Settle 0 (Reference.answer_json Reference.payload_five)])
              [Select 0; Settle 0 (Reference.answer_text "hello")]
              (reference_page grounded
                 [Typing "hi"; Send;
                  Settle 0 (Reference.answer_json Reference.payload_five);
                  Select 0; Settle 0 (Reference.answer_text "hello")])
              ltac:(vm_compute; reflexivity) ltac:(vm_compute; reflexivity))
    as [Hm _].
  exact Hm.
Defined.


(** X12.  The warning "Execution failed." is never logged on a page that
    can be reached: a card can only be clicked when the conversation has
    a last message, and the executor never throws, so the [catch] of
    [handleSuggestionClick] is not entered. *)
Theorem execution_failed_unreachable (rev : Revision)
    (JSON_parse : string -> JsError + AnalysisResult)
    (uuid_of : nat -> string) (clock : nat -> Z)
    (evs : list Event) (m : Machine) :
  steps (svc := service_of rev JSON_parse) uuid_of clock initialMachine evs = Some m ->
  Forall (fun l => message l <> "Execution failed.")
         (logs (engineState (app (world m)))).
Proof.
  intros Hsteps.
  destruct (reachable rev JSON_parse uuid_of clock evs m Hsteps)
    as (_ & _ & [_ [(ls & Hl & Hf) _]]).
  rewrite Hl. exact Hf.
Qed.

(** An instance: the provider rejects the call of a selected suggestion. *)
Lemma execution_failed_unreachable_witness :
  let m := reference_page grounded
             [Typing "hi"; Send;
              Settle 0 (Reference.answer_json Reference.payload_five); Select 0;
              Settle 0 Reference.failure] in
  Forall (fun l => message l <> "Execution failed.")
         (logs (engineState (app (world m))))
  /\ length (logs (engineState (app (world m)))) = 8.
Proof.
  intros m. split; [|vm_compute; reflexivity].
  exact (execution_failed_unreachable grounded Reference.JSON_parse
           Reference.uuid_of Reference.clock
           [Typing "hi"; Send;
            Settle 0 (Reference.answer_json Reference.payload_five); Select 0;
            Settle 0 Reference.failure]
           (reference_page grounded
              [Typing "hi"; Send;
               Settle 0 (Reference.answer_json Reference.payload_five); Select 0;
               Settle 0 Reference.failure])
           ltac:(vm_compute; reflexivity)).
Defined.


(** X13.  On every page that can be reached the conversation, when it is
    not empty, starts with a message of the user, no message has the role
    [system], and the conversation is not empty while a provider call is
    in flight. *)
Theorem conversation_opens_with_user (rev : Revision)
    (JSON_parse : string -> JsError + AnalysisResult)
    (uuid_of : nat -> string) (clock : nat -> Z)
    (evs : list Event) (m : Machine) :
  steps (svc := service_of rev JSON_parse) uuid_of clock initialMachine evs = Some m ->
  opens_with_user (messages (app (world m)))
  /\ Forall (fun msg => role msg <> RoleSystem) (messages (app (world m)))
  /\ (pending m <> [] -> messages (app (world m)) <> []).
Proof.
  intros Hsteps.
  destruct (reachable rev JSON_parse uuid_of clock evs m Hsteps)
    as (_ & (_ & Hne & Hopen) & [(ms & Hm & Hf) _]).
  split; [exact Hopen|]. split; [rewrite Hm; exact Hf | exact Hne].
Qed.

(** An instance: the engine is off and the provider has answered. *)
Lemma conversation_opens_with_user_witness :
  let m := reference_page driveTool
             [Toggle; Typing "hi"; Send; Settle 0 (Reference.answer_text "hello")] in
  opens_with_user (messages (app (world m)))
  /\ map role (messages (app (world m))) = [RoleUser; RoleModel].
Proof.
  intros m. split; [|vm_compute; reflexivity].
  exact (proj1 (conversation_opens_with_user driveTool Reference.JSON_parse
           Reference.uuid_of Reference.clock
           [Toggle; Typing "hi"; Send; Settle 0 (Reference.answer_text "hello")]
           (reference_page driveTool
              [Toggle; Typing "hi"; Send; Settle 0 (Reference.answer_text "hello")])
           ltac:(vm_compute; reflexivity))).
Defined.


(** X14.  At most one provider call is in flight, and the typing
    indicator tells it: on every page that can be reached exactly one
    handler waits for the provider when [isExecuting || isAnalyzing] (what
    the chat area is given as [isTyping] and what disables the input box),
    and none does otherwise. *)
Theorem calls_in_flight (rev : Revision)
    (JSON_parse : string -> JsError + AnalysisResult)
    (uuid_of : nat -> string) (clock : nat -> Z)
    (evs : list Event) (m : Machine) :
  steps (svc := service_of rev JSON_parse) uuid_of clock initialMachine evs = Some m ->
  length (pending m) = if input_disabled (app (world m)) then 1 else 0.
Proof.
  intros Hsteps.
  destruct (reachable rev JSON_parse uuid_of clock evs m Hsteps) as (HI & _).
  unfold input_disabled.
  destruct HI as [_ [(Hp & Ha & He) | [(p & Hp & Ha & He & _) | (p & n & Hp & Ha & He & _)]]];
    rewrite Hp, Ha, He; reflexivity.
Qed.

(** An instance: a suggestion was selected and its execution is awaited. *)
Lemma calls_in_flight_witness :
  let m := reference_page grounded
             [Typing "hi"; Send;
              Settle 0 (Reference.answer_json Reference.payload_five); Select 1] in
  length (pending m) = 1 /\ input_disabled (app (world m)) = true.
Proof.
  intros m.
  pose proof (calls_in_flight grounded Reference.JSON_parse
                Reference.uuid_of Reference.clock
                [Typing "hi"; Send;
                 Settle 0 (Reference.answer_json Reference.payload_five); Select 1]
                (reference_page grounded
                   [Typing "hi"; Send;
                    Settle 0 (Reference.answer_json Reference.payload_five);
                    Select 1])
                ltac:(vm_compute; reflexivity)) as H.
  assert (Hd : input_disabled
                 (app (world (reference_page grounded
                                [Typing "hi"; Send;
                                 Settle 0 (Reference.answer_json
                                             Reference.payload_five);
                                 Select 1]))) = true)
    by (vm_compute; reflexivity).
  rewrite Hd in H. split; [exact H | exact Hd].
Defined.


(** X15.  The engine always comes back to idle: on a page that can be
    reached and on which a handler waits for the provider, the answers of
    the provider, however they settle the calls, bring the page to a state
    in which nothing waits and the status is IDLE, after at least one and
    at most [hops_of rev] of them (one in the revision with search
    grounding, two in the revision with the Drive tool). *)
Theorem engine_returns_to_idle (rev : Revision)
    (JSON_parse : string -> JsError + AnalysisResult)
    (uuid_of : nat -> string) (clock : nat -> Z)
    (evs : list Event) (m : Machine) (answers : list Outcome) :
  steps (svc := service_of rev JSON_parse) uuid_of clock initialMachine evs = Some m ->
  pending m <> [] ->
  hops_of rev <= length answers ->
  exists k m',
    1 <= k <= hops_of rev
    /\ steps (svc := service_of rev JSON_parse) uuid_of clock m
             (map (Settle 0) (firstn k answers)) = Some m'
    /\ pending m' = []
    /\ STATUS (engineState (app (world m'))) = "IDLE"
    /\ input_disabled (app (world m')) = false.
Proof.
  intros Hsteps Hpend Hlen.
  assert (Hok := service_of_WellBehaved rev JSON_parse).
  destruct (reachable rev JSON_parse uuid_of clock evs m Hsteps) as (HI & HS & _).
  assert (Hone : exists p, pending m = [p]).
  { destruct HI as [_ [(Hp & _) | [(p & Hp & _) | (p & n & Hp & _)]]];
      [contradiction | eauto | eauto]. }
  destruct Hone as [p Hp]. destruct HS as (HW & _). rewrite Hp in HW.
  inversion HW as [|p0 l (n & Hn & HWp) _]; subst.
  destruct m as [w pend]. cbn [pending] in Hp. subst pend.
  destruct (drain (svc := service_of rev JSON_parse) uuid_of clock n p w answers HWp
              ltac:(lia))
    as (k & m' & Hk & Hdrain & Hp').
  exists k, m'. split; [lia|]. split; [exact Hdrain|]. split; [exact Hp'|].
  assert (HI' : Inv uuid_of clock (hops_of rev) m').
  { eapply (Inv_steps (svc := service_of rev JSON_parse)); eauto. }
  unfold STATUS, input_disabled.
  destruct HI' as [_ [(_ & Ha & He) | [(q & Hq & _) | (q & n' & Hq & _)]]];
    [rewrite Ha, He; split; reflexivity | congruence | congruence].
Qed.

(** An instance: the Drive search is asked for and its follow-up fails. *)
Lemma engine_returns_to_idle_witness :
  let m := reference_page driveTool
             [Typing "hi"; Send;
              Settle 0 (Reference.answer_json Reference.payload_five); Select 3] in
  exists k m',
    1 <= k <= 2
    /\ steps (svc := service_of driveTool Reference.JSON_parse)
             Reference.uuid_of Reference.clock m
             (map (Settle 0)
                  (firstn k [Reference.answer_call "searchDrive"; Reference.failure]))
       = Some m'
    /\ pending m' = [].
Proof.
  intros m.
  destruct (engine_returns_to_idle driveTool Reference.JSON_parse
              Reference.uuid_of Reference.clock
              [Typing "hi"; Send;
               Settle 0 (Reference.answer_json Reference.payload_five); Select 3]
              (reference_page driveTool
                 [Typing "hi"; Send;
                  Settle 0 (Reference.answer_json Reference.payload_five); Select 3])
              [Reference.answer_call "searchDrive"; Reference.failure]
              ltac:(vm_compute; reflexivity)
              ltac:(vm_compute; discriminate)
              ltac:(simpl; lia))
    as (k & m' & Hk & Hsteps & Hp & _).
  exists k, m'. split; [exact Hk|]. split; [exact Hsteps | exact Hp].
Defined.


Lemma last_elem_snoc {A} (l : list A) x : last_elem (l ++ [x]) = Some x.
Proof.
  unfold last_elem. destruct (l ++ [x])%list eqn:E.
  - now destruct l.
  - rewrite <- E, length_app. simpl.
    replace (length l + 1 - 1) with (length l) by lia.
    rewrite nth_error_app2, Nat.sub_diag; [reflexivity | lia].
Qed.

Lemma slice_0_m1_snoc {A} (l : list A) x : slice_0_m1 (l ++ [x]) = l.
Proof. apply removelast_last. Qed.

Lemma select_needs_card {svc : GeminiService} uuid_of clock m i m' :
  step uuid_of clock m (Select i) = Some m' ->
  exists s,
    nth_error (currentSuggestions (engineState (app (world m)))) i = Some s
    /\ engineActive (app (world m)) = true
    /\ isExecuting (engineState (app (world m))) = false
    /\ m' = launch uuid_of clock (handleSuggestionClick (app (world m)) s)
                   (world m) (pending m).
Proof.
  unfold step, card. intros H.
  destruct (engineActive (app (world m))); [|discriminate H].
  destruct (isExecuting (engineState (app (world m)))); [discriminate H|].
  cbn [andb negb] in H.
  destruct (nth_error (currentSuggestions (engineState (app (world m)))) i) as [s|];
    [|discriminate H].
  injection H as <-. exists s. repeat split.
Qed.

(** X10.  The executor is given the context the analyzer saw.  On a page
    that can be reached, when a message is sent, the provider answers the
    analysis and the [i]-th card is clicked, then the engine was on, the
    answer carried a payload the parser accepted, the card is the [i]-th
    suggestion of that payload, and the two requests on the wire are the
    analysis request and the execution request for that suggestion, both
    made from the conversation as it was before the message and from the
    message as typed. *)
Theorem executor_sees_analyzed_context (rev : Revision)
    (JSON_parse : string -> JsError + AnalysisResult)
    (uuid_of : nat -> string) (clock : nat -> Z)
    (evs : list Event) (m : Machine) (o : Outcome) (i : nat) (m' : Machine) :
  steps (svc := service_of rev JSON_parse) uuid_of clock initialMachine evs = Some m ->
  steps (svc := service_of rev JSON_parse) uuid_of clock m [Send; Settle 0 o; Select i]
  = Some m' ->
  let a := app (world m) in
  exists response t analysis suggestion,
    o = Resolves response /\ r_text response = Some t
    /\ JSON_parse t = inr analysis
    /\ nth_error (suggestions analysis) i = Some suggestion
    /\ engineActive a = true
    /\ wire (world m')
       = (wire (world m) ++
          [ analysisRequest rev (messages a) (input a);
            executionRequest rev suggestion (messages a) (input a) ])%list.
Proof.
  intros Hsteps H a.
  destruct (reachable rev JSON_parse uuid_of clock evs m Hsteps) as (HI & _).
  destruct m as [w pend]. cbn [world app] in a.
  cbn [steps] in H.
  destruct (step uuid_of clock {| world := w; pending := pend |} Send)
    as [m1|] eqn:H1; [|discriminate H].
  cbn [chain] in H.
  destruct (step uuid_of clock m1 (Settle 0 o)) as [m2|] eqn:H2; [|discriminate H].
  cbn [chain] in H.
  destruct (step uuid_of clock m2 (Select i)) as [m3|] eqn:H3; [|discriminate H].
  cbn [chain] in H. injection H as ->.
  unfold step in H1. cbn [world pending] in H1.
  destruct (input_disabled (app w)) eqn:Hdis; [discriminate H1|].
  pose proof (idle_pending uuid_of clock (hops_of rev) _ HI Hdis) as Hp.
  cbn in Hp. subst pend.
  apply orb_false_iff in Hdis. destruct Hdis as [He Ha].
  injection H1 as <-.
  unfold launch, handleSendMessage in H2. fold a in H2. fold a in He.
  rewrite He, orb_false_r in H2.
  destruct (truthy (trim (input a))); cbn [negb] in H2;
    [|cbn in H2; discriminate H2].
  destruct (engineActive a) eqn:Hact.
  - apply select_needs_card in H3. destruct H3 as (sg & Hnth & Hon & Hex & ->).
    destruct rev;
      (step_through in H2; unfold launch in H2;
       match type of H2 with
       | context [run_sync _ _ _ ?W] => remember W as w1 eqn:Hw1
       end;
       destruct o as [[[t|] cs] | e];
       [destruct (truthy t) eqn:Ht;
        [destruct (JSON_parse t) as [e|analysis] eqn:Hparse|]
       | |];
       step_through in H2; rewrite ?Ht, ?Hparse in H2; step_through in H2;
       try (injection H2 as <-; subst w1; cbn in Hnth; destruct i;
            discriminate Hnth)).
    all: match type of H2 with
         | context [run_sync _ _ (try_catch (pbind (forEach ?ps ?f) ?g) ?h) ?w3] =>
             destruct (run_sync_patterns_exact
                         uuid_of clock (fun p => "Pattern: " ++ p) log_pattern
                         f g h ps (fun p => eq_refl) w3)
               as (w4 & ls & Heq & (Hm4 & _) & Hwire4 & _)
         end.
    all: rewrite Heq in H2; step_through in H2; injection H2 as <-; cbn in Hnth.
    all: exists {| r_text := Some t; candidates := cs |}, t, analysis, sg.
    all: split; [reflexivity|]; split; [reflexivity|]; split; [exact Hparse|].
    all: split; [exact Hnth|]; split; [reflexivity|].
    all: cbn [world pending app]; unfold launch, handleSuggestionClick.
    all: cbn [messages app with_app]; rewrite Hm4, Hw1; cbn [messages app with_app].
    all: rewrite last_elem_snoc, slice_0_m1_snoc; step_through.
    all: rewrite Hwire4, Hw1; cbn [wire]; rewrite <- app_assoc; reflexivity.
  - apply select_needs_card in H3. destruct H3 as (sg & _ & Hon & _).
    assert (Hoff : engineActive (app (world m2)) = false); [|congruence].
    clear Hon.
    destruct rev;
      (step_through in H2; unfold launch in H2; destruct o as [r | e];
       cbn -[String.append substring string_of_nat last_elem slice_0_m1 trim
             DriveTool.first_functionCall DriveTool.is_searchDrive
             Grounded.extract_sources or_else Nat.ltb] in H2;
       try (destruct (DriveTool.first_functionCall r) as [fc|];
            [destruct (DriveTool.is_searchDrive fc)|];
            cbn -[String.append substring string_of_nat last_elem slice_0_m1 trim
                  or_else] in H2);
       injection H2 as <-; exact Hact).
Qed.

(** An instance: "hi" is sent on the first page, analyzed, and the second
    card is clicked. *)
Lemma executor_sees_analyzed_context_witness :
  exists suggestion,
    s_type suggestion = "Expand"
    /\ wire (world (reference_page grounded
                      [Typing "hi"; Send;
                       Settle 0 (Reference.answer_json Reference.payload_five);
                       Select 1]))
       = [ analysisRequest grounded [] "hi";
           executionRequest grounded suggestion [] "hi" ].
Proof.
  destruct (executor_sees_analyzed_context grounded Reference.JSON_parse
              Reference.uuid_of Reference.clock
              [Typing "hi"] (reference_page grounded [Typing "hi"])
              (Reference.answer_json Reference.payload_five) 1
              (reference_page grounded
                 [Typing "hi"; Send;
                  Settle 0 (Reference.answer_json Reference.payload_five);
                  Select 1])
              ltac:(vm_compute; reflexivity) ltac:(vm_compute; reflexivity))
    as (response & t & analysis & suggestion & Ho & Ht & Hparse & Hnth & _ & Hwire).
  exists suggestion. split; [|exact Hwire].
  injection Ho as <-. injection Ht as <-.
  vm_compute in Hparse. injection Hparse as <-.
  vm_compute in Hnth. injection Hnth as <-. reflexivity.
Defined.

(** X20.  The [isActive] field of the engine state is never written: on
    every page that can be reached it still has its first value, [true],
    whether the engine is switched on or off. *)
Theorem isActive_never_changes (rev : Revision)
    (JSON_parse : string -> JsError + AnalysisResult)
    (uuid_of : nat -> string) (clock : nat -> Z)
    (evs : list Event) (m : Machine) :
  steps (svc := service_of rev JSON_parse) uuid_of clock initialMachine evs = Some m ->
  isActive (engineState (app (world m))) = true.
Proof.
  intros Hsteps.
  destruct (reachable rev JSON_parse uuid_of clock evs m Hsteps)
    as (_ & _ & [_ [_ Hi]]).
  exact Hi.
Qed.

(** An instance: the engine is switched off. *)
Lemma isActive_never_changes_witness :
  let m := reference_page grounded [Toggle] in
  engineActive (app (world m)) = false
  /\ isActive (engineState (app (world m))) = true.
Proof.
  intros m. split; [vm_compute; reflexivity|].
  exact (isActive_never_changes grounded Reference.JSON_parse
           Reference.uuid_of Reference.clock [Toggle]
           (reference_page grounded [Toggle]) ltac:(vm_compute; reflexivity)).
Defined.

(* ===================================================================== *)
(** ** The components                                                      *)
(* ===================================================================== *)

(** X16.  The card has an icon and a color for exactly the six
    categories: [getIcon] and [getColor] are defined on each of them and
    on no other string, and no two categories share an icon or a color. *)
Theorem card_dress_covers_categories (type : SuggestionType) :
  (In type categories <-> getIcon type <> None)
  /\ (In type categories <-> getColor type <> None)
  /\ NoDup (map getIcon categories)
  /\ NoDup (map getColor categories).
Proof.
  split; [|split; [|split]].
  - split.
    + intros H. repeat (destruct H as [<- | H]; [discriminate|]). destruct H.
    + unfold getIcon, categories. intros H.
      repeat match goal with
             | H : context [String.eqb type ?c] |- _ =>
                 destruct (String.eqb_spec type c); [subst; simpl; tauto|]
             end.
      now elim H.
  - split.
    + intros H. repeat (destruct H as [<- | H]; [discriminate|]). destruct H.
    + unfold getColor, categories. intros H.
      repeat match goal with
             | H : context [String.eqb type ?c] |- _ =>
                 destruct (String.eqb_spec type c); [subst; simpl; tauto|]
             end.
      now elim H.
  - cbn. repeat constructor; cbn; intuition discriminate.
  - cbn. repeat constructor; cbn; intuition discriminate.
Qed.

(** X17.  Every suggestion of an analysis whose payload conforms to the
    response schema gets an icon and a color on its card. *)
Theorem conforming_suggestions_are_dressed (a : AnalysisResult) :
  conforms analysisSchema (analysis_to_json a) = true ->
  Forall (fun s => exists icon color,
                     getIcon (s_type s) = Some icon
                     /\ getColor (s_type s) = Some color)
         (suggestions a).
Proof.
  intros H. apply conforms_types in H.
  eapply Forall_impl; [|exact H]. cbv beta. intros s Hs.
  repeat (destruct Hs as [<- | Hs]; [eexists; eexists; split; reflexivity|]).
  destruct Hs.
Qed.

(** An instance: an analysis with one suggestion. *)
Lemma conforming_suggestions_are_dressed_witness :
  exists icon color,
    getIcon "Expand" = Some icon /\ getColor "Expand" = Some color.
Proof.
  pose proof (conforming_suggestions_are_dressed
                {| patternsDetected := ["Question"]; historyDepth := "shallow";
                   contextContinuity := "none"; dialecticalOpportunity := None;
                   suggestions := [Reference.a_suggestion "Expand"] |}
                eq_refl) as H.
  inversion H as [|s l Hs _]; subst. exact Hs.
Defined.

Lemma executeSuggestion_modelUsed rev JSON_parse uuid_of clock s h i o1 o2 rest w w1
    result :
  run uuid_of clock (o1 :: o2 :: rest)
      (@executeSuggestion (service_of rev JSON_parse) s h i) w
  = (w1, Done result) ->
  In (modelUsed result) ["error"; "gemini-2.5-flash"; "gemini-3-pro-preview"].
Proof.
  destruct rev; cbn [executeSuggestion service_of Grounded.service DriveTool.service];
    intros H.
  - destruct (Grounded_run uuid_of clock s h i o1 (o2 :: rest) w) as (w' & Hrun & _).
    rewrite Hrun in H. injection H as _ <-.
    destruct o1; simpl; [|tauto].
    destruct (Grounded_configure_cases (s_type s)) as [E | [E | E]];
      rewrite E; simpl; tauto.
  - destruct (DriveTool_run uuid_of clock s h i o1 o2 rest w) as (w' & Hrun & _).
    rewrite Hrun in H. injection H as _ <-.
    assert (Hm : In (fst (DriveTool.configure (s_type s)))
                    ["error"; "gemini-2.5-flash"; "gemini-3-pro-preview"]).
    { destruct (DriveTool_configure_cases (s_type s)) as [[_ E] | [[_ E] | [_ E]]];
        rewrite E; simpl; tauto. }
    unfold DriveTool_settles. destruct o1 as [r1|]; [|simpl; tauto].
    destruct (DriveTool.first_functionCall r1) as [fc|]; [|exact Hm].
    destruct (DriveTool.is_searchDrive fc); [|exact Hm].
    destruct o2; [exact Hm | simpl; tauto].
Qed.

(** X18.  The reply to a message sent while the engine is off is shown
    without the "Executed" line: neither of the two messages the handler
    adds has a badge, although the metadata of the reply names the model
    used. *)
Theorem engine_off_reply_has_no_badge (rev : Revision)
    (JSON_parse : string -> JsError + AnalysisResult)
    (uuid_of : nat -> string) (clock : nat -> Z)
    (w : World) (o1 o2 : Outcome) (rest : list Outcome) :
  let a := app w in
  engineActive a = false ->
  truthy (trim (input a)) = true ->
  isExecuting (engineState a) = false ->
  exists w' sent reply,
    run uuid_of clock (o1 :: o2 :: rest)
        (handleSendMessage (svc := service_of rev JSON_parse) a) w
    = (w', Done tt)
    /\ messages (app w') = (messages a ++ [sent; reply])%list
    /\ role sent = RoleUser /\ role reply = RoleModel
    /\ badge sent = None /\ badge reply = None
    /\ chain (metadata reply) md_modelUsed <> None.
Proof.
  intros a Hoff Hinput Hexec.
  destruct (engine_off_run rev JSON_parse uuid_of clock w o1 o2 rest Hoff Hinput Hexec)
    as (w' & w0 & w1 & result & Hrun & _ & _ & _ & Hmsgs & _).
  exists w'. eexists. eexists. split; [exact Hrun|]. split; [exact Hmsgs|].
  repeat split. discriminate.
Qed.

(** An instance: the engine is switched off and "hi" is sent. *)
Lemma engine_off_reply_has_no_badge_witness :
  exists w',
    run Reference.uuid_of Reference.clock
        [Reference.answer_text "hello"; Reference.failure]
        (handleSendMessage (svc := service_of grounded Reference.JSON_parse)
           (app (world (reference_page grounded [Toggle; Typing "hi"]))))
        (world (reference_page grounded [Toggle; Typing "hi"]))
    = (w', Done tt)
    /\ map badge (messages (app w')) = [None; None].
Proof.
  destruct (engine_off_reply_has_no_badge grounded Reference.JSON_parse
              Reference.uuid_of Reference.clock
              (world (reference_page grounded [Toggle; Typing "hi"]))
              (Reference.answer_text "hello") Reference.failure []
              eq_refl eq_refl eq_refl)
    as (w' & sent & reply & Hrun & Hmsgs & _ & _ & Hs & Hr & _).
  exists w'. split; [exact Hrun|]. rewrite Hmsgs. cbn. now rewrite Hs, Hr.
Defined.

(** X19.  The reply to a selected suggestion is shown with the line
    "Executed: <type>" and, beside it, "Model: <model>", where the model
    is the one the executor reports: the fast or the deep-reasoning model,
    or "error" when the provider rejected the call.  (The line is missing
    only for a suggestion whose type is the empty string.) *)
Theorem selection_reply_badge (rev : Revision)
    (JSON_parse : string -> JsError + AnalysisResult)
    (uuid_of : nat -> string) (clock : nat -> Z)
    (w : World) (suggestion : Suggestion) (lastMsg : Message)
    (o1 o2 : Outcome) (rest : list Outcome) :
  let a := app w in
  last_elem (messages a) = Some lastMsg ->
  exists w' reply used,
    run uuid_of clock (o1 :: o2 :: rest)
        (handleSuggestionClick (svc := service_of rev JSON_parse) a suggestion) w
    = (w', Done tt)
    /\ last_elem (messages (app w')) = Some reply
    /\ badge reply
       = (if truthy (s_type suggestion)
          then Some {| executed := s_type suggestion; model := Some used |}
          else None)
    /\ In used ["error"; "gemini-2.5-flash"; "gemini-3-pro-preview"]
    /\ (forall e, o1 = Rejects e -> used = "error").
Proof.
  intros a Hlast.
  destruct (handleSuggestionClick_run rev JSON_parse uuid_of clock w suggestion
              lastMsg o1 o2 rest Hlast)
    as (w' & w0 & w1 & result & Hrun & Hexec & _ & _ & Hmsgs & _).
  pose proof (executeSuggestion_modelUsed rev JSON_parse uuid_of clock _ _ _ _ _ _ _ _ _
                Hexec) as Hused.
  exists w'. eexists. exists (modelUsed result).
  split; [exact Hrun|]. split; [rewrite Hmsgs; apply last_elem_snoc|].
  split; [|split; [exact Hused|]].
  - unfold badge. cbn [metadata suggestionType md_modelUsed].
    destruct (truthy (s_type suggestion)); [|reflexivity].
    destruct (modelUsed result) eqn:E; [|reflexivity].
    simpl in Hused. intuition discriminate.
  - intros e ->.
    now rewrite (executeSuggestion_rejected rev JSON_parse uuid_of clock _ _ _ _ _ _ _ _ _
                   Hexec).
Qed.

(** An instance: the provider rejects the call. *)
Lemma selection_reply_badge_witness :
  let w := {| app := {| messages := [Reference.a_message RoleUser "hi"];
                        input := ""; engineActive := true;
                        engineState := engineState initialAppState |};
              ticks := 0; console := []; wire := [] |} in
  exists w' reply,
    run Reference.uuid_of Reference.clock [Reference.failure; Reference.failure]
        (handleSuggestionClick (svc := service_of grounded Reference.JSON_parse)
           (app w) (Reference.a_suggestion "Create")) w
    = (w', Done tt)
    /\ last_elem (messages (app w')) = Some reply
    /\ badge reply = Some {| executed := "Create"; model := Some "error" |}.
Proof.
  intros w.
  destruct (selection_reply_badge grounded Reference.JSON_parse
              Reference.uuid_of Reference.clock w (Reference.a_suggestion "Create")
              (Reference.a_message RoleUser "hi")
              Reference.failure Reference.failure [] eq_refl)
    as (w' & reply & used & Hrun & Hlast & Hbadge & _ & Hrej).
  exists w', reply. split; [exact Hrun|]. split; [exact Hlast|].
  rewrite Hbadge, (Hrej _ eq_refl). reflexivity.
Defined.

(** X21.  While an analysis is awaited no card is listed: on every page
    that can be reached, when [isAnalyzing] is set the suggestion list is
    empty (the panel shows "Growing..." and nothing to click); and
    whenever suggestions are listed the conversation is not empty. *)
Theorem analyzing_shows_no_cards (rev : Revision)
    (JSON_parse : string -> JsError + AnalysisResult)
    (uuid_of : nat -> string) (clock : nat -> Z)
    (evs : list Event) (m : Machine) :
  steps (svc := service_of rev JSON_parse) uuid_of clock initialMachine evs = Some m ->
  let es := engineState (app (world m)) in
  (isAnalyzing es = true ->
   currentSuggestions es = []
   /\ forall i, step (svc := service_of rev JSON_parse) uuid_of clock m (Select i) = None)
  /\ (currentSuggestions es <> [] -> messages (app (world m)) <> []).
Proof.
  intros Hsteps es. subst es.
  destruct (reachable rev JSON_parse uuid_of clock evs m Hsteps) as ([Hm HI] & _).
  split; [|exact Hm].
  intros Ha.
  assert (Hs : currentSuggestions (engineState (app (world m))) = []).
  { destruct HI as [(_ & Ha' & _) | [(p & _ & _ & _ & Hs & _) | (p & n & _ & Ha' & _)]];
      [congruence | exact Hs | congruence]. }
  split; [exact Hs|].
  intros i. unfold step, card. rewrite Hs.
  destruct (_ && _); [destruct i|]; reflexivity.
Qed.

(** An instance: "hi" was sent and the provider has not answered; the
    host's parser here accepts nothing. *)
Lemma analyzing_shows_no_cards_witness :
  exists m,
    steps (svc := service_of grounded (fun _ => inl (mkError "unparsed")))
          Reference.uuid_of Reference.clock initialMachine [Typing "hi"; Send]
    = Some m
    /\ isAnalyzing (engineState (app (world m))) = true
    /\ currentSuggestions (engineState (app (world m))) = [].
Proof.
  destruct (steps (svc := service_of grounded (fun _ => inl (mkError "unparsed")))
                  Reference.uuid_of Reference.clock initialMachine [Typing "hi"; Send])
    as [m|] eqn:Hsteps; [|vm_compute in Hsteps; discriminate Hsteps].
  exists m. split; [reflexivity|].
  assert (Ha : isAnalyzing (engineState (app (world m))) = true).
  { vm_compute in Hsteps. injection Hsteps as <-. reflexivity. }
  split; [exact Ha|].
  exact (proj1 (proj1 (analyzing_shows_no_cards grounded
                         (fun _ => inl (mkError "unparsed"))
                         Reference.uuid_of Reference.clock [Typing "hi"; Send] m Hsteps)
                      Ha)).
Defined.

(** X22.  A message sent while the engine is off leaves the engine panel
    as it was: once the provider has settled, the log, the suggestion
    list, [isAnalyzing] and [engineActive] are unchanged and
    [isExecuting] is unset; in particular the cards of an earlier analysis
    are still listed. *)
Theorem engine_off_keeps_panel (rev : Revision)
    (JSON_parse : string -> JsError + AnalysisResult)
    (uuid_of : nat -> string) (clock : nat -> Z)
    (w : World) (o1 o2 : Outcome) (rest : list Outcome) :
  let a := app w in
  engineActive a = false ->
  truthy (trim (input a)) = true ->
  isExecuting (engineState a) = false ->
  exists w',
    run uuid_of clock (o1 :: o2 :: rest)
        (handleSendMessage (svc := service_of rev JSON_parse) a) w
    = (w', Done tt)
    /\ engineState (app w') = set_isExecuting false (engineState a)
    /\ currentSuggestions (engineState (app w')) = currentSuggestions (engineState a)
    /\ logs (engineState (app w')) = logs (engineState a)
    /\ engineActive (app w') = false
    /\ input (app w') = "".
Proof.
  intros a Hoff Hinput Hexec.
  unfold handleSendMessage. rewrite Hinput, Hexec, Hoff. cbn [negb orb].
  run_effects.
  match goal with
  | |- context [run _ _ _ (try_finally (pbind ?p ?post) ?fin) ?w1] =>
      destruct (run_in_context uuid_of clock
                  (fun q => try_finally (pbind q post) fin)
                  (fun _ => True) (fun _ => False) (hops_of rev) p
                  ltac:(intros X e k; reflexivity)
                  (execute_serves (service_of_WellBehaved rev JSON_parse)
                                  standardReply (messages a) (input a))
                  (o1 :: o2 :: rest) w1
                  ltac:(destruct rev; simpl; lia))
        as (w2 & rest' & [(r & _ & Hp & HC) | (e & [] & _)]);
      destruct (executeSuggestion_run rev JSON_parse uuid_of clock
                  standardReply (messages a) (input a) o1 o2 rest w1)
        as (w2' & result & Hrun & Happ & Hticks & _)
  end.
  rewrite Hrun in Hp. inversion Hp; subst w2' r. clear Hp.
  cbv beta in HC. rewrite HC. run_effects. rewrite run_eq. step_through.
  eexists. split; [reflexivity|].
  rewrite Happ. step_through. fold a. rewrite Hoff.
  repeat split.
Qed.

(** An instance: the engine is switched off after an analysis, and "x"
    is sent and answered; the five cards are still listed. *)
Lemma engine_off_keeps_panel_witness :
  exists w',
    run Reference.uuid_of Reference.clock
        [Reference.answer_text "hello"; Reference.failure]
        (handleSendMessage (svc := service_of grounded Reference.JSON_parse)
           (app (world (reference_page grounded
                          [Typing "hi"; Send;
                           Settle 0 (Reference.answer_json Reference.payload_five);
                           Toggle; Typing "x"]))))
        (world (reference_page grounded
                  [Typing "hi"; Send;
                   Settle 0 (Reference.answer_json Reference.payload_five);
                   Toggle; Typing "x"]))
    = (w', Done tt)
    /\ length (currentSuggestions (engineState (app w'))) = 5.
Proof.
  destruct (engine_off_keeps_panel grounded Reference.JSON_parse
              Reference.uuid_of Reference.clock
              (world (reference_page grounded
                        [Typing "hi"; Send;
                         Settle 0 (Reference.answer_json Reference.payload_five);
                         Toggle; Typing "x"]))
              (Reference.answer_text "hello") Reference.failure []
              ltac:(vm_compute; reflexivity) ltac:(vm_compute; reflexivity)
              ltac:(vm_compute; reflexivity))
    as (w' & Hrun & _ & Hs & _).
  exists w'. split; [exact Hrun|]. rewrite Hs. vm_compute. reflexivity.
Defined.

(** A card of an earlier analysis clicked after an exchange with the
    engine off: the input the executor is given is the model's reply. *)
Example stale_card :
  let page := reference_page grounded
                [Typing "hi"; Send;
                 Settle 0 (Reference.answer_json Reference.payload_five);
                 Toggle; Typing "x"; Send; Settle 0 (Reference.answer_text "hello");
                 Toggle; Select 0] in
  map (fun m => (role m, content m)) (messages (app (world page)))
  = [(RoleUser, "hi"); (RoleUser, "x"); (RoleModel, "hello")]
  /\ option_map rq_contents (nth_error (wire (world page)) 2)
     = Some (Grounded.taskPrompt
               {| s_id := None; s_type := "Clarify"; s_title := "A";
                  description := "d"; reasoning := "r";
                  confidence := mkNumber 9 (-1) |}
               [Reference.a_message RoleUser "hi"; Reference.a_message RoleUser "x"]
               "hello").
Proof. vm_compute. split; reflexivity. Qed.
